(** * The elton (formerly cod) request-lifecycle core, embedded in Rocq

    A shallow embedding of the parts of the Go sources that the
    specification makes claims about:

    - [context.go]  : [Context], [Reset], [Redirect], the signed-cookie
                      methods, [GetRealIP], [GetClientIP];
    - [elton.go]    : the route closure built by [Elton.Handle] (the [Next]
                      continuation, parameter validators, trace recording,
                      the subtraction pass, the response finalizer),
                      [getMs] and [TraceInfos.ServerTiming];
    - [signed_keys.go] : the three [SignedKeysGenerator] implementations.

    Conventions.  A Go [string] is a Rocq [string] (a sequence of bytes);
    a Go [int] is a [Z] (64-bit platforms; no claim reaches the range
    where an [int] would wrap); [nil] of a pointer, map, slice, func or
    interface type is [None]; an [error] is an [option Error].  A Go
    panic is the outcome [None] / [Panic] of the operation that raises
    it.  Functions of the Go standard library and of third-party
    packages that the sources call are either modelled directly (when a
    few lines do it) or collected in the class [Lib] and left
    uninterpreted. *)

From Stdlib Require Import ZArith List String Ascii Bool Lia.
From stdpp Require Import gmap strings list sorting.

Import ListNotations.
Local Open Scope string_scope.
Local Open Scope list_scope.
Local Open Scope Z_scope.

(** ** Go library functions on strings *)

Module GoStrings.

(** [strconv.Itoa] on non-negative numbers: the decimal digits, most
    significant first.  [fuel] bounds the number of digits. *)
Definition digit (d : Z) : ascii := ascii_of_nat (48 + Z.to_nat d).

Fixpoint utoa (fuel : nat) (n : Z) (acc : string) : string :=
  match fuel with
  | O => acc
  | S fuel' =>
      let acc' := String (digit (n mod 10)) acc in
      if n <? 10 then acc' else utoa fuel' (n / 10) acc'
  end.

(** [strconv.Itoa]: a leading minus sign for negative numbers. *)
Definition Itoa (n : Z) : string :=
  if n <? 0
  then String "-"%char (utoa (S (Z.to_nat (Z.log2 (- n)))) (- n) EmptyString)
  else utoa (S (Z.to_nat (Z.log2 n))) n EmptyString.

(** [strings.Split(s, sep)] for a one-byte separator: the pieces between
    the separators, always at least one piece. *)
Fixpoint Split (s : string) (sep : ascii) : list string :=
  match s with
  | EmptyString => [EmptyString]
  | String c s' =>
      if Ascii.eqb c sep then EmptyString :: Split s' sep
      else match Split s' sep with
           | [] => [String c EmptyString]
           | p :: ps => String c p :: ps
           end
  end.

(** The white space [strings.TrimSpace] removes, on ASCII input:
    tab, line feed, vertical tab, form feed, carriage return, space. *)
Definition isSpace (c : ascii) : bool :=
  let n := nat_of_ascii c in
  ((9 <=? n)%nat && (n <=? 13)%nat) || (n =? 32)%nat.

Fixpoint TrimLeft (s : string) : string :=
  match s with
  | EmptyString => EmptyString
  | String c s' => if isSpace c then TrimLeft s' else s
  end.

Fixpoint TrimRight (s : string) : string :=
  match s with
  | EmptyString => EmptyString
  | String c s' =>
      match TrimRight s' with
      | EmptyString => if isSpace c then EmptyString else String c EmptyString
      | t => String c t
      end
  end.

Definition TrimSpace (s : string) : string := TrimRight (TrimLeft s).

(** Go's [<] on strings: byte-wise lexicographic order. *)
Definition less (a b : string) : bool :=
  match String.compare a b with Lt => true | _ => false end.

(** [sort.Sort(sort.Reverse(sort.StringSlice(arr)))]: [arr] rearranged
    so that no element is [less] than a later one.  Equal strings are
    indistinguishable, so every sorting algorithm returns this list;
    an insertion sort computes it. *)
Fixpoint insertDesc (x : string) (l : list string) : list string :=
  match l with
  | [] => [x]
  | y :: l' => if less x y then y :: insertDesc x l' else x :: l
  end.

Definition SortReverse (l : list string) : list string :=
  fold_right insertDesc [] l.

(** [strings.Builder]: the bytes written so far. *)
Definition Builder := string.
Definition WriteString (b : Builder) (s : string) : Builder := b +:+ s.

End GoStrings.

(** ** Go library functions on addresses ([net]) *)

Module GoNet.
Import GoStrings.

(** [net.IP] is a byte slice: 4 bytes (IPv4), 16 bytes (IPv6), or [nil]
    (here the empty list, as in Go where [len(nil) = 0]). *)
Definition IP := list Z.

(** [net.IPNet]: a network number and a mask of the same length. *)
Record IPNet := { netIP : IP; Mask : IP }.

Definition v4InV6Prefix : IP := [0; 0; 0; 0; 0; 0; 0; 0; 0; 0; 255; 255].

Definition IPv4 (a b c d : Z) : IP := v4InV6Prefix ++ [a; b; c; d].

Definition IP_eqb (a b : IP) : bool := bool_decide (a = b).

(** [ip.To4()]: the 4-byte form of an IPv4 address, [nil] otherwise. *)
Definition To4 (ip : IP) : IP :=
  if (length ip =? 4)%nat then ip
  else if (length ip =? 16)%nat && IP_eqb (firstn 12 ip) v4InV6Prefix
       then skipn 12 ip
       else [].

(** The loop of [IPNet.Contains]: byte-wise comparison under the mask. *)
Fixpoint sameUnderMask (nn m ip : IP) : bool :=
  match nn, m, ip with
  | n :: nn', k :: m', b :: ip' =>
      if Z.land n k =? Z.land b k then sameUnderMask nn' m' ip' else false
  | _, _, _ => true
  end.

(** [n.Contains(ip)].  The networks of the table below are stored in
    the form [net.ParseCIDR] produces (4 bytes for IPv4 networks, 16 for
    IPv6 ones), so [networkNumberAndMask] leaves them as they are. *)
Definition Contains (n : IPNet) (ip : IP) : bool :=
  let ip := match To4 ip with [] => ip | x => x end in
  if negb (length ip =? length (netIP n))%nat then false
  else sameUnderMask (netIP n) (Mask n) ip.

(** [net.CIDRMask(ones, bits)]. *)
Fixpoint CIDRMask (ones : Z) (bytes : nat) : IP :=
  match bytes with
  | O => []
  | S k =>
      (if 8 <=? ones then 255
       else if ones <=? 0 then 0
       else 255 - (Z.shiftl 1 (8 - ones) - 1))
        :: CIDRMask (ones - 8) k
  end.

(** [initPrivateIPBlocks] of elton.go: the networks the CIDR strings
    denote, in the order of the source. *)
Definition privateIPBlocks : list IPNet :=
  [ {| netIP := [127; 0; 0; 0]; Mask := CIDRMask 8 4 |}     (* 127.0.0.0/8 *)
  ; {| netIP := [10; 0; 0; 0]; Mask := CIDRMask 8 4 |}      (* 10.0.0.0/8 *)
  ; {| netIP := [172; 16; 0; 0]; Mask := CIDRMask 12 4 |}   (* 172.16.0.0/12 *)
  ; {| netIP := [192; 168; 0; 0]; Mask := CIDRMask 16 4 |}  (* 192.168.0.0/16 *)
  ; {| netIP := repeat 0 15 ++ [1]; Mask := CIDRMask 128 16 |}       (* ::1/128 *)
  ; {| netIP := [254; 128] ++ repeat 0 14; Mask := CIDRMask 10 16 |} (* fe80::/10 *)
  ; {| netIP := [252] ++ repeat 0 15; Mask := CIDRMask 7 16 |}       (* fc00::/7 *)
  ].

(** [IsPrivateIP] of elton.go. *)
Definition IsPrivateIP (ip : IP) : bool :=
  existsb (fun block => Contains block ip) privateIPBlocks.

(** Decimal digits at the front of a string ([dtoi]): the number, and
    the rest of the string; [None] when there is no digit or the number
    exceeds 255. *)
Definition isDigit (c : ascii) : bool :=
  let n := nat_of_ascii c in (48 <=? n)%nat && (n <=? 57)%nat.

Fixpoint dtoi_go (s : string) (acc : Z) : option (Z * string) :=
  match s with
  | String c s' =>
      if isDigit c
      then let acc' := acc * 10 + (Z.of_nat (nat_of_ascii c) - 48) in
           if 255 <? acc' then None else dtoi_go s' acc'
      else Some (acc, s)
  | EmptyString => Some (acc, s)
  end.

Definition octet (s : string) : option (Z * string) :=
  match s with
  | String c _ => if isDigit c then dtoi_go s 0 else None
  | EmptyString => None
  end.

Definition dot (s : string) : option string :=
  match s with
  | String c s' => if Ascii.eqb c "."%char then Some s' else None
  | EmptyString => None
  end.

(** [net.ParseIP] on dotted-quad text: four decimal fields of at most
    255 separated by dots (leading zeros are accepted, as they were
    before Go 1.17).  Anything else (IPv6 text included) gives
    [nil]: this parser stands for [net.ParseIP] in the examples only,
    which use IPv4 text; the theorems take the parser from [Lib]. *)
Definition ParseIPv4 (s : string) : IP :=
  match octet s with
  | Some (a, s1) =>
    match dot s1 with
    | Some s1 =>
      match octet s1 with
      | Some (b, s2) =>
        match dot s2 with
        | Some s2 =>
          match octet s2 with
          | Some (c, s3) =>
            match dot s3 with
            | Some s3 =>
              match octet s3 with
              | Some (d, EmptyString) => IPv4 a b c d
              | _ => []
              end
            | None => []
            end
          | None => []
          end
        | None => []
        end
      | None => []
      end
    | None => []
    end
  | None => []
  end.

(** [net.SplitHostPort] for the common form [host:port] with one colon
    and no brackets: the host, or the empty string when the port is
    missing (the error case, whose error [GetRemoteAddr] drops).  Used
    in the examples; the theorems take the function from [Lib]. *)
Fixpoint hostBeforeColon (s : string) : option string :=
  match s with
  | EmptyString => None
  | String c s' =>
      if Ascii.eqb c ":"%char then Some EmptyString
      else match hostBeforeColon s' with
           | Some h => Some (String c h)
           | None => None
           end
  end.

Definition SplitHost (hostport : string) : string :=
  match hostBeforeColon hostport with Some h => h | None => EmptyString end.

End GoNet.

(** ** signed_keys.go *)

Module SignedKeys.

(** [sync.RWMutex], as far as a single goroutine sees it: whether a
    writer holds it and how many readers do.  An operation that would
    block, or that Go rejects with a fatal error, has no result. *)
Record RWMutex := { writer : bool; readers : nat }.

(** A mutex nobody holds. *)
Definition free : RWMutex := {| writer := false; readers := O |}.

Definition RLock (mu : RWMutex) : option RWMutex :=
  if writer mu then None
  else Some {| writer := false; readers := S (readers mu) |}.

Definition RUnlock (mu : RWMutex) : option RWMutex :=
  match readers mu with
  | O => None
  | S n => Some {| writer := writer mu; readers := n |}
  end.

Definition Lock (mu : RWMutex) : option RWMutex :=
  if writer mu then None
  else match readers mu with
       | O => Some {| writer := true; readers := O |}
       | S _ => None
       end.

Definition Unlock (mu : RWMutex) : option RWMutex :=
  if writer mu then Some {| writer := false; readers := readers mu |}
  else None.

(** The three structs. [AtomicSignedKeys] holds a pointer to a slice:
    [None] is the nil pointer of a value that was never set. *)
Record SimpleSignedKeys := { simple_keys : list string }.
Record RWMutexSignedKeys := { rw_mutex : RWMutex; rw_keys : list string }.
Record AtomicSignedKeys := { atomic_keys : option (list string) }.

(** The interface [SignedKeysGenerator].  Both methods run on a pointer
    receiver: they return the receiver's state after the call; no
    result is a call that does not return (a nil dereference, a lock
    that is never granted). *)
Class SignedKeysGenerator (T : Type) := {
  GetKeys : T -> option (list string * T);
  SetKeys : list string -> T -> option T
}.

#[export] Instance SimpleSignedKeys_gen : SignedKeysGenerator SimpleSignedKeys := {
  GetKeys sk := Some (simple_keys sk, sk);
  SetKeys keys sk := Some {| simple_keys := keys |}
}.

#[export] Instance RWMutexSignedKeys_gen : SignedKeysGenerator RWMutexSignedKeys := {
  GetKeys rwSk :=
    match RLock (rw_mutex rwSk) with
    | Some mu =>
        let result := rw_keys rwSk in
        (* deferred RUnlock *)
        match RUnlock mu with
        | Some mu' => Some (result, {| rw_mutex := mu'; rw_keys := rw_keys rwSk |})
        | None => None
        end
    | None => None
    end;
  SetKeys keys rwSk :=
    match Lock (rw_mutex rwSk) with
    | Some mu =>
        (* rwSk.keys = keys, then the deferred Unlock *)
        match Unlock mu with
        | Some mu' => Some {| rw_mutex := mu'; rw_keys := keys |}
        | None => None
        end
    | None => None
    end
}.

#[export] Instance AtomicSignedKeys_gen : SignedKeysGenerator AtomicSignedKeys := {
  GetKeys atSk :=
    match atomic_keys atSk with
    | Some keys => Some (keys, atSk)       (* *keysPoint *)
    | None => None                         (* nil pointer dereference *)
    end;
  SetKeys keys atSk :=
    let s := skipn 0 keys in               (* keys[0:] *)
    Some {| atomic_keys := Some s |}
}.

(** A value of interface type [SignedKeysGenerator]: one of the three
    implementations with its state. *)
Inductive Generator :=
| GenSimple (sk : SimpleSignedKeys)
| GenRWMutex (rwSk : RWMutexSignedKeys)
| GenAtomic (atSk : AtomicSignedKeys).

Definition Generator_GetKeys (g : Generator) : option (list string * Generator) :=
  match g with
  | GenSimple sk => prod_map id GenSimple <$> GetKeys sk
  | GenRWMutex rwSk => prod_map id GenRWMutex <$> GetKeys rwSk
  | GenAtomic atSk => prod_map id GenAtomic <$> GetKeys atSk
  end.

Definition Generator_SetKeys (keys : list string) (g : Generator) : option Generator :=
  match g with
  | GenSimple sk => GenSimple <$> SetKeys keys sk
  | GenRWMutex rwSk => GenRWMutex <$> SetKeys keys rwSk
  | GenAtomic atSk => GenAtomic <$> SetKeys keys atSk
  end.

(** A history of [SetKeys] calls, oldest first. *)
Fixpoint SetKeysAll {T} `{SignedKeysGenerator T} (history : list (list string)) (s : T) : option T :=
  match history with
  | [] => Some s
  | keys :: rest =>
      match SetKeys keys s with
      | Some s' => SetKeysAll rest s'
      | None => None
      end
  end.

End SignedKeys.

(** ** context.go *)

Module Ctx.
Import GoStrings GoNet SignedKeys.

(** An [error] value: a [*hes.Error] (which carries a status code) or
    any other error.  [nil] is [None]. *)
Inductive Error :=
| HesError (StatusCode : Z) (Message : string)
| StdError (Message : string).

Abbreviation error := (option Error).

(** [http.Header]: a map from canonical keys to the values added under
    the key, in order. *)
Abbreviation http_Header := (gmap string (list string)).

(** [textproto.CanonicalMIMEHeaderKey]: a key made of token bytes gets
    an upper-case letter at the start and after each hyphen and
    lower-case letters elsewhere; any other key is left as it is. *)
Definition validHeaderFieldByte (c : ascii) : bool :=
  let n := nat_of_ascii c in
  ((48 <=? n)%nat && (n <=? 57)%nat) || ((65 <=? n)%nat && (n <=? 90)%nat)
  || ((97 <=? n)%nat && (n <=? 122)%nat)
  || existsb (Nat.eqb n) [33; 35; 36; 37; 38; 39; 42; 43; 45; 46; 94; 95; 96; 124; 126]%nat.

Fixpoint allValid (s : string) : bool :=
  match s with
  | EmptyString => true
  | String c s' => validHeaderFieldByte c && allValid s'
  end.

Fixpoint canonicalize (upper : bool) (s : string) : string :=
  match s with
  | EmptyString => EmptyString
  | String c s' =>
      let n := nat_of_ascii c in
      let c' :=
        if upper && (97 <=? n)%nat && (n <=? 122)%nat then ascii_of_nat (n - 32)
        else if negb upper && (65 <=? n)%nat && (n <=? 90)%nat then ascii_of_nat (n + 32)
        else c in
      String c' (canonicalize (Ascii.eqb c' "-"%char) s')
  end.

Definition CanonicalMIMEHeaderKey (s : string) : string :=
  if allValid s then canonicalize true s else s.

(** [h.Get(key)], [h.Add(key, value)], [h.Set(key, value)], [h.Del(key)]. *)
Definition Header_Get (h : http_Header) (key : string) : string :=
  match h !! CanonicalMIMEHeaderKey key with
  | Some (v :: _) => v
  | _ => EmptyString
  end.

Definition Header_Add (key value : string) (h : http_Header) : http_Header :=
  let k := CanonicalMIMEHeaderKey key in
  <[k := default [] (h !! k) ++ [value]]> h.

Definition Header_Set (key value : string) (h : http_Header) : http_Header :=
  <[CanonicalMIMEHeaderKey key := [value]]> h.

Definition Header_Del (key : string) (h : http_Header) : http_Header :=
  delete (CanonicalMIMEHeaderKey key) h.

(** [http.Cookie], with the fields [cloneCookie] copies. *)
Record Cookie := {
  Name : string;
  Value : string;
  Path : string;
  Domain : string;
  Expires : Z;
  RawExpires : string;
  MaxAge : Z;
  Secure : bool;
  HttpOnly : bool;
  SameSite : Z;
  Raw : string;
  Unparsed : list string
}.

(** [http.Request], as far as context.go reads it: the header map, the
    peer address, and the cookies the request carries (what net/http
    parses out of the Cookie header, in order). *)
Record http_Request := {
  Header : http_Header;
  RemoteAddr : string;
  Cookies : list Cookie
}.

(** [http.ResponseWriter]: an interface value, known by its identity,
    together with the header map its [Header()] method returns. *)
Record ResponseWriter := {
  rwId : nat;
  rwHeader : http_Header
}.

(** A value of type [interface{}] stored in [Context.Body]: one that
    implements [io.Reader] (with the bytes it yields, and whether it
    is also an [io.Closer]), or anything else. *)
Inductive BodyValue :=
| ReaderBody (content : string) (closer : bool)
| PlainBody (v : string).

(** A [Validator]: [func(value string) error]. *)
Definition Validator := string -> error.

(** The fields of [Elton] that hold data.  The fields that hold
    handlers and listeners (functions over [Context]) are the record
    [Dispatch.Funcs] below. *)
Record Elton := {
  status : Z;
  EnableTrace : bool;
  SignedKeys : option Generator;
  validators : option (gmap string Validator)
}.

Definition ReuseContextEnabled : Z := 0.
Definition ReuseContextDisabled : Z := 1.

(** The [func() error] stored in [Context.Next]: known by identity. *)
Inductive NextFunc := RouteNext | OtherNext (id : nat).

(** [Context].  [Headers] is the response's header map ("it's equal to
    response's header"): the map is kept here, by its contents.
    [Params] lists the bound route parameters in the order a [range]
    over them yields (for a Go map, an order the runtime picks: the
    theorems hold for every order). *)
Record Context := {
  Request : option http_Request;
  Response : option ResponseWriter;
  Headers : option http_Header;
  Committed : bool;
  ID : string;
  Route : string;
  Next : option NextFunc;
  Params : option (list (string * string));
  StatusCode : Z;
  Body : option BodyValue;
  BodyBuffer : option string;
  RequestBody : option string;
  m : option (gmap string string);
  realIP : string;
  clientIP : string;
  elton : option Elton;
  reuseStatus : Z;
  cacheQuery : option (gmap string (list string))
}.

(** [&Context{}]: every field at its zero value. *)
Definition zeroContext : Context := {|
  Request := None; Response := None; Headers := None; Committed := false;
  ID := EmptyString; Route := EmptyString; Next := None; Params := None;
  StatusCode := 0; Body := None; BodyBuffer := None; RequestBody := None;
  m := None; realIP := EmptyString; clientIP := EmptyString; elton := None;
  reuseStatus := 0; cacheQuery := None |}.

(** Assignments to single fields. *)
Definition set_Request (v : option http_Request) (c : Context) : Context :=
  {| Request := v; Response := Response c; Headers := Headers c; Committed := Committed c;
     ID := ID c; Route := Route c; Next := Next c; Params := Params c;
     StatusCode := StatusCode c; Body := Body c; BodyBuffer := BodyBuffer c;
     RequestBody := RequestBody c; m := m c; realIP := realIP c; clientIP := clientIP c;
     elton := elton c; reuseStatus := reuseStatus c; cacheQuery := cacheQuery c |}.

Definition set_Response (v : option ResponseWriter) (c : Context) : Context :=
  {| Request := Request c; Response := v; Headers := Headers c; Committed := Committed c;
     ID := ID c; Route := Route c; Next := Next c; Params := Params c;
     StatusCode := StatusCode c; Body := Body c; BodyBuffer := BodyBuffer c;
     RequestBody := RequestBody c; m := m c; realIP := realIP c; clientIP := clientIP c;
     elton := elton c; reuseStatus := reuseStatus c; cacheQuery := cacheQuery c |}.

Definition set_Headers (v : option http_Header) (c : Context) : Context :=
  {| Request := Request c; Response := Response c; Headers := v; Committed := Committed c;
     ID := ID c; Route := Route c; Next := Next c; Params := Params c;
     StatusCode := StatusCode c; Body := Body c; BodyBuffer := BodyBuffer c;
     RequestBody := RequestBody c; m := m c; realIP := realIP c; clientIP := clientIP c;
     elton := elton c; reuseStatus := reuseStatus c; cacheQuery := cacheQuery c |}.

Definition set_Committed (v : bool) (c : Context) : Context :=
  {| Request := Request c; Response := Response c; Headers := Headers c; Committed := v;
     ID := ID c; Route := Route c; Next := Next c; Params := Params c;
     StatusCode := StatusCode c; Body := Body c; BodyBuffer := BodyBuffer c;
     RequestBody := RequestBody c; m := m c; realIP := realIP c; clientIP := clientIP c;
     elton := elton c; reuseStatus := reuseStatus c; cacheQuery := cacheQuery c |}.

Definition set_ID (v : string) (c : Context) : Context :=
  {| Request := Request c; Response := Response c; Headers := Headers c; Committed := Committed c;
     ID := v; Route := Route c; Next := Next c; Params := Params c;
     StatusCode := StatusCode c; Body := Body c; BodyBuffer := BodyBuffer c;
     RequestBody := RequestBody c; m := m c; realIP := realIP c; clientIP := clientIP c;
     elton := elton c; reuseStatus := reuseStatus c; cacheQuery := cacheQuery c |}.

Definition set_Route (v : string) (c : Context) : Context :=
  {| Request := Request c; Response := Response c; Headers := Headers c; Committed := Committed c;
     ID := ID c; Route := v; Next := Next c; Params := Params c;
     StatusCode := StatusCode c; Body := Body c; BodyBuffer := BodyBuffer c;
     RequestBody := RequestBody c; m := m c; realIP := realIP c; clientIP := clientIP c;
     elton := elton c; reuseStatus := reuseStatus c; cacheQuery := cacheQuery c |}.

Definition set_Next (v : option NextFunc) (c : Context) : Context :=
  {| Request := Request c; Response := Response c; Headers := Headers c; Committed := Committed c;
     ID := ID c; Route := Route c; Next := v; Params := Params c;
     StatusCode := StatusCode c; Body := Body c; BodyBuffer := BodyBuffer c;
     RequestBody := RequestBody c; m := m c; realIP := realIP c; clientIP := clientIP c;
     elton := elton c; reuseStatus := reuseStatus c; cacheQuery := cacheQuery c |}.

Definition set_Params (v : option (list (string * string))) (c : Context) : Context :=
  {| Request := Request c; Response := Response c; Headers := Headers c; Committed := Committed c;
     ID := ID c; Route := Route c; Next := Next c; Params := v;
     StatusCode := StatusCode c; Body := Body c; BodyBuffer := BodyBuffer c;
     RequestBody := RequestBody c; m := m c; realIP := realIP c; clientIP := clientIP c;
     elton := elton c; reuseStatus := reuseStatus c; cacheQuery := cacheQuery c |}.

Definition set_StatusCode (v : Z) (c : Context) : Context :=
  {| Request := Request c; Response := Response c; Headers := Headers c; Committed := Committed c;
     ID := ID c; Route := Route c; Next := Next c; Params := Params c;
     StatusCode := v; Body := Body c; BodyBuffer := BodyBuffer c;
     RequestBody := RequestBody c; m := m c; realIP := realIP c; clientIP := clientIP c;
     elton := elton c; reuseStatus := reuseStatus c; cacheQuery := cacheQuery c |}.

Definition set_Body (v : option BodyValue) (c : Context) : Context :=
  {| Request := Request c; Response := Response c; Headers := Headers c; Committed := Committed c;
     ID := ID c; Route := Route c; Next := Next c; Params := Params c;
     StatusCode := StatusCode c; Body := v; BodyBuffer := BodyBuffer c;
     RequestBody := RequestBody c; m := m c; realIP := realIP c; clientIP := clientIP c;
     elton := elton c; reuseStatus := reuseStatus c; cacheQuery := cacheQuery c |}.

Definition set_BodyBuffer (v : option string) (c : Context) : Context :=
  {| Request := Request c; Response := Response c; Headers := Headers c; Committed := Committed c;
     ID := ID c; Route := Route c; Next := Next c; Params := Params c;
     StatusCode := StatusCode c; Body := Body c; BodyBuffer := v;
     RequestBody := RequestBody c; m := m c; realIP := realIP c; clientIP := clientIP c;
     elton := elton c; reuseStatus := reuseStatus c; cacheQuery := cacheQuery c |}.

Definition set_RequestBody (v : option string) (c : Context) : Context :=
  {| Request := Request c; Response := Response c; Headers := Headers c; Committed := Committed c;
     ID := ID c; Route := Route c; Next := Next c; Params := Params c;
     StatusCode := StatusCode c; Body := Body c; BodyBuffer := BodyBuffer c;
     RequestBody := v; m := m c; realIP := realIP c; clientIP := clientIP c;
     elton := elton c; reuseStatus := reuseStatus c; cacheQuery := cacheQuery c |}.

Definition set_m (v : option (gmap string string)) (c : Context) : Context :=
  {| Request := Request c; Response := Response c; Headers := Headers c; Committed := Committed c;
     ID := ID c; Route := Route c; Next := Next c; Params := Params c;
     StatusCode := StatusCode c; Body := Body c; BodyBuffer := BodyBuffer c;
     RequestBody := RequestBody c; m := v; realIP := realIP c; clientIP := clientIP c;
     elton := elton c; reuseStatus := reuseStatus c; cacheQuery := cacheQuery c |}.

Definition set_realIP (v : string) (c : Context) : Context :=
  {| Request := Request c; Response := Response c; Headers := Headers c; Committed := Committed c;
     ID := ID c; Route := Route c; Next := Next c; Params := Params c;
     StatusCode := StatusCode c; Body := Body c; BodyBuffer := BodyBuffer c;
     RequestBody := RequestBody c; m := m c; realIP := v; clientIP := clientIP c;
     elton := elton c; reuseStatus := reuseStatus c; cacheQuery := cacheQuery c |}.

Definition set_clientIP (v : string) (c : Context) : Context :=
  {| Request := Request c; Response := Response c; Headers := Headers c; Committed := Committed c;
     ID := ID c; Route := Route c; Next := Next c; Params := Params c;
     StatusCode := StatusCode c; Body := Body c; BodyBuffer := BodyBuffer c;
     RequestBody := RequestBody c; m := m c; realIP := realIP c; clientIP := v;
     elton := elton c; reuseStatus := reuseStatus c; cacheQuery := cacheQuery c |}.

Definition set_elton (v : option Elton) (c : Context) : Context :=
  {| Request := Request c; Response := Response c; Headers := Headers c; Committed := Committed c;
     ID := ID c; Route := Route c; Next := Next c; Params := Params c;
     StatusCode := StatusCode c; Body := Body c; BodyBuffer := BodyBuffer c;
     RequestBody := RequestBody c; m := m c; realIP := realIP c; clientIP := clientIP c;
     elton := v; reuseStatus := reuseStatus c; cacheQuery := cacheQuery c |}.

Definition set_reuseStatus (v : Z) (c : Context) : Context :=
  {| Request := Request c; Response := Response c; Headers := Headers c; Committed := Committed c;
     ID := ID c; Route := Route c; Next := Next c; Params := Params c;
     StatusCode := StatusCode c; Body := Body c; BodyBuffer := BodyBuffer c;
     RequestBody := RequestBody c; m := m c; realIP := realIP c; clientIP := clientIP c;
     elton := elton c; reuseStatus := v; cacheQuery := cacheQuery c |}.

Definition set_cacheQuery (v : option (gmap string (list string))) (c : Context) : Context :=
  {| Request := Request c; Response := Response c; Headers := Headers c; Committed := Committed c;
     ID := ID c; Route := Route c; Next := Next c; Params := Params c;
     StatusCode := StatusCode c; Body := Body c; BodyBuffer := BodyBuffer c;
     RequestBody := RequestBody c; m := m c; realIP := realIP c; clientIP := clientIP c;
     elton := elton c; reuseStatus := reuseStatus c; cacheQuery := v |}.

(** [Reset]: the eighteen assignments, in the order of the source. *)
Definition Reset (c : Context) : Context :=
  let c := set_Request None c in
  let c := set_Response None c in
  let c := set_Headers None c in
  let c := set_Committed false c in
  let c := set_ID EmptyString c in
  let c := set_Route EmptyString c in
  let c := set_Next None c in
  let c := set_Params None c in
  let c := set_StatusCode 0 c in
  let c := set_Body None c in
  let c := set_BodyBuffer None c in
  let c := set_RequestBody None c in
  let c := set_m None c in
  let c := set_realIP EmptyString c in
  let c := set_clientIP EmptyString c in
  let c := set_elton None c in
  let c := set_reuseStatus ReuseContextEnabled c in
  set_cacheQuery None c.

(** [NewContext]. *)
Definition NewContext (resp : option ResponseWriter) (req : option http_Request) : Context :=
  let c := zeroContext in
  let c := set_Request req c in
  let c := set_Response resp c in
  match resp with
  | Some w => set_Headers (Some (rwHeader w)) c
  | None => c
  end.

(** [DisableReuse] and [isReuse]. *)
Definition DisableReuse (c : Context) : Context := set_reuseStatus ReuseContextDisabled c.
Definition isReuse (c : Context) : bool := reuseStatus c =? ReuseContextEnabled.

(** What context.go takes from elsewhere.  [MinRedirectCode],
    [MaxRedirectCode], [ErrInvalidRedirect] are declared in a file of
    the repository that is not among the sources at hand; the others
    are functions of the Go standard library and of the packages hes,
    keygrip and intranet-ip.

    - [http_Redirect w h r url code]: what [http.Redirect] leaves in
      the response's header map [h];
    - [Cookie_String]: the [String] method of [http.Cookie];
    - [keygrip_Sign keys data], [keygrip_Index keys data digest]:
      [keygrip.New(keys).Sign] and [.Index];
    - [net_ParseIP]: [net.ParseIP] ([nil] is the empty list);
    - [net_SplitHost]: the host result of [net.SplitHostPort];
    - [intranetip_Is]: [intranetip.Is]. *)
Class Lib := {
  MinRedirectCode : Z;
  MaxRedirectCode : Z;
  ErrInvalidRedirect : Error;
  http_Redirect :
    option ResponseWriter -> option http_Header -> option http_Request ->
    string -> Z -> option http_Header;
  http_ErrNoCookie : Error;
  hes_New : string -> Error;
  Cookie_String : Cookie -> string;
  keygrip_Sign : list string -> string -> string;
  keygrip_Index : list string -> string -> string -> Z;
  net_ParseIP : string -> IP;
  net_SplitHost : string -> string;
  intranetip_Is : IP -> bool
}.

(** Modelled from the spec: the constants [HeaderXForwardedFor],
    [HeaderXRealIP] and [HeaderSetCookie] are declared in a file that
    is not among the sources at hand.  The forwarding header and the
    secondary header are X-Forwarded-For and X-Real-Ip (the README
    names them); the response header for cookies is Set-Cookie. *)
Definition HeaderXForwardedFor : string := "X-Forwarded-For".
Definition HeaderXRealIP : string := "X-Real-Ip".
Definition HeaderSetCookie : string := "Set-Cookie".

Definition SignedCookieSuffix : string := ".sig".

Definition nonEmpty (s : string) : bool := negb (String.eqb s EmptyString).

Section WithLib.
Context `{lib : Lib}.

Definition errSignKeyIsNil : Error := hes_New "keys for sign cookie can't be nil".

(** [GetRemoteAddr]. *)
Definition GetRemoteAddr (req : http_Request) : string :=
  net_SplitHost (RemoteAddr req).

(** [GetRealIP]. *)
Definition GetRealIP (req : http_Request) : string :=
  let h := Header req in
  let ip := Header_Get h HeaderXForwardedFor in
  if nonEmpty ip then TrimSpace (hd EmptyString (Split ip ","%char))
  else
    let ip := Header_Get h HeaderXRealIP in
    if nonEmpty ip then ip
    else GetRemoteAddr req.

(** The [for ... range arr] loop of [GetClientIP]: the first trimmed
    value that [intranetip.Is] rejects. *)
Fixpoint firstPublic (arr : list string) : option string :=
  match arr with
  | [] => None
  | value :: rest =>
      let v := TrimSpace value in
      if negb (intranetip_Is (net_ParseIP v)) then Some v
      else firstPublic rest
  end.

(** [GetClientIP]. *)
Definition GetClientIP (req : http_Request) : string :=
  let h := Header req in
  let ip := Header_Get h HeaderXForwardedFor in
  let found :=
    if nonEmpty ip then
      let arr := Split ip ","%char in
      let arr := SortReverse arr in
      firstPublic arr
    else None in
  match found with
  | Some v => v
  | None =>
      let ip := Header_Get h HeaderXRealIP in
      if nonEmpty ip && negb (intranetip_Is (net_ParseIP ip)) then ip
      else GetRemoteAddr req
  end.

(** [RealIP] and [ClientIP]: the cached value when there is one.  A nil
    [c.Request] is dereferenced: no result. *)
Definition RealIP (c : Context) : option (string * Context) :=
  if nonEmpty (realIP c) then Some (realIP c, c)
  else match Request c with
       | Some req => let ip := GetRealIP req in Some (ip, set_realIP ip c)
       | None => None
       end.

Definition ClientIP (c : Context) : option (string * Context) :=
  if nonEmpty (clientIP c) then Some (clientIP c, c)
  else match Request c with
       | Some req => let ip := GetClientIP req in Some (ip, set_clientIP ip c)
       | None => None
       end.

(** The permitted redirect codes. *)
Definition inRedirectRange (code : Z) : Prop :=
  MinRedirectCode <= code <= MaxRedirectCode.

(** [Redirect]. *)
Definition Redirect (code : Z) (url : string) (c : Context) : error * Context :=
  if (code <? MinRedirectCode) || (MaxRedirectCode <? code)
  then (Some ErrInvalidRedirect, c)
  else
    let c := set_StatusCode code c in
    let c := set_Committed true c in
    let c := set_Body None c in
    let c := set_BodyBuffer None c in
    (* http.Redirect(c.Response, c.Request, url, code) *)
    let c := set_Headers (http_Redirect (Response c) (Headers c) (Request c) url code) c in
    (None, c).

(** [SetHeader] and [AddHeader].  Deleting from a nil map does nothing;
    storing into one panics. *)
Definition SetHeader (key value : string) (c : Context) : option Context :=
  if nonEmpty value then
    match Headers c with
    | Some h => Some (set_Headers (Some (Header_Set key value h)) c)
    | None => None
    end
  else Some (set_Headers (Header_Del key <$> Headers c) c).

Definition AddHeader (key value : string) (c : Context) : option Context :=
  match Headers c with
  | Some h => Some (set_Headers (Some (Header_Add key value h)) c)
  | None => None
  end.

(** [c.Cookie(name)]: the first cookie of the request with that name. *)
Definition Request_Cookie (name : string) (req : http_Request) : option Cookie * error :=
  match List.find (fun ck => String.eqb (Name ck) name) (Cookies req) with
  | Some ck => (Some ck, None)
  | None => (None, Some http_ErrNoCookie)
  end.

Definition Cookie_ (name : string) (c : Context) : option (option Cookie * error) :=
  Request_Cookie name <$> Request c.

(** [AddCookie]. *)
Definition AddCookie (cookie : Cookie) (c : Context) : option (error * Context) :=
  match AddHeader HeaderSetCookie (Cookie_String cookie) c with
  | Some c' => Some (None, c')
  | None => None
  end.

(** [getKeys].  The generator's own state is the same after [GetKeys]
    as before (lemma [GetKeys_state]), so it is not written back. *)
Definition getKeys (c : Context) : option (list string) :=
  match elton c with
  | None => Some []
  | Some e =>
      match SignedKeys e with
      | None => Some []
      | Some g => fst <$> Generator_GetKeys g
      end
  end.

(** [GetSignedCookie]: the results [(cookie, index, err)]. *)
Definition GetSignedCookie (name : string) (c : Context)
  : option (option Cookie * Z * error) :=
  let index := -1 in
  match Cookie_ name c with
  | None => None
  | Some (cookie, Some err) => Some (cookie, index, Some err)
  | Some (cookie, None) =>
      match getKeys c with
      | None => None
      | Some keys =>
          if (length keys =? 0)%nat then Some (cookie, index, Some errSignKeyIsNil)
          else
            match Cookie_ (name +:+ SignedCookieSuffix) c with
            | None => None
            | Some (_, Some err) => Some (None, index, Some err)
            | Some (sc, None) =>
                let index :=
                  keygrip_Index keys (from_option Value EmptyString cookie)
                                     (from_option Value EmptyString sc) in
                Some (cookie, index, None)
            end
      end
  end.

(** [cloneCookie]. *)
Definition cloneCookie (cookie : Cookie) : Cookie := {|
  Name := Name cookie;
  Value := Value cookie;
  Path := Path cookie;
  Domain := Domain cookie;
  Expires := Expires cookie;
  RawExpires := RawExpires cookie;
  MaxAge := MaxAge cookie;
  Secure := Secure cookie;
  HttpOnly := HttpOnly cookie;
  SameSite := SameSite cookie;
  Raw := Raw cookie;
  Unparsed := Unparsed cookie |}.

Definition set_Name (v : string) (ck : Cookie) : Cookie := {|
  Name := v; Value := Value ck; Path := Path ck; Domain := Domain ck;
  Expires := Expires ck; RawExpires := RawExpires ck; MaxAge := MaxAge ck;
  Secure := Secure ck; HttpOnly := HttpOnly ck; SameSite := SameSite ck;
  Raw := Raw ck; Unparsed := Unparsed ck |}.

Definition set_Value (v : string) (ck : Cookie) : Cookie := {|
  Name := Name ck; Value := v; Path := Path ck; Domain := Domain ck;
  Expires := Expires ck; RawExpires := RawExpires ck; MaxAge := MaxAge ck;
  Secure := Secure ck; HttpOnly := HttpOnly ck; SameSite := SameSite ck;
  Raw := Raw ck; Unparsed := Unparsed ck |}.

(** [addSigCookie]. *)
Definition addSigCookie (cookie : Cookie) (c : Context) : option (error * Context) :=
  let sc := cloneCookie cookie in
  let sc := set_Name (Name sc +:+ SignedCookieSuffix) sc in
  match getKeys c with
  | None => None
  | Some keys =>
      if (length keys =? 0)%nat then Some (None, c)
      else
        let sc := set_Value (keygrip_Sign keys (Value sc)) sc in
        AddCookie sc c
  end.

(** [AddSignedCookie]. *)
Definition AddSignedCookie (cookie : Cookie) (c : Context) : option (error * Context) :=
  match AddCookie cookie c with
  | None => None
  | Some (Some err, c') => Some (Some err, c')
  | Some (None, c') => addSigCookie cookie c'
  end.

(** No signing keys are configured: the Context has no server, the
    server has no generator, or the generator returns no key. *)
Definition noKeys (c : Context) : Prop :=
  elton c = None
  \/ (exists e, elton c = Some e /\ SignedKeys e = None)
  \/ (exists e g g', elton c = Some e /\ SignedKeys e = Some g
                     /\ Generator_GetKeys g = Some ([], g')).

(** The client address as the specification words it: the entries of
    the forwarding header are scanned in the order of the header, and
    the first one outside the private ranges is returned; then the
    secondary header if public; then the peer address. *)
Definition GetClientIP_spec (req : http_Request) : string :=
  let h := Header req in
  let ip := Header_Get h HeaderXForwardedFor in
  match (if nonEmpty ip then firstPublic (Split ip ","%char) else None) with
  | Some v => v
  | None =>
      let ip := Header_Get h HeaderXRealIP in
      if nonEmpty ip && negb (intranetip_Is (net_ParseIP ip)) then ip
      else GetRemoteAddr req
  end.

End WithLib.

End Ctx.

(** ** elton.go: trace records and their Server-Timing rendering *)

Module Trace.
Import GoStrings.

(** [TraceInfo]: [Duration] is a [time.Duration], a count of
    nanoseconds. *)
Record TraceInfo := { Name : string; Duration : Z }.

Definition set_Duration (d : Z) (t : TraceInfo) : TraceInfo :=
  {| Name := Name t; Duration := d |}.

(** [time.Microsecond] and [time.Millisecond], in nanoseconds. *)
Definition microSecond : Z := 1000.
Definition milliSecond : Z := 1000000.

(** The double-quote character. *)
Definition dquote : string := String (ascii_of_nat 34) EmptyString.

(** Modelled from the spec: the byte constants [ServerTimingDur],
    [ServerTimingDesc] and [ServerTimingEnd] are declared in a file that
    is not among the sources at hand; the token format of the spec,
    prefix, index, then ;dur= and the milliseconds, then ;desc= and the
    name in double quotes, fixes them. *)
Definition ServerTimingDur : string := ";dur=".
Definition ServerTimingDesc : string := ";desc=" +:+ dquote.
Definition ServerTimingEnd : string := dquote.

(** [getMs].  Go's [/] and [%] truncate towards zero ([Z.quot],
    [Z.rem]). *)
Definition getMs (ns : Z) : string :=
  if ns <? microSecond then "0"
  else
    let ms := Z.quot ns milliSecond in
    let prefix := Itoa ms in
    let offset := Z.quot (Z.rem ns milliSecond) microSecond in
    let unit := 10 in
    if offset <? unit then prefix
    else if offset <? 100 then prefix +:+ ".0" +:+ Itoa (Z.quot offset unit)
    else prefix +:+ "." +:+ Itoa (Z.quot offset unit).

(** The loop of [ServerTiming]: [i] is the index of the first record of
    [traceInfos], [s] the builder. *)
Fixpoint ServerTiming_loop (prefix : string) (size i : Z)
    (traceInfos : list TraceInfo) (s : Builder) : Builder :=
  match traceInfos with
  | [] => s
  | traceInfo :: rest =>
      let v := Duration traceInfo in
      let s := WriteString s prefix in
      let s := WriteString s (Itoa i) in
      let s := WriteString s ServerTimingDur in
      let s := WriteString s (getMs v) in
      let s := WriteString s ServerTimingDesc in
      let s := WriteString s (Name traceInfo) in
      let s := WriteString s ServerTimingEnd in
      let s := if negb (i =? size - 1) then WriteString s "," else s in
      ServerTiming_loop prefix size (i + 1) rest s
  end.

(** [TraceInfos.ServerTiming]. *)
Definition ServerTiming (traceInfos : list TraceInfo) (prefix : string) : string :=
  let size := Z.of_nat (length traceInfos) in
  if size =? 0 then EmptyString
  else ServerTiming_loop prefix size 0 traceInfos EmptyString.

(** The rendering as the specification words it.  A duration below one
    microsecond is "0".  Otherwise the duration is cut (not rounded)
    to hundredths of a millisecond; the whole milliseconds are printed,
    followed, unless the part of the duration below the millisecond is
    under 10 microseconds, by a point and the two digits of the
    hundredths. *)
Definition twoDigits (k : Z) : string :=
  String (digit (k / 10)) (String (digit (k mod 10)) EmptyString).

Definition ms_spec (ns : Z) : string :=
  if ns <? 1000 then "0"
  else
    let hundredths := ns / 10000 in
    if ns mod 1000000 <? 10000 then Itoa (hundredths / 100)
    else Itoa (hundredths / 100) +:+ "." +:+ twoDigits (hundredths mod 100).

(** One token, and the comma-joined tokens in sequence order. *)
Definition token_spec (prefix : string) (i : nat) (t : TraceInfo) : string :=
  prefix +:+ Itoa (Z.of_nat i) +:+ ";dur=" +:+ ms_spec (Duration t)
         +:+ ";desc=" +:+ dquote +:+ Name t +:+ dquote.

Fixpoint join (sep : string) (l : list string) : string :=
  match l with
  | [] => EmptyString
  | [x] => x
  | x :: rest => x +:+ sep +:+ join sep rest
  end.

Definition ServerTiming_spec (traceInfos : list TraceInfo) (prefix : string) : string :=
  join "," (imap (token_spec prefix) traceInfos).

(** The subtraction pass of the route closure:
    [for i, traceInfo := range traceInfos]
    [if i < max-1 then traceInfo.Duration -= traceInfos[i+1].Duration].
    The records are updated in place from the first on, so the record
    at [i+1] still holds its raw duration when it is read. *)
Fixpoint subtractPass (traceInfos : list TraceInfo) : list TraceInfo :=
  match traceInfos with
  | [] => []
  | traceInfo :: rest =>
      match rest with
      | [] => [traceInfo]
      | next :: _ =>
          set_Duration (Duration traceInfo - Duration next) traceInfo :: subtractPass rest
      end
  end.

Definition durations (traceInfos : list TraceInfo) : list Z := map Duration traceInfos.

Definition sumZ (l : list Z) : Z := fold_right Z.add 0 l.

End Trace.

(** ** elton.go: the route closure of [Elton.Handle] *)

Module Dispatch.
Import GoStrings Ctx.

(** *** Handlers

    A [Handler] is a Go function [func(c *Context) error].  What such a
    function can do to the chain is: read and assign the fields of [c],
    let time pass, call [c.Next()] and look at the error it returns,
    and return.  [Prog] is the tree of these actions.  Handlers that
    store another function in [c.Next] ([Compose]), keep [c] after
    returning, or panic are outside this model. *)
Inductive Prog :=
| Return (err : error)
| Update (f : Context -> Context) (k : Prog)
| Read (k : Context -> Prog)
| Work (ns : N) (k : Prog)
| CallNext (k : error -> Prog).

(** A chain entry: the handler and the display name that
    [GetFunctionName] resolves for it. *)
Record Handler := { fnName : string; fnBody : Prog }.

(** The fields of [Elton] that hold functions.  A listener or error
    handler receives the [*Context] and may assign its fields.
    [GenerateID] is given by the string it returns for this request. *)
Record Funcs := {
  Middlewares : list Handler;
  ErrorHandler : option (Context -> Error -> Context);
  errorListeners : list (Context -> Error -> Context);
  traceListeners : list (Context -> list Trace.TraceInfo -> Context);
  GenerateID : option string
}.

(** What the response writer and the errors answer when asked: the
    error [resp.Write] returns for given bytes, the error [io.Copy]
    returns for a given source, and the text of [err.Error()]. *)
Record Env := {
  respWrite : string -> error;
  ioCopy : string -> error;
  errorText : Error -> string
}.

(** The finalizer's four ways to answer. *)
Inductive Branch := ErrorBranch | BufferBranch | ReaderBranch | StatusBranch.

(** What the closure does that is visible from outside, in order:
    calls of handlers, validators, listeners and the error mapper, and
    calls on the response writer.  [EvBranch] marks the finalizer
    branch that runs; it is bookkeeping of the model. *)
Inductive Event :=
| EvHandler (index : Z) (name : string)
| EvValidate (key value : string)
| EvEmitTrace (infos : list Trace.TraceInfo)
| EvEmitError (err : Error)
| EvErrorHandler (err : Error)
| EvWriteHeader (code : Z)
| EvWrite (data : string)
| EvPipe (data : string) (closed : bool)
| EvBranch (b : Branch)
| EvPoolPut.

(** The state of one run of the closure: the Context, the closure's
    variables [index] and [traceInfos], the clock that [time.Now] and
    [time.Since] read (nanoseconds), the events so far, and the values
    [c.Committed] has taken so far, oldest first (bookkeeping). *)
Record Run := {
  ctx : Context;
  index : Z;
  traceInfos : option (list Trace.TraceInfo);
  clock : Z;
  log : list Event;
  flags : list bool
}.

Definition set_ctx (c : Context) (r : Run) : Run :=
  {| ctx := c; index := index r; traceInfos := traceInfos r; clock := clock r;
     log := log r; flags := flags r ++ [Committed c] |}.

Definition set_index (i : Z) (r : Run) : Run :=
  {| ctx := ctx r; index := i; traceInfos := traceInfos r; clock := clock r;
     log := log r; flags := flags r |}.

Definition set_traceInfos (t : option (list Trace.TraceInfo)) (r : Run) : Run :=
  {| ctx := ctx r; index := index r; traceInfos := t; clock := clock r;
     log := log r; flags := flags r |}.

Definition tick (ns : N) (r : Run) : Run :=
  {| ctx := ctx r; index := index r; traceInfos := traceInfos r;
     clock := clock r + Z.of_N ns; log := log r; flags := flags r |}.

Definition emit (e : Event) (r : Run) : Run :=
  {| ctx := ctx r; index := index r; traceInfos := traceInfos r; clock := clock r;
     log := log r ++ [e]; flags := flags r |}.

(** How a call ends: it returns, it panics, or the model's bound on
    the nesting of calls is used up (lemma [Next_fuel]: it never is). *)
Inductive Outcome (A : Type) :=
| Done (a : A)
| Panic
| OutOfFuel.
Arguments Done {A} a.
Arguments Panic {A}.
Arguments OutOfFuel {A}.

(** Running a handler body, given what [c.Next()] does. *)
Fixpoint exec (next : Run -> Outcome (error * Run)) (p : Prog) (r : Run)
  : Outcome (error * Run) :=
  match p with
  | Return err => Done (err, r)
  | Update f k => exec next k (set_ctx (f (ctx r)) r)
  | Read k => exec next (k (ctx r)) r
  | Work ns k => exec next k (tick ns r)
  | CallNext k =>
      match next r with
      | Done (err, r') => exec next (k err) r'
      | Panic => Panic
      | OutOfFuel => OutOfFuel
      end
  end.

(** Indexing a slice: out of range is a panic. *)
Definition at_index {A} (l : list A) (i : Z) : option A :=
  if i <? 0 then None else l !! Z.to_nat i.

Definition len {A} (l : list A) : Z := Z.of_nat (length l).

(** The validator loop:
    [for key, value := range c.Params { if d.validators[key] != nil ... }]. *)
Fixpoint runValidators (vs : gmap string Validator) (params : list (string * string))
    (r : Run) : error * Run :=
  match params with
  | [] => (None, r)
  | (key, value) :: rest =>
      match vs !! key with
      | Some validate =>
          let r := emit (EvValidate key value) r in
          match validate value with
          | Some e => (Some e, r)
          | None => runValidators vs rest r
          end
      | None => runValidators vs rest r
      end
  end.

(** [traceInfo.Duration = ...] for the record appended at [pos]. *)
Definition setDurationAt (pos : nat) (d : Z) (infos : list Trace.TraceInfo)
  : list Trace.TraceInfo :=
  match infos !! pos with
  | Some t => <[pos := Trace.set_Duration d t]> infos
  | None => infos
  end.

Section Closure.
Variables (d : Elton) (fs : Funcs) (env : Env) (handlerList : list Handler).

Definition mids : list Handler := Middlewares fs.
Definition maxMid : Z := len mids.
Definition maxNext : Z := maxMid + len handlerList.

(** The pieces of the closure stored in [c.Next], in the order of the
    source.  First the validators, run when the cursor is at the last
    handler and validators are registered. *)
Definition validateLast (r : Run) : error * Run :=
  match validators d with
  | Some vs =>
      if index r =? maxNext - 1
      then runValidators vs (default [] (Params (ctx r))) r
      else (None, r)
  | None => (None, r)
  end.

(** [fn = handlerList[index-maxMid]] or [fn = mids[index]]. *)
Definition handlerAt (i : Z) : option Handler :=
  if maxMid <=? i then at_index handlerList (i - maxMid)
  else at_index mids i.

(** The call [fn(c)], with the trace record around it when tracing is
    on and the name is not the skip sentinel.  [next] is what a call
    of [c.Next()] made by the handler does. *)
Definition invoke (next : Run -> Outcome (error * Run)) (fn : Handler) (r : Run)
  : Outcome (error * Run) :=
  match traceInfos r with
  | None => exec next (fnBody fn) r
  | Some infos =>
    if String.eqb (fnName fn) "-" then exec next (fnBody fn) r
    else
      let startedAt := clock r in
      let traceInfo := {| Trace.Name := fnName fn; Trace.Duration := 0 |} in
      let pos := length infos in
      let r := set_traceInfos (Some (infos ++ [traceInfo])) r in
      match exec next (fnBody fn) r with
      | Done (err, r') =>
          let r' := set_traceInfos
                      (setDurationAt pos (clock r' - startedAt) <$> traceInfos r') r' in
          Done (err, r')
      | Panic => Panic
      | OutOfFuel => OutOfFuel
      end
  end.

(** The body of the closure.  The cursor [index] only ever grows by
    one per call, so a Go [int] would wrap only after 2^63 calls of
    [c.Next()] within one request: it is kept as an unbounded [Z]. *)
Definition NextBody (next : Run -> Outcome (error * Run)) (r : Run)
  : Outcome (error * Run) :=
  if Committed (ctx r) then Done (None, r)
  else
    let r := set_index (index r + 1) r in
    if maxNext <=? index r then Done (None, r)
    else
      let '(verr, r) := validateLast r in
      match verr with
      | Some e => Done (Some e, r)
      | None =>
        match handlerAt (index r) with
        | None => Panic
        | Some fn => invoke next fn (emit (EvHandler (index r) (fnName fn)) r)
        end
      end.

(** The closure, tied to itself.  [fuel] bounds how deeply calls of
    handlers nest. *)
Fixpoint Next (fuel : nat) (r : Run) : Outcome (error * Run) :=
  match fuel with
  | O => OutOfFuel
  | S fuel' => NextBody (Next fuel') r
  end.

(** [EmitError] and [EmitTrace]: every listener, in registration order. *)
Definition EmitError (err : Error) (r : Run) : Run :=
  fold_left (fun r ln => set_ctx (ln (ctx r) err) (emit (EvEmitError err) r))
            (errorListeners fs) r.

Definition EmitTrace (infos : list Trace.TraceInfo) (r : Run) : Run :=
  fold_left (fun r ln => set_ctx (ln (ctx r) infos) (emit (EvEmitTrace infos) r))
            (traceListeners fs) r.

(** Modelled from the spec: the header-name constants used by [Error]
    and the finalizer are declared in a file that is not among the
    sources at hand; they name the entity tag, last-modified,
    content-encoding and content-length headers.
    [StatusInternalServerError] is net/http's 500. *)
Definition HeaderETag : string := "ETag".
Definition HeaderLastModified : string := "Last-Modified".
Definition HeaderContentEncoding : string := "Content-Encoding".
Definition HeaderContentLength : string := "Content-Length".

Definition StatusInternalServerError : Z := 500.

(** [c.SetHeader(key, "")]: the key is deleted (a nil map is left alone). *)
Definition clearHeader (key : string) (c : Context) : Context :=
  set_Headers (Header_Del key <$> Headers c) c.

(** [d.Error(c, err)]. *)
Definition Error_ (err : Error) (r : Run) : Outcome Run :=
  let c := fold_left (fun c key => clearHeader key c)
             [HeaderETag; HeaderLastModified; HeaderContentEncoding; HeaderContentLength]
             (ctx r) in
  let r := set_ctx c r in
  match ErrorHandler fs with
  | Some handle => Done (set_ctx (handle (ctx r) err) (emit (EvErrorHandler err) r))
  | None =>
      match Response (ctx r) with
      | None => Panic
      | Some _ =>
          match err with
          | HesError code _ =>
              Done (emit (EvWrite (errorText env err)) (emit (EvWriteHeader code) r))
          | StdError _ =>
              Done (emit (EvWrite (errorText env err))
                      (emit (EvWriteHeader StatusInternalServerError) r))
          end
      end
  end.

(** [c.IsReaderBody()]. *)
Definition IsReaderBody (c : Context) : bool :=
  match Body c with
  | Some (ReaderBody _ _) => true
  | _ => false
  end.

(** [c.Pipe(r)]: commit, copy the reader to [c.Response], close it if
    it is a closer. *)
Definition Pipe (content : string) (closer : bool) (r : Run) : Outcome (error * Run) :=
  let r := set_ctx (set_Committed true (ctx r)) r in
  match Response (ctx r) with
  | None => Panic
  | Some _ => Done (ioCopy env content, emit (EvPipe content closer) r)
  end.

(** The end of the closure, piece by piece.  [if err != nil {
    d.EmitError(c, err) }]: *)
Definition emitErrors (err : error) (r : Run) : Run :=
  match err with
  | Some e => EmitError e r
  | None => r
  end.

(** The finalizer's steps when there is no error:
    [if c.BodyBuffer != nil { c.SetHeader(HeaderContentLength, ...) }], *)
Definition setContentLength (r : Run) : Outcome Run :=
  match BodyBuffer (ctx r) with
  | Some buf =>
      match SetHeader HeaderContentLength (Itoa (Z.of_nat (String.length buf))) (ctx r) with
      | Some c => Done (set_ctx c r)
      | None => Panic
      end
  | None => Done r
  end.

(** [if c.StatusCode != 0 { resp.WriteHeader(c.StatusCode) }], *)
Definition writeStatus (r : Run) : Run :=
  if negb (StatusCode (ctx r) =? 0)
  then emit (EvWriteHeader (StatusCode (ctx r))) r else r.

(** and the body: the buffer, else the reader, else nothing. *)
Definition writeBody (r : Run) : Outcome Run :=
  match BodyBuffer (ctx r) with
  | Some buf =>
      let r := emit (EvWrite buf) (emit (EvBranch BufferBranch) r) in
      match respWrite env buf with
      | Some responseErr => Done (EmitError responseErr r)
      | None => Done r
      end
  | None =>
      match Body (ctx r) with
      | Some (ReaderBody content closer) =>
          match Pipe content closer (emit (EvBranch ReaderBranch) r) with
          | Done (Some pipeErr, r) => Done (EmitError pipeErr r)
          | Done (None, r) => Done r
          | Panic => Panic
          | OutOfFuel => OutOfFuel
          end
      | _ => Done (emit (EvBranch StatusBranch) r)
      end
  end.

(** The finalizer, [if !c.Committed { ... }]: *)
Definition respond (err : error) (r : Run) : Outcome Run :=
  if negb (Committed (ctx r)) then
    match err with
    | Some e => Error_ e (emit (EvBranch ErrorBranch) r)
    | None =>
        match setContentLength r with
        | Done r => writeBody (writeStatus r)
        | Panic => Panic
        | OutOfFuel => OutOfFuel
        end
    end
  else Done r.

(** [c.Committed = true], and the Context goes back to the pool if it
    may be reused. *)
Definition release (r : Run) : Run :=
  let r := set_ctx (set_Committed true (ctx r)) r in
  if isReuse (ctx r) then emit EvPoolPut r else r.

Definition finalize (err : error) (r : Run) : Outcome Run :=
  match respond err (emitErrors err r) with
  | Done r => Done (release r)
  | Panic => Panic
  | OutOfFuel => OutOfFuel
  end.

(** The subtraction pass and [d.EmitTrace], when tracing is on. *)
Definition emitTraces (r : Run) : Run :=
  match traceInfos r with
  | Some infos =>
      let infos := Trace.subtractPass infos in
      EmitTrace infos (set_traceInfos (Some infos) r)
  | None => r
  end.

(** The closure registered by [Handle], for one request: [pooled] is
    the Context the pool hands out, [params] the bound route
    parameters (in the order a [range] over the map built from them
    yields them), [now] the clock at entry.  Time passes only while
    handlers work ([Work]); what matters to the trace records is that
    the clock never goes back. *)
Definition initial (path : string) (resp : ResponseWriter) (req : http_Request)
    (params : list (string * string)) (pooled : Context) (now : Z) : Run :=
  let c := Reset pooled in
  (* fillContext *)
  let c := set_Request (Some req) c in
  let c := set_Response (Some resp) c in
  let c := set_Headers (Some (rwHeader resp)) c in
  let c := if negb (len params =? 0) then set_Params (Some params) c else c in
  let c := match GenerateID fs with Some id => set_ID id c | None => c end in
  let c := set_Route path c in
  let c := set_elton (Some d) c in
  let c := set_Next (Some RouteNext) c in
  {| ctx := c; index := -1;
     traceInfos := if EnableTrace d then Some [] else None;
     clock := now; log := []; flags := [Committed c] |}.

Definition afterChain (err : error) (r : Run) : Outcome Run :=
  finalize err (emitTraces r).

Definition dispatch (path : string) (resp : ResponseWriter) (req : http_Request)
    (params : list (string * string)) (pooled : Context) (now : Z) : Outcome Run :=
  let r := initial path resp req params pooled now in
  match Next (S (Z.to_nat maxNext)) r with
  | Done (err, r) => afterChain err r
  | Panic => Panic
  | OutOfFuel => OutOfFuel
  end.

End Closure.

(** What the events say. *)
Definition handlerIndices (l : list Event) : list Z :=
  omap (fun e => match e with EvHandler i _ => Some i | _ => None end) l.

Definition branches (l : list Event) : list Branch :=
  omap (fun e => match e with EvBranch b => Some b | _ => None end) l.

Definition validated (l : list Event) : list (string * string) :=
  omap (fun e => match e with EvValidate k v => Some (k, v) | _ => None end) l.

(** How often a history of the flag goes from false to true. *)
Fixpoint risings (prev : bool) (history : list bool) : nat :=
  match history with
  | [] => O
  | b :: rest => ((if negb prev && b then 1 else 0) + risings b rest)%nat
  end.

(** An event of the chain itself: a handler or a validator is called. *)
Definition chainEvent (e : Event) : Prop :=
  match e with
  | EvHandler _ _ | EvValidate _ _ => True
  | _ => False
  end.

(** The finalizer branch that answers for a chain error [err] and a
    Context [c]. *)
Definition branchOf (err : error) (c : Context) : Branch :=
  match err with
  | Some _ => ErrorBranch
  | None =>
      match BodyBuffer c with
      | Some _ => BufferBranch
      | None => if IsReaderBody c then ReaderBranch else StatusBranch
      end
  end.

(** A function over the Context that never clears the flag. *)
Definition sticky (f : Context -> Context) : Prop :=
  forall c, Committed c = true -> Committed (f c) = true.

(** A handler body none of whose assignments clears the flag. *)
Inductive keepsFlag : Prog -> Prop :=
| kf_Return err : keepsFlag (Return err)
| kf_Update f k : sticky f -> keepsFlag k -> keepsFlag (Update f k)
| kf_Read k : (forall c, keepsFlag (k c)) -> keepsFlag (Read k)
| kf_Work ns k : keepsFlag k -> keepsFlag (Work ns k)
| kf_CallNext k : (forall err, keepsFlag (k err)) -> keepsFlag (CallNext k).

(** A handler body that never calls [c.Next()], and one that calls it
    at most once. *)
Inductive noNext : Prog -> Prop :=
| nn_Return err : noNext (Return err)
| nn_Update f k : noNext k -> noNext (Update f k)
| nn_Read k : (forall c, noNext (k c)) -> noNext (Read k)
| nn_Work ns k : noNext k -> noNext (Work ns k).

Inductive nextOnce : Prog -> Prop :=
| no_Return err : nextOnce (Return err)
| no_Update f k : nextOnce k -> nextOnce (Update f k)
| no_Read k : (forall c, nextOnce (k c)) -> nextOnce (Read k)
| no_Work ns k : nextOnce k -> nextOnce (Work ns k)
| no_CallNext k : (forall err, noNext (k err)) -> nextOnce (CallNext k).


(** [advances limit r r']: from [r] to [r'] the cursor and the clock
    did not go back, and the events added are calls of validators and
    of handlers whose indices lie beyond the cursor of [r], below
    [limit], in increasing order. *)
Definition advances (limit : Z) (r r' : Run) : Prop :=
  index r <= index r' /\ clock r <= clock r'
  /\ exists l, log r' = log r ++ l
       /\ Forall chainEvent l
       /\ StronglySorted Z.lt (handlerIndices l)
       /\ Forall (fun i => index r < i <= index r' /\ i < limit) (handlerIndices l).

(** [onlyLog r r' l]: [r'] is [r] with the events [l] added. *)
Definition onlyLog (r r' : Run) (l : list Event) : Prop :=
  ctx r' = ctx r /\ index r' = index r /\ traceInfos r' = traceInfos r
  /\ clock r' = clock r /\ flags r' = flags r /\ log r' = log r ++ l.

(** The bound parameters for which a validator is registered, and the
    events of validating them all. *)
Definition matching (vs : gmap string Validator) (params : list (string * string))
  : list (string * string) :=
  List.filter (fun kv => bool_decide (is_Some (vs !! fst kv))) params.

Definition validateEvents (kvs : list (string * string)) : list Event :=
  map (fun kv => EvValidate (fst kv) (snd kv)) kvs.

(** A server none of whose handlers, listeners and error handler
    clears the flag. *)
Definition stickyFuncs (fs : Funcs) (handlerList : list Handler) : Prop :=
  Forall (fun fn => keepsFlag (fnBody fn)) (Middlewares fs ++ handlerList)
  /\ (forall handle, ErrorHandler fs = Some handle ->
                     forall err, sticky (fun c => handle c err))
  /\ Forall (fun ln => forall err, sticky (fun c => ln c err)) (errorListeners fs)
  /\ Forall (fun ln => forall infos, sticky (fun c => ln c infos)) (traceListeners fs).

(** The flag's history is consistent with the Context, and the flag
    has gone up once if it is set, never if it is not. *)
Definition flagOnce (r : Run) : Prop :=
  last (flags r) = Some (Committed (ctx r))
  /\ risings false (flags r) = if Committed (ctx r) then 1%nat else 0%nat.

(** Durations that are non-negative, each at most the one before, the
    first at most [bound]: those of nested records. *)
Fixpoint descending (bound : Z) (ds : list Z) : Prop :=
  match ds with
  | [] => True
  | x :: rest => 0 <= x <= bound /\ descending x rest
  end.

(** [nests r r']: from [r] to [r'] the clock did not go back and, when
    tracing is on, the records added are nested ones that fit in the
    time elapsed. *)
Definition nests (r r' : Run) : Prop :=
  clock r <= clock r'
  /\ forall infos, traceInfos r = Some infos ->
       exists new, traceInfos r' = Some (infos ++ new)
                   /\ descending (clock r' - clock r) (Trace.durations new).

End Dispatch.

(** ** Concrete inputs for the examples *)

Module Examples.
Import GoStrings GoNet SignedKeys Ctx.

(** An instance of [Lib]: the redirect codes 300 to 308, addresses
    parsed and classified by [ParseIPv4] and [IsPrivateIP], cookies
    rendered as name=value, and a toy signature (the key, a colon, the
    data) in place of keygrip's keyed digest. *)
Definition toySign (keys : list string) (data : string) : string :=
  hd EmptyString keys +:+ ":" +:+ data.

Fixpoint toyIndex (i : Z) (keys : list string) (data digest : string) : Z :=
  match keys with
  | [] => -1
  | k :: rest =>
      if String.eqb (k +:+ ":" +:+ data) digest then i
      else toyIndex (i + 1) rest data digest
  end.

Definition exampleLib : Lib := {|
  MinRedirectCode := 300;
  MaxRedirectCode := 308;
  ErrInvalidRedirect := HesError 400 "invalid redirect";
  http_Redirect := fun _ h _ url _ => Header_Set "Location" url <$> h;
  http_ErrNoCookie := StdError "http: named cookie not present";
  hes_New := HesError 400;
  Cookie_String := fun ck => Name ck +:+ "=" +:+ Value ck;
  keygrip_Sign := toySign;
  keygrip_Index := toyIndex 0;
  net_ParseIP := ParseIPv4;
  net_SplitHost := SplitHost;
  intranetip_Is := IsPrivateIP
|}.

(** A request from peer 192.0.2.1 with the given X-Forwarded-For
    header and no X-Real-Ip header. *)
Definition forwarded (xff : string) : http_Request := {|
  Header := {[ HeaderXForwardedFor := [xff] ]};
  RemoteAddr := "192.0.2.1:1234";
  Cookies := []
|}.

Definition cookie_ab : Cookie := {|
  Name := "a"; Value := "b"; Path := "/"; Domain := EmptyString; Expires := 0;
  RawExpires := EmptyString; MaxAge := 300; Secure := true; HttpOnly := true;
  SameSite := 0; Raw := EmptyString; Unparsed := []
|}.

Definition request_with (cookies : list Cookie) : http_Request := {|
  Header := ∅; RemoteAddr := "192.0.2.1:1234"; Cookies := cookies
|}.

Definition recorder : ResponseWriter := {| rwId := 0; rwHeader := ∅ |}.

Import Dispatch.

(** A server without tracing and validators, with one global handler
    A that passes on to the rest of the chain; a route handler B that
    calls [c.Next()] three times although nothing follows it. *)
Definition plainElton : Elton :=
  {| status := 0; EnableTrace := false; SignedKeys := None; validators := None |}.

Definition passOn (name : string) : Handler :=
  {| fnName := name; fnBody := CallNext (fun err => Return err) |}.

Definition eager (name : string) : Handler :=
  {| fnName := name;
     fnBody := CallNext (fun _ => CallNext (fun _ => CallNext (fun err => Return err))) |}.

Definition globalA : Funcs :=
  {| Middlewares := [passOn "A"]; ErrorHandler := None; errorListeners := [];
     traceListeners := []; GenerateID := None |}.

Definition noGlobals : Funcs :=
  {| Middlewares := []; ErrorHandler := None; errorListeners := [];
     traceListeners := []; GenerateID := None |}.

Definition freshRun (d : Elton) (fs : Funcs) (params : list (string * string)) : Run :=
  initial d fs "/" recorder (request_with []) params zeroContext 0.

(** The route /users/:id with a validator that accepts digits only. *)
Definition errDigits : Error := StdError "id should be numbers".

Definition digitsOnly : Validator :=
  fun value =>
    if forallb isDigit (list_ascii_of_string value) && nonEmpty value
    then None else Some errDigits.

Definition validatingElton : Elton :=
  {| status := 0; EnableTrace := false; SignedKeys := None;
     validators := Some {[ "id" := digitsOnly ]} |}.

Definition showUser : Handler :=
  {| fnName := "showUser";
     fnBody := Update (set_Body (Some (PlainBody "user"))) (Return None) |}.

(** A writer that accepts everything. *)
Definition quietEnv : Env :=
  {| respWrite := fun _ => None; ioCopy := fun _ => None;
     errorText := fun e => match e with HesError _ msg | StdError msg => msg end |}.

(** A handler that commits the response itself, as [Redirect] or a
    custom response does; one that sets the flag, then clears it. *)
Definition committing : Handler :=
  {| fnName := "committing"; fnBody := Update (set_Committed true) (Return None) |}.

Definition toggling : Handler :=
  {| fnName := "toggling";
     fnBody := Update (set_Committed true) (Update (set_Committed false) (Return None)) |}.

(** Traced handlers: one that calls [c.Next()] twice, and one that
    works for a given time. *)
Definition tracedElton : Elton :=
  {| status := 0; EnableTrace := true; SignedKeys := None; validators := None |}.

Definition twice (name : string) : Handler :=
  {| fnName := name; fnBody := CallNext (fun _ => CallNext (fun err => Return err)) |}.

Definition worker (name : string) (ns : N) : Handler :=
  {| fnName := name; fnBody := Work ns (Return None) |}.

Definition workThenNext (name : string) (ns : N) : Handler :=
  {| fnName := name; fnBody := Work ns (CallNext (fun err => Return err)) |}.

Definition serve (d : Elton) (fs : Funcs) (handlerList : list Handler)
    (params : list (string * string)) : Outcome Run :=
  dispatch d fs quietEnv handlerList "/" recorder (request_with []) params zeroContext 0.

End Examples.

(** ** elton.go: which addresses [IsPrivateIP] accepts *)

Module PrivateRanges.

(** The IPv4 addresses of the loopback block and of the three RFC 1918
    blocks, by their first two bytes. *)
Definition privateV4 (a b : Z) : bool :=
  (a =? 127) || (a =? 10) || ((a =? 172) && (16 <=? b) && (b <=? 31))
  || ((a =? 192) && (b =? 168)).

(** The IPv6 addresses of the loopback address ::1, of the link-local
    block fe80::/10 and of the unique-local block fc00::/7. *)
Definition privateV6 (ip : GoNet.IP) : bool :=
  bool_decide (ip = repeat 0 15 ++ [1])
  || ((nth 0 ip 0 =? 254) && (128 <=? nth 1 ip 0) && (nth 1 ip 0 <=? 191))
  || ((252 <=? nth 0 ip 0) && (nth 0 ip 0 <=? 253)).

End PrivateRanges.

(** ** context.go: the other methods of [Context] *)

Module CtxMethods.
Import GoStrings GoNet SignedKeys Ctx.

(** Status codes of net/http. *)
Definition StatusNoContent : Z := 204.
Definition StatusNotModified : Z := 304.

(** Header names that context.go takes from a file of the repository
    that is not among the sources at hand. *)
Class Names := {
  HeaderContentType : string;
  HeaderTransferEncoding : string;
  HeaderServerTiming : string
}.

(** [req.Header = h] for the request a Context points to. *)
Definition set_Header (h : http_Header) (req : http_Request) : http_Request :=
  {| Header := h; RemoteAddr := RemoteAddr req; Cookies := Cookies req |}.

(** [GetRequestHeader], [SetRequestHeader], [AddRequestHeader].  A nil
    [c.Request] is dereferenced: no result.  The header map of a
    request that net/http hands over is never nil. *)
Definition GetRequestHeader (key : string) (c : Context) : option string :=
  match Request c with
  | Some req => Some (Header_Get (Header req) key)
  | None => None
  end.

Definition SetRequestHeader (key value : string) (c : Context) : option Context :=
  match Request c with
  | Some req =>
      let h := Header req in
      if String.eqb value EmptyString
      then Some (set_Request (Some (set_Header (Header_Del key h) req)) c)
      else Some (set_Request (Some (set_Header (Header_Set key value h) req)) c)
  | None => None
  end.

Definition AddRequestHeader (key value : string) (c : Context) : option Context :=
  match Request c with
  | Some req => Some (set_Request (Some (set_Header (Header_Add key value (Header req)) req)) c)
  | None => None
  end.

(** [c.Header()], [WriteHeader], [Write], [GetHeader]. *)
Definition Header_ (c : Context) : option http_Header := Headers c.

Definition WriteHeader (statusCode : Z) (c : Context) : Context :=
  set_StatusCode statusCode c.

(** [bytes.Buffer.Write] appends and returns the number of bytes. *)
Definition Write (buf : string) (c : Context) : Z * error * Context :=
  let c := match BodyBuffer c with
           | None => set_BodyBuffer (Some EmptyString) c
           | Some _ => c
           end in
  (Z.of_nat (String.length buf), None,
   set_BodyBuffer (Some (default EmptyString (BodyBuffer c) +:+ buf)) c).

(** Successive calls of [Write], and the bytes they wrote. *)
Definition writes (bufs : list string) (c : Context) : Context :=
  fold_left (fun c buf => (Write buf c).2) bufs c.

Definition joined (bufs : list string) : string := fold_right String.append EmptyString bufs.

(** Reading a nil map gives the zero value. *)
Definition GetHeader (key : string) (c : Context) : string :=
  match Headers c with
  | Some h => Header_Get h key
  | None => EmptyString
  end.

(** [ResetHeader]: [for k := range h { h.Del(k) }].  [order] lists the
    keys of the map in the order the runtime picks for the [range]; a
    key that was removed before the loop reaches it is not produced. *)
Definition ResetHeader_loop (order : list string) (h : http_Header) : http_Header :=
  fold_left (fun h k => if decide (is_Some (h !! k)) then Header_Del k h else h) order h.

Definition ResetHeader_in (order : list string) (c : Context) : Context :=
  match Header_ c with
  | Some h => set_Headers (Some (ResetHeader_loop order h)) c
  | None => c
  end.

Definition ResetHeader (c : Context) : Context :=
  ResetHeader_in (map fst (map_to_list (default ∅ (Headers c)))) c.

(** A key that [CanonicalMIMEHeaderKey] leaves as it is. *)
Definition canonical (k : string) : Prop := CanonicalMIMEHeaderKey k = k.

(** The store [c.m].  Keys and values are of type [interface{}] in the
    source; the model's field holds strings, and the methods are given
    for string keys and string values. *)
Definition Set_ (key value : string) (c : Context) : Context :=
  let c := match m c with
           | None => set_m (Some ∅) c
           | Some _ => c
           end in
  set_m (insert key value <$> m c) c.

(** [Get]: the value and whether it exists. *)
Definition Get (key : string) (c : Context) : option string * bool :=
  match m c with
  | None => (None, false)
  | Some store => (store !! key, bool_decide (is_Some (store !! key)))
  end.

Definition GetString (key : string) (c : Context) : string :=
  match Get key c with
  | (Some value, true) => value
  | _ => EmptyString
  end.

Section WithLib.
Context `{lib : Lib}.

(** [SignedCookie]. *)
Definition SignedCookie (name : string) (c : Context) : option (option Cookie * error) :=
  match GetSignedCookie name c with
  | None => None
  | Some (cookie, index, Some err) => Some (cookie, Some err)
  | Some (cookie, index, None) =>
      if index <? 0 then Some (None, Some http_ErrNoCookie)
      else Some (cookie, None)
  end.

(** The companion cookie [addSigCookie] builds for given keys. *)
Definition sigCookie (keys : list string) (cookie : Cookie) : Cookie :=
  set_Value (keygrip_Sign keys (Value cookie))
    (set_Name (Name cookie +:+ SignedCookieSuffix) (cloneCookie cookie)).

End WithLib.

Section WithNames.
Context `{names : Names}.

(** [NoContent], [NotModified]. *)
Definition NoContent (c : Context) : option Context :=
  let c := set_StatusCode StatusNoContent c in
  let c := set_Body None c in
  let c := set_BodyBuffer None c in
  c ← SetHeader HeaderContentType EmptyString c;
  c ← SetHeader Dispatch.HeaderContentLength EmptyString c;
  SetHeader HeaderTransferEncoding EmptyString c.

Definition NotModified (c : Context) : option Context :=
  let c := set_StatusCode StatusNotModified c in
  c ← SetHeader HeaderContentType EmptyString c;
  c ← SetHeader Dispatch.HeaderContentLength EmptyString c;
  c ← SetHeader Dispatch.HeaderContentEncoding EmptyString c;
  let c := set_Body None c in
  Some (set_BodyBuffer None c).

(** [c.ServerTiming(traceInfos, prefix)]. *)
Definition ServerTiming (traceInfos : list Trace.TraceInfo) (prefix : string) (c : Context)
  : option Context :=
  let value := Trace.ServerTiming traceInfos prefix in
  if nonEmpty value then SetHeader HeaderServerTiming value c
  else Some c.

End WithNames.

(** The query of the request's URL.  [url_Query req] stands for what
    [req.URL.Query()] parses out of the URL, a map that is never nil. *)
Section Query.
Variable url_Query : http_Request -> gmap string (list string).

Definition getCacheQuery (c : Context) : option (gmap string (list string) * Context) :=
  match cacheQuery c with
  | Some query => Some (query, c)
  | None =>
      match Request c with
      | Some req =>
          let query := url_Query req in
          Some (query, set_cacheQuery (Some query) c)
      | None => None
      end
  end.

Definition QueryParam (name : string) (c : Context) : option (string * Context) :=
  '(query, c) ← getCacheQuery c;
  let values := default [] (query !! name) in
  if (length values =? 0)%nat then Some (EmptyString, c)
  else (fun v => (v, c)) <$> values !! 0%nat.

(** [Query]: [for key, values := range query { m[key] = values[0] }];
    indexing an empty slice panics. *)
Definition Query (c : Context) : option (gmap string string * Context) :=
  '(query, c) ← getCacheQuery c;
  m ← map_fold (fun key values m => m ← m; v ← values !! 0%nat; Some (<[key := v]> m))
               (Some ∅) query;
  Some (m, c).

End Query.

End CtxMethods.

(** ** elton.go: what a run of the route closure shows *)

Module Observed.
Import GoStrings Ctx Dispatch.

(** The names of the handlers called, in order. *)
Definition handlerNames (l : list Event) : list string :=
  omap (fun e => match e with EvHandler _ name => Some name | _ => None end) l.

(** The names that get a trace record: all but the skip sentinel. *)
Definition traced (names : list string) : list string :=
  List.filter (fun name => negb (String.eqb name "-")) names.

(** [records r r']: from [r] to [r'] events were added and, when
    tracing is on, one record per handler called whose name is not the
    sentinel, in the order of the calls; when it is off, none. *)
Definition records (r r' : Run) : Prop :=
  exists l, log r' = log r ++ l
    /\ match traceInfos r with
       | Some infos =>
           exists new, traceInfos r' = Some (infos ++ new)
                       /\ map Trace.Name new = traced (handlerNames l)
       | None => traceInfos r' = None
       end.

(** The status code [Error] answers with. *)
Definition statusOf (err : Error) : Z :=
  match err with
  | HesError code _ => code
  | StdError _ => StatusInternalServerError
  end.

(** An event of the finalizer: a call of the error mapper or of an
    error listener, or a call on the response writer. *)
Definition responseEvent (e : Event) : Prop :=
  match e with
  | EvErrorHandler _ | EvEmitError _ | EvWriteHeader _ | EvWrite _ | EvPipe _ _
  | EvBranch _ => True
  | _ => False
  end.

(** The headers [Error] drops, in the order of the source. *)
Definition cleared : list string :=
  [HeaderETag; HeaderLastModified; HeaderContentEncoding; HeaderContentLength].

(** The events of telling [n] listeners. *)
Definition told (n : nat) (e : Event) : list Event := replicate n e.

End Observed.

(** ** Middleware: what the two packages share *)

Module Middleware.
Import GoStrings Ctx Dispatch.

(** A handler as a Go function: given what a call of [c.Next()] does,
    what a call of the handler does.  Unlike a [Prog] it can panic. *)
Definition HandlerFunc := (Run -> Outcome (error * Run)) -> Run -> Outcome (error * Run).

(** [Skipper] of elton.go, [func(c *Context) bool], taken to read the
    Context without changing it; and [DefaultSkipper]. *)
Definition Skipper := Context -> bool.

Definition DefaultSkipper : Skipper := fun c => Committed c.

(** Of net/http. *)
Definition MethodGet : string := "GET".
Definition MethodHead : string := "HEAD".
Definition MethodPost : string := "POST".
Definition MethodPut : string := "PUT".
Definition MethodPatch : string := "PATCH".
Definition MethodDelete : string := "DELETE".
Definition MethodOptions : string := "OPTIONS".
Definition MethodTrace : string := "TRACE".
Definition StatusOK : Z := 200.
Definition StatusMultipleChoices : Z := 300.
Definition StatusBadRequest : Z := 400.

(** [strings.HasPrefix] and [strings.Join]. *)
Definition HasPrefix (s prefix : string) : bool := String.prefix prefix s.

Fixpoint Join (elems : list string) (sep : string) : string :=
  match elems with
  | [] => EmptyString
  | [x] => x
  | x :: rest => x +:+ sep +:+ Join rest sep
  end.

(** What the middleware reads of a request beyond the fields of
    [http_Request]: [req.Method], and what [ioutil.ReadAll(req.Body)]
    returns. *)
Class RequestData := {
  Request_Method : http_Request -> string;
  ioutil_ReadAll : http_Request -> string * error
}.

End Middleware.

(** ** middleware: the body parser *)

Module BodyParser.
Import GoStrings Ctx Dispatch CtxMethods Middleware.

Definition defaultRequestBodyLimit : Z := 50 * 1024.
Definition jsonContentType : string := "application/json".
Definition formURLEncodedContentType : string := "application/x-www-form-urlencoded".

Record BodyParserConfig := {
  Limit : Z;
  IgnoreJSON : bool;
  IgnoreFormURLEncoded : bool;
  Skipper : option Middleware.Skipper
}.

Definition validMethods : list string := [MethodPost; MethodPatch; MethodPut].

Section WithLibraries.
Context `{names : Names} `{data : RequestData}.

(** [url_QueryUnescape s] is the string [url.QueryUnescape(s)] returns
    (the empty string when it fails); [errorText e] is [e.Error()]. *)
Variable url_QueryUnescape : string -> string.
Variable errorText : Error -> string.

(** A string without the byte [sep]. *)
Fixpoint free (sep : ascii) (s : string) : bool :=
  match s with
  | EmptyString => true
  | String c s' => negb (Ascii.eqb c sep) && free sep s'
  end.

(** A string in double quotes; the value a form piece stands for; a
    form piece; a member of a JSON object. *)
Definition quoted (s : string) : string := Trace.dquote +:+ s +:+ Trace.dquote.

Definition decoded (v : string) : string :=
  if String.eqb (url_QueryUnescape v) EmptyString then v else url_QueryUnescape v.

Definition piece (kv : string * string) : string := fst kv +:+ "=" +:+ snd kv.

Definition member (kv : string * string) : string :=
  quoted (fst kv) +:+ ":" +:+ quoted (decoded (snd kv)).

(** One piece of a form body, [fmt.Sprintf] with two quoted strings. *)
Definition formPair (str : string) : string :=
  let arr := Split str "="%char in
  if (length arr <? 2)%nat then EmptyString
  else
    let v := url_QueryUnescape (nth 1 arr EmptyString) in
    let v := if String.eqb v EmptyString then nth 1 arr EmptyString else v in
    Trace.dquote +:+ nth 0 arr EmptyString +:+ Trace.dquote +:+ ":"
      +:+ Trace.dquote +:+ v +:+ Trace.dquote.

(** The conversion of a form body to JSON text: [data] has one entry
    per piece, left empty for a piece without an equals sign. *)
Definition formToJSON (body : string) : string :=
  let values := Split body "&"%char in
  let data := map formPair values in
  "{" +:+ Join data "," +:+ "}".

(** The message of the error for a body over the limit. *)
Definition tooLarge (size limit : Z) : string :=
  "request body is " +:+ Itoa size +:+ " bytes, it should be <= " +:+ Itoa limit.

(** [NewBodyParser(config)].  The errors it returns are [*hes.Error]
    values; of their fields the model's [Error] keeps the status code
    and the message. *)
Definition NewBodyParser (config : BodyParserConfig) : HandlerFunc :=
  let limit := defaultRequestBodyLimit in
  let limit := if negb (Limit config =? 0) then Limit config else limit in
  let skipper := match Skipper config with
                 | None => DefaultSkipper
                 | Some skipper => skipper
                 end in
  fun next r =>
    let c := ctx r in
    if skipper c || match RequestBody c with Some _ => true | None => false end
    then next r
    else
      match Request c with
      | None => Panic
      | Some req =>
        let method := Request_Method req in
        let valid := existsb (fun item => String.eqb item method) validMethods in
        if negb valid then next r
        else
          let ct := Header_Get (Header req) HeaderContentType in
          let isJSON := HasPrefix ct jsonContentType in
          let isFormURLEncoded := HasPrefix ct formURLEncodedContentType in
          if negb isJSON && negb isFormURLEncoded then next r
          else if isJSON && IgnoreJSON config then next r
          else if isFormURLEncoded && IgnoreFormURLEncoded config then next r
          else
            match ioutil_ReadAll req with
            | (_, Some e) =>
                Done (Some (HesError StatusBadRequest (errorText e)), r)
            | (body, None) =>
                let size := Z.of_nat (String.length body) in
                if (0 <? limit) && (limit <? size)
                then Done (Some (HesError StatusBadRequest (tooLarge size limit)), r)
                else
                  let body := if isFormURLEncoded then formToJSON body else body in
                  next (set_ctx (set_RequestBody (Some body) c) r)
            end
      end.

(** [NewDefaultBodyParser]. *)
Definition NewDefaultBodyParser : HandlerFunc :=
  NewBodyParser {| Limit := 0; IgnoreJSON := false; IgnoreFormURLEncoded := true;
                   Skipper := None |}.

(** The limit in force, and whether the parser reads the body of a
    request: not skipped, no body parsed yet, a method that submits
    data, and a content type that is handled. *)
Definition limitOf (config : BodyParserConfig) : Z :=
  if Limit config =? 0 then defaultRequestBodyLimit else Limit config.

Definition reads (config : BodyParserConfig) (c : Context) (req : http_Request) : bool :=
  let ct := Header_Get (Header req) HeaderContentType in
  negb (match Skipper config with None => DefaultSkipper c | Some skipper => skipper c end)
  && match RequestBody c with Some _ => false | None => true end
  && bool_decide (Request_Method req ∈ validMethods)
  && ((HasPrefix ct jsonContentType && negb (IgnoreJSON config))
      || (HasPrefix ct formURLEncodedContentType && negb (IgnoreFormURLEncoded config))).

End WithLibraries.

End BodyParser.

(** ** middleware: the fresh checker *)

Module Fresh.
Import GoStrings Ctx Dispatch CtxMethods Middleware.

Record FreshConfig := { Skipper : option Middleware.Skipper }.

Section WithLibraries.
Context `{names : Names} `{data : RequestData}.

(** [fresh.Fresh(reqHeader, resHeader)] of the package fresh. *)
Variable fresh_Fresh : http_Header -> option http_Header -> bool.

(** [NewFresh(config)]. *)
Definition NewFresh (config : FreshConfig) : HandlerFunc :=
  let skipper := match Skipper config with
                 | None => DefaultSkipper
                 | Some skipper => skipper
                 end in
  fun next r =>
    if skipper (ctx r) then next r
    else
      match next r with
      | Done (Some err, r) => Done (Some err, r)
      | Done (None, r) =>
          let c := ctx r in
          let bodyBuf := BodyBuffer c in
          if match bodyBuf with
             | None => true
             | Some buf => (String.length buf =? 0)%nat
             end || (StatusCode c =? StatusNotModified)
          then Done (None, r)
          else
            match Request c with
            | None => Panic
            | Some req =>
                let method := Request_Method req in
                if negb (String.eqb method MethodGet) && negb (String.eqb method MethodHead)
                then Done (None, r)
                else
                  let statusCode := StatusCode c in
                  if negb (statusCode =? 0)
                     && ((statusCode <? StatusOK) || (StatusMultipleChoices <=? statusCode))
                  then Done (None, r)
                  else if fresh_Fresh (Header req) (Header_ c)
                  then match NotModified c with
                       | Some c => Done (None, set_ctx c r)
                       | None => Panic
                       end
                  else Done (None, r)
            end
      | Panic => Panic
      | OutOfFuel => OutOfFuel
      end.

(** [NewDefaultFresh]. *)
Definition NewDefaultFresh : HandlerFunc := NewFresh {| Skipper := None |}.

(** When the checker turns a response into 304: a body in the buffer,
    a status that is not yet 304 and is 0 or 2xx, the method GET or
    HEAD, and validators of the request that match the response. *)
Definition turns (c : Context) (req : http_Request) : bool :=
  match BodyBuffer c with
  | None => false
  | Some buf => negb (String.length buf =? 0)%nat
  end
  && (String.eqb (Request_Method req) MethodGet || String.eqb (Request_Method req) MethodHead)
  && ((StatusCode c =? 0) || ((StatusOK <=? StatusCode c) && (StatusCode c <? StatusMultipleChoices)))
  && fresh_Fresh (Header req) (Header_ c).

End WithLibraries.

End Fresh.

(** ** elton.go: [Compose] *)

Module Composing.
Import GoStrings Ctx Dispatch.

(** [c.Next = v]: an assignment that leaves [c.Committed] alone. *)
Definition assignNext (v : option NextFunc) (r : Run) : Run :=
  {| ctx := set_Next v (ctx r); index := index r; traceInfos := traceInfos r;
     clock := clock r; log := log r; flags := flags r |}.

(** The state of a run of the composed handler: the run of the request
    and the variable [index] of the closure that [Compose] stores in
    [c.Next]. *)
Record Composed := { run : Run; cursor : Z }.

Definition set_run (r : Run) (s : Composed) : Composed :=
  {| run := r; cursor := cursor s |}.

Definition set_cursor (i : Z) (s : Composed) : Composed :=
  {| run := run s; cursor := i |}.

(** Running a handler body on such a state: as [exec]. *)
Fixpoint execC (next : Composed -> Outcome (error * Composed)) (p : Prog) (s : Composed)
  : Outcome (error * Composed) :=
  match p with
  | Return err => Done (err, s)
  | Update f k => execC next k (set_run (set_ctx (f (ctx (run s))) (run s)) s)
  | Read k => execC next (k (ctx (run s))) s
  | Work ns k => execC next k (set_run (tick ns (run s)) s)
  | CallNext k =>
      match next s with
      | Done (err, s') => execC next (k err) s'
      | Panic => Panic
      | OutOfFuel => OutOfFuel
      end
  end.

Section Closure.
(** [call fn] is what calling the function [fn] does, for every
    function other than the closure; [self] is the closure;
    [originalNext] is what [c.Next] held when the composed handler was
    called. *)
Variable call : NextFunc -> Run -> Outcome (error * Run).
Variable self : nat.
Variable handlerList : list Prog.
Variable originalNext : option NextFunc.

Definition max : Z := len handlerList.

Definition isSelf (fn : NextFunc) : bool :=
  match fn with
  | OtherNext id => (id =? self)%nat
  | RouteNext => false
  end.

(** A function that knows nothing of the closure, called. *)
Definition outside (fn : NextFunc) (s : Composed) : Outcome (error * Composed) :=
  match call fn (run s) with
  | Done (err, r) => Done (err, set_run r s)
  | Panic => Panic
  | OutOfFuel => OutOfFuel
  end.

(** [c.Next()]: the function the field holds is called; when it is
    the closure, the body of the closure runs.  [fuel] bounds the
    nesting of calls. *)
Fixpoint callNext (fuel : nat) (s : Composed) : Outcome (error * Composed) :=
  match fuel with
  | O => OutOfFuel
  | S fuel' =>
      match Ctx.Next (ctx (run s)) with
      | None => Panic
      | Some fn =>
          if isSelf fn then
            let s := set_cursor (cursor s + 1) s in
            if max <=? cursor s then
              let s := set_run (assignNext originalNext (run s)) s in
              callNext fuel' s
            else
              match at_index handlerList (cursor s) with
              | Some handler => execC (callNext fuel') handler s
              | None => Panic
              end
          else outside fn s
      end
  end.

(** While the closure is in [c.Next]: [r] is the run with the original
    function there instead. *)
Definition within (s : Composed) (r : Run) : Prop :=
  Ctx.Next (ctx (run s)) = Some (OtherNext self) /\ assignNext originalNext (run s) = r.

(** How the outcomes of the composed and of the nested handlers
    correspond: the same error, and the same run, or the same run but
    for the closure left in [c.Next]. *)
Definition agree (o1 : Outcome (error * Composed)) (o2 : Outcome (error * Run)) : Prop :=
  match o1, o2 with
  | Done (e1, s), Done (e2, r) => e1 = e2 /\ (run s = r \/ within s r)
  | Panic, Panic => True
  | OutOfFuel, OutOfFuel => True
  | _, _ => False
  end.

End Closure.

(** [Compose(handlerList...)]: a panic for the empty list; otherwise
    the handler that stores its closure in [c.Next] and calls it. *)
Definition Compose (call : NextFunc -> Run -> Outcome (error * Run)) (self : nat)
    (handlerList : list Prog) (fuel : nat) : option (Run -> Outcome (error * Run)) :=
  let max := len handlerList in
  if max =? 0 then None
  else Some (fun r =>
    let originalNext := Ctx.Next (ctx r) in
    let index := -1 in
    let s := {| run := assignNext (Some (OtherNext self)) r; cursor := index |} in
    match callNext call self handlerList originalNext fuel s with
    | Done (err, s) => Done (err, run s)
    | Panic => Panic
    | OutOfFuel => OutOfFuel
    end).

(** The handlers nested in order: a call of [c.Next()] in one runs the
    next one, and in the last one runs [orig]. *)
Fixpoint nested (handlerList : list Prog) (orig : Run -> Outcome (error * Run))
  : Run -> Outcome (error * Run) :=
  match handlerList with
  | [] => orig
  | handler :: rest => exec (nested rest orig) handler
  end.

(** A handler body that neither reads nor assigns [c.Next]. *)
Inductive nextBlind : Prog -> Prop :=
| nb_Return err : nextBlind (Return err)
| nb_Update f k :
    (forall v c, f (set_Next v c) = set_Next v (f c)) -> nextBlind k ->
    nextBlind (Update f k)
| nb_Read k :
    (forall v c, k (set_Next v c) = k c) -> (forall c, nextBlind (k c)) ->
    nextBlind (Read k)
| nb_Work ns k : nextBlind k -> nextBlind (Work ns k)
| nb_CallNext k : (forall err, nextBlind (k err)) -> nextBlind (CallNext k).

(** Calling what [c.Next] held before the composed handler ran. *)
Definition callOriginal (call : NextFunc -> Run -> Outcome (error * Run))
    (originalNext : option NextFunc) (r : Run) : Outcome (error * Run) :=
  match originalNext with
  | Some fn => call fn r
  | None => Panic
  end.

End Composing.

(** ** elton.go: routes and groups *)

Module Routes.
Import GoStrings Ctx Dispatch Middleware.

(** [Router]: a route of a group.  An entry of a slice of handlers is
    a func value: [None] is nil. *)
Record Router := {
  Method : string;
  Path : string;
  HandleList : list (option Handler)
}.

(** [Group].  The field [Path] of the source is [GroupPath] here. *)
Record Group := {
  GroupPath : string;
  HandlerList : list (option Handler);
  routers : list Router
}.

(** [NewGroup]. *)
Definition NewGroup (path : string) (handlerList : list (option Handler)) : Group :=
  {| GroupPath := path; HandlerList := handlerList; routers := [] |}.

(** [make([]Handler, n)]: [n] nil entries; [copy(dst, src)]: the first
    entries of [dst] replaced by those of [src], as many as both have. *)
Definition make (n : nat) : list (option Handler) := replicate n None.

Fixpoint copy (dst src : list (option Handler)) : list (option Handler) :=
  match dst, src with
  | _ :: dst', x :: src' => x :: copy dst' src'
  | _, _ => dst
  end.

(** [merge]: the entries of the slice it returns ([None] is nil). *)
Definition merge (g : Group) (s2 : list (option Handler)) : list (option Handler) :=
  let s1 := HandlerList g in
  let fns := make (length s1 + length s2) in
  let fns := copy fns s1 in
  take (length s1) fns ++ copy (drop (length s1) fns) s2.

(** [add]. *)
Definition add (method path : string) (handlerList : list (option Handler)) (g : Group)
  : Group :=
  {| GroupPath := GroupPath g; HandlerList := HandlerList g;
     routers := routers g
                ++ [{| Method := method; Path := path; HandleList := handlerList |}] |}.

(** The body that [GET], [POST], [PUT], [PATCH], [DELETE], [HEAD],
    [OPTIONS] and [TRACE] of a group share, each with its method. *)
Definition route (method path : string) (handlerList : list (option Handler)) (g : Group)
  : Group :=
  let p := GroupPath g +:+ path in
  let fns := merge g handlerList in
  add method p fns g.

Definition GET := route MethodGet.
Definition POST := route MethodPost.
Definition PUT := route MethodPut.
Definition PATCH := route MethodPatch.
Definition DELETE := route MethodDelete.
Definition HEAD := route MethodHead.
Definition OPTIONS := route MethodOptions.
Definition TRACE := route MethodTrace.

(** A call of a route method, of a group or of the server: one of the
    eight, with its method, or [ALL]. *)
Inductive Call :=
| One (method path : string) (handlerList : list (option Handler))
| All (path : string) (handlerList : list (option Handler)).

Section Server.
(** [methods] is the list of methods of the package, declared in a
    file that is not among the sources at hand.  [D] is the state of a
    server and [Handle method path handlerList d] what [d.Handle] does
    to it: it names the handlers, notes the route in [d.Routers] and
    hands the route closure ([Dispatch.dispatch]) to the router, which
    panics on a route it rejects: no result. *)
Variable methods : list string.
Variable D : Type.
Variable Handle : string -> string -> list (option Handler) -> D -> option D.

(** A [for ... range] loop over a slice, with a body that may panic. *)
Fixpoint forEach {A : Type} (body : A -> D -> option D) (l : list A) (d : D) : option D :=
  match l with
  | [] => Some d
  | x :: rest => d ← body x d; forEach body rest d
  end.

(** [ALL] of a group. *)
Definition ALL (path : string) (handlerList : list (option Handler)) (g : Group) : Group :=
  let p := GroupPath g +:+ path in
  let fns := merge g handlerList in
  fold_left (fun g method => add method p fns g) methods g.

(** [AddGroup]. *)
Definition AddGroup (g : Group) (d : D) : option D :=
  forEach (fun r => Handle (Method r) (Path r) (HandleList r)) (routers g) d.

(** [ALL] of the server; its [GET], [POST] and so on are [Handle] with
    the method. *)
Definition Elton_ALL (path : string) (handlerList : list (option Handler)) (d : D)
  : option D :=
  forEach (fun method => Handle method path handlerList) methods d.

(** A call on a group; and the call on the server itself, for the path
    with [prefix] before it and the handlers with [front] before
    them. *)
Definition onGroup (op : Call) (g : Group) : Group :=
  match op with
  | One method path handlerList => route method path handlerList g
  | All path handlerList => ALL path handlerList g
  end.

Definition onServer (prefix : string) (front : list (option Handler)) (op : Call) (d : D)
  : option D :=
  match op with
  | One method path handlerList => Handle method (prefix +:+ path) (front ++ handlerList) d
  | All path handlerList => Elton_ALL (prefix +:+ path) (front ++ handlerList) d
  end.

(** A sequence of calls on a group. *)
Definition calls (ops : list Call) (g : Group) : Group :=
  fold_left (fun g op => onGroup op g) ops g.

End Server.

End Routes.

(** ** More concrete inputs for the examples *)

Module MoreExamples.
Import GoStrings GoNet SignedKeys Ctx Dispatch Examples CtxMethods Middleware.

(** The usual header names. *)
Definition exampleNames : Names := {|
  HeaderContentType := "Content-Type";
  HeaderTransferEncoding := "Transfer-Encoding";
  HeaderServerTiming := "Server-Timing"
|}.

(** fe80::1, a link-local address. *)
Definition linkLocal : IP := [254; 128] ++ repeat 0 13 ++ [1].

(** A request with a given Content-Type, and with given cookies. *)
Definition typed (ct : string) : http_Request := {|
  Header := {[ "Content-Type" := [ct] ]};
  RemoteAddr := "192.0.2.1:1234";
  Cookies := []
|}.

(** Request data: every request is a POST with the given body; every
    request is a GET. *)
Definition posted (body : string) : RequestData := {|
  Request_Method := fun _ => MethodPost;
  ioutil_ReadAll := fun _ => (body, None)
|}.

Definition got : RequestData := {|
  Request_Method := fun _ => MethodGet;
  ioutil_ReadAll := fun _ => (EmptyString, None)
|}.

(** A server with two signing keys, the newer first. *)
Definition keyedElton : Elton :=
  {| status := 0; EnableTrace := false;
     SignedKeys := Some (GenSimple {| simple_keys := ["k1"; "k0"] |});
     validators := None |}.

(** The companion of the cookie a=b, signed with the older key. *)
Definition sig_ab : Cookie := {|
  Name := "a.sig"; Value := "k0:b"; Path := EmptyString; Domain := EmptyString;
  Expires := 0; RawExpires := EmptyString; MaxAge := 0; Secure := false;
  HttpOnly := false; SameSite := 0; Raw := EmptyString; Unparsed := []
|}.

(** A Context of the server with keys, for a request with the given
    cookies. *)
Definition keyedContext (cookies : list Cookie) : Context :=
  set_elton (Some keyedElton) (NewContext (Some recorder) (Some (request_with cookies))).

(** A response header map with a key that is not in canonical form. *)
Definition rawHeaders : http_Header :=
  {[ "Content-Type" := ["text/plain"]; "x-raw" := ["1"] ]}.

(** A run whose chain has left the body hello in the buffer. *)
Definition buffered : Run :=
  set_ctx (set_BodyBuffer (Some "hello") (ctx (freshRun plainElton noGlobals [])))
          (freshRun plainElton noGlobals []).

(** A run for a request with the given Content-Type. *)
Definition typedRun (ct : string) : Run :=
  initial plainElton noGlobals "/" recorder (typed ct) [] zeroContext 0.

(** The text of an error. *)
Definition errorTextOf : Error -> string :=
  fun e => match e with HesError _ msg | StdError msg => msg end.

(** The end of a chain. *)
Definition done : Run -> Outcome (error * Run) := fun r => Done (None, r).

(** A chain that answers 200 with the body hello. *)
Definition answering : Run -> Outcome (error * Run) :=
  fun r => Done (None, set_ctx (set_StatusCode 200 (set_BodyBuffer (Some "hello") (ctx r))) r).

(** Two handlers that pass on, the first after working. *)
Definition passing : list Prog :=
  [Work 1 (CallNext (fun err => Return err)); CallNext (fun err => Return err)].

(** The function in [c.Next] before: it records a call. *)
Definition recordCall : NextFunc -> Run -> Outcome (error * Run) :=
  fun _ r => Done (None, emit (EvHandler 7 "route") r).

(** A server that notes the method and path of each route, and the
    number of its handlers. *)
Definition noted : string -> string -> list (option Handler)
                   -> list (string * string * nat) -> option (list (string * string * nat)) :=
  fun method path handlerList d => Some (d ++ [(method, path, length handlerList)]).

End MoreExamples.

(** * Properties *)

(** ** The sort of [GetClientIP] *)

Module GoStringsFacts.
Import GoStrings.

Lemma less_false (a b : string) : less a b = false <-> String.le b a.
Proof.
  unfold less, String.le, String.leb. rewrite (String.compare_antisym a b).
  destruct (String.compare b a); cbn; split; intros H;
    first [exact I | reflexivity | discriminate | contradiction].
Qed.

Lemma insertDesc_perm (x : string) (l : list string) : insertDesc x l ≡ₚ x :: l.
Proof.
  induction l as [| y l IH]; cbn; [reflexivity |].
  destruct (less x y); [| reflexivity].
  rewrite IH. apply Permutation_swap.
Qed.

(** [SortReverse] rearranges its argument ... *)
Lemma SortReverse_perm (l : list string) : SortReverse l ≡ₚ l.
Proof.
  induction l as [| x l IH]; cbn; [reflexivity |].
  rewrite insertDesc_perm, IH. reflexivity.
Qed.

Lemma insertDesc_sorted (x : string) (l : list string) :
  StronglySorted (fun a b => less a b = false) l ->
  StronglySorted (fun a b => less a b = false) (insertDesc x l).
Proof.
  induction l as [| y l IH]; intros Hs; cbn.
  - repeat constructor.
  - apply StronglySorted_inv in Hs. destruct Hs as [Hs Hy].
    destruct (less x y) eqn:Exy.
    + constructor; [apply IH; exact Hs |].
      rewrite (insertDesc_perm x l). constructor; [| exact Hy].
      unfold less in *. rewrite String.compare_antisym.
      destruct (String.compare x y); cbn; congruence.
    + constructor; [constructor; assumption |].
      constructor; [exact Exy |].
      eapply Forall_impl; [exact Hy |]. cbn. intros z Hz.
      apply less_false. apply less_false in Hz, Exy.
      etransitivity; eassumption.
Qed.

(** ... into descending order: no element is less than a later one. *)
Lemma SortReverse_sorted (l : list string) :
  StronglySorted (fun a b => less a b = false) (SortReverse l).
Proof.
  induction l as [| x l IH]; cbn; [constructor |].
  apply insertDesc_sorted. exact IH.
Qed.

End GoStringsFacts.

(** ** signed_keys.go *)

Module SignedKeysFacts.
Import SignedKeys.

(** [GetKeys] leaves each generator as it found it. *)
Lemma GetKeys_state (g : Generator) (keys : list string) (g' : Generator) :
  Generator_GetKeys g = Some (keys, g') -> g' = g.
Proof.
  destruct g as [sk | rwSk | atSk]; cbn.
  - intros [= _ <-]. reflexivity.
  - destruct rwSk as [[w n] ks]; cbn. unfold RLock; cbn.
    destruct w; cbn; [discriminate |]. intros [= _ <-]. reflexivity.
  - destruct atSk as [[ks |]]; cbn; [| discriminate].
    intros [= _ <-]. reflexivity.
Qed.

Lemma SetKeysAll_app {T} `{SignedKeysGenerator T} (h1 h2 : list (list string)) (s : T) :
  SetKeysAll (h1 ++ h2) s =
  match SetKeysAll h1 s with Some s' => SetKeysAll h2 s' | None => None end.
Proof.
  revert s. induction h1 as [| keys h1 IH]; intros s; cbn; [reflexivity |].
  destruct (SetKeys keys s); [apply IH | reflexivity].
Qed.

Lemma Simple_SetKeysAll (history : list (list string)) (sk : SimpleSignedKeys) :
  exists sk', SetKeysAll history sk = Some sk'.
Proof.
  revert sk. induction history as [| keys h IH]; intros sk; cbn; eauto.
Qed.

Lemma Atomic_SetKeysAll (history : list (list string)) (atSk : AtomicSignedKeys) :
  exists atSk', SetKeysAll history atSk = Some atSk'.
Proof.
  revert atSk. induction history as [| keys h IH]; intros atSk; cbn; eauto.
Qed.

Lemma RWMutex_SetKeysAll (history : list (list string)) (rwSk : RWMutexSignedKeys) :
  rw_mutex rwSk = free ->
  exists rwSk', SetKeysAll history rwSk = Some rwSk' /\ rw_mutex rwSk' = free.
Proof.
  revert rwSk. induction history as [| keys h IH]; intros [mu ks] Hfree; cbn in *.
  - eauto.
  - subst mu. cbn. apply IH. reflexivity.
Qed.

(** C7. For each of the three generators, once a history of [SetKeys]
    calls ending with [SetKeys(ks)] has run, [GetKeys] returns exactly
    [ks], the whole sequence set last, and leaves the generator as it
    is.  (For [RWMutexSignedKeys] the calls are made while no other
    goroutine holds the mutex.) *)
Theorem GetKeys_after_SetKeys (history : list (list string)) (ks : list string) :
  (forall sk : SimpleSignedKeys,
      exists sk', SetKeysAll (history ++ [ks]) sk = Some sk'
                  /\ GetKeys sk' = Some (ks, sk'))
  /\ (forall rwSk : RWMutexSignedKeys,
      rw_mutex rwSk = free ->
      exists rwSk', SetKeysAll (history ++ [ks]) rwSk = Some rwSk'
                    /\ GetKeys rwSk' = Some (ks, rwSk'))
  /\ (forall atSk : AtomicSignedKeys,
      exists atSk', SetKeysAll (history ++ [ks]) atSk = Some atSk'
                    /\ GetKeys atSk' = Some (ks, atSk')).
Proof.
  split; [| split].
  - intros sk. rewrite SetKeysAll_app.
    destruct (Simple_SetKeysAll history sk) as [sk1 ->]. cbn. eauto.
  - intros rwSk Hfree. rewrite SetKeysAll_app.
    destruct (RWMutex_SetKeysAll history rwSk Hfree) as [[mu ks1] [-> Hmu]].
    cbn in Hmu. subst mu. cbn. eauto.
  - intros atSk. rewrite SetKeysAll_app.
    destruct (Atomic_SetKeysAll history atSk) as [atSk1 ->]. cbn. eauto.
Qed.

(** The three generators after [SetKeys(["old"])] then
    [SetKeys(["secret"; "cuttlefish"])]. *)
Lemma GetKeys_after_SetKeys_witness :
  (exists sk', SetKeysAll ([["old"]] ++ [["secret"; "cuttlefish"]]) {| simple_keys := [] |} = Some sk'
               /\ GetKeys sk' = Some (["secret"; "cuttlefish"], sk'))
  /\ (exists rwSk', SetKeysAll ([["old"]] ++ [["secret"; "cuttlefish"]])
                      {| rw_mutex := free; rw_keys := [] |} = Some rwSk'
               /\ GetKeys rwSk' = Some (["secret"; "cuttlefish"], rwSk'))
  /\ (exists atSk', SetKeysAll ([["old"]] ++ [["secret"; "cuttlefish"]])
                      {| atomic_keys := None |} = Some atSk'
               /\ GetKeys atSk' = Some (["secret"; "cuttlefish"], atSk')).
Proof.
  destruct (GetKeys_after_SetKeys [["old"]] ["secret"; "cuttlefish"]) as (HS & HR & HA).
  split; [apply HS | split; [apply HR; reflexivity | apply HA]].
Defined.

End SignedKeysFacts.

(** ** context.go: [Reset] and [Redirect] *)

Module CtxFacts.
Import GoStrings GoNet SignedKeys Ctx.

(** C8. Whatever state a Context is in, [Reset] leaves every field at
    its zero value: the result is the zero Context [&Context{}] the
    pool constructs, which is also what [NewContext(nil, nil)] builds,
    and it is marked reusable. *)
Theorem Reset_zero (c : Context) :
  Reset c = zeroContext
  /\ Reset c = NewContext None None
  /\ Request (Reset c) = None /\ Response (Reset c) = None /\ Headers (Reset c) = None
  /\ Committed (Reset c) = false
  /\ ID (Reset c) = EmptyString /\ Route (Reset c) = EmptyString
  /\ Next (Reset c) = None /\ Params (Reset c) = None
  /\ Body (Reset c) = None /\ BodyBuffer (Reset c) = None /\ RequestBody (Reset c) = None
  /\ StatusCode (Reset c) = 0
  /\ m (Reset c) = None
  /\ realIP (Reset c) = EmptyString /\ clientIP (Reset c) = EmptyString
  /\ elton (Reset c) = None
  /\ reuseStatus (Reset c) = ReuseContextEnabled /\ isReuse (Reset c) = true
  /\ cacheQuery (Reset c) = None.
Proof.
  repeat split; reflexivity.
Qed.

Section WithLib.
Context `{lib : Lib}.

(** C10. [Redirect] returns [ErrInvalidRedirect] when the code is
    outside the range from [MinRedirectCode] to [MaxRedirectCode], and
    then the Context is unchanged; when the code is in the range it
    returns nil, and the Context has the code as its status, is
    committed, and has neither body nor body buffer.  (So the error is
    returned exactly when the code is outside the range.) *)
Theorem Redirect_spec (code : Z) (url : string) (c : Context) :
  (~ inRedirectRange code ->
     Redirect code url c = (Some ErrInvalidRedirect, c))
  /\ (inRedirectRange code ->
     exists c', Redirect code url c = (None, c')
       /\ StatusCode c' = code /\ Committed c' = true
       /\ Body c' = None /\ BodyBuffer c' = None).
Proof.
  unfold inRedirectRange, Redirect. split; intros Hr.
  - destruct (code <? MinRedirectCode) eqn:E1; [reflexivity |].
    destruct (MaxRedirectCode <? code) eqn:E2; [reflexivity |].
    apply Z.ltb_ge in E1, E2. lia.
  - destruct (code <? MinRedirectCode) eqn:E1; [apply Z.ltb_lt in E1; lia |].
    destruct (MaxRedirectCode <? code) eqn:E2; [apply Z.ltb_lt in E2; lia |].
    cbn. eexists. repeat split.
Qed.

Lemma noKeys_getKeys (c : Context) : noKeys c -> getKeys c = Some [].
Proof.
  unfold noKeys, getKeys.
  intros [He | [(e & He & Hg) | (e & g & g' & He & Hg & Hk)]]; rewrite He;
    [reflexivity | rewrite Hg; reflexivity |].
  rewrite Hg, Hk. reflexivity.
Qed.

(** C9 (amended). With no signing keys configured, on a Context that
    has a response header map, [AddSignedCookie] returns nil and its
    only effect is to append the plain cookie to the Set-Cookie values
    (no companion cookie is added, every other header is untouched);
    and [GetSignedCookie], on a request that carries a cookie of the
    given name, returns that cookie, index -1 and [errSignKeyIsNil],
    while on a request that carries none it returns the lookup's
    [http.ErrNoCookie]. *)
Theorem AddSignedCookie_without_keys (cookie : Cookie) (c : Context) (h : http_Header) :
  noKeys c ->
  Headers c = Some h ->
  (exists h',
      AddSignedCookie cookie c = Some (None, set_Headers (Some h') c)
      /\ h' !! HeaderSetCookie
         = Some (default [] (h !! HeaderSetCookie) ++ [Cookie_String cookie])
      /\ (forall key, key <> HeaderSetCookie -> h' !! key = h !! key))
  /\ (forall name req,
         Request c = Some req ->
         GetSignedCookie name c =
         match List.find (fun ck => String.eqb (Name ck) name) (Cookies req) with
         | Some ck => Some (Some ck, -1, Some errSignKeyIsNil)
         | None => Some (None, -1, Some http_ErrNoCookie)
         end).
Proof.
  intros Hno Hh. split.
  - exists (Header_Add HeaderSetCookie (Cookie_String cookie) h).
    split; [| split].
    + unfold AddSignedCookie, AddCookie, AddHeader. rewrite Hh.
      unfold addSigCookie.
      assert (Hk : getKeys (set_Headers
                (Some (Header_Add HeaderSetCookie (Cookie_String cookie) h)) c) = Some []).
      { apply noKeys_getKeys. exact Hno. }
      rewrite Hk. reflexivity.
    + unfold Header_Add.
      change (CanonicalMIMEHeaderKey HeaderSetCookie) with HeaderSetCookie.
      apply lookup_insert_eq.
    + intros key Hkey. unfold Header_Add.
      change (CanonicalMIMEHeaderKey HeaderSetCookie) with HeaderSetCookie.
      apply lookup_insert_ne. congruence.
  - intros name req Hreq.
    unfold GetSignedCookie, Cookie_, Request_Cookie. rewrite Hreq. cbn.
    destruct (List.find _ (Cookies req)) as [ck |]; [| reflexivity].
    rewrite (noKeys_getKeys c Hno). reflexivity.
Qed.

(** What [firstPublic] finds. *)
Lemma firstPublic_None (arr : list string) :
  firstPublic arr = None <->
  Forall (fun value => intranetip_Is (net_ParseIP (TrimSpace value)) = true) arr.
Proof.
  induction arr as [| value rest IH]; cbn; [split; [constructor | reflexivity] |].
  destruct (intranetip_Is (net_ParseIP (TrimSpace value))) eqn:E; cbn.
  - rewrite IH. split; [intros Hr; constructor; assumption |].
    intros Hall. apply Forall_cons in Hall. apply Hall.
  - split; [discriminate |]. intros Hall. apply Forall_cons in Hall.
    destruct Hall as [Hv _]. congruence.
Qed.

Lemma firstPublic_Some (arr : list string) (v : string) :
  firstPublic arr = Some v ->
  exists value, value ∈ arr /\ v = TrimSpace value
                /\ intranetip_Is (net_ParseIP v) = false.
Proof.
  induction arr as [| value rest IH]; cbn; [discriminate |].
  destruct (intranetip_Is (net_ParseIP (TrimSpace value))) eqn:E; cbn.
  - intros Hr. destruct (IH Hr) as (x & Hin & Hv & Hp).
    exists x. split; [apply elem_of_cons; right; exact Hin | auto].
  - intros [= <-]. exists value. split; [apply elem_of_cons; left; reflexivity | auto].
Qed.

(** What remains of C1 whatever the order of the scan: when the
    forwarding header is absent or all its entries are private,
    [GetClientIP] falls back as the specification says (X-Real-Ip when
    public, else the peer address); otherwise it returns an entry of
    the header, trimmed, that is not private. *)
Theorem GetClientIP_public (req : http_Request) :
  (firstPublic (Split (Header_Get (Header req) HeaderXForwardedFor) ","%char) = None ->
     GetClientIP req = GetClientIP_spec req)
  /\ (nonEmpty (Header_Get (Header req) HeaderXForwardedFor) = false ->
     GetClientIP req = GetClientIP_spec req)
  /\ (nonEmpty (Header_Get (Header req) HeaderXForwardedFor) = true ->
      firstPublic (Split (Header_Get (Header req) HeaderXForwardedFor) ","%char) <> None ->
      exists value,
        value ∈ Split (Header_Get (Header req) HeaderXForwardedFor) ","%char
        /\ GetClientIP req = TrimSpace value
        /\ intranetip_Is (net_ParseIP (TrimSpace value)) = false).
Proof.
  unfold GetClientIP, GetClientIP_spec.
  set (ip := Header_Get (Header req) HeaderXForwardedFor).
  assert (Hsame : firstPublic (SortReverse (Split ip ","%char)) = None
                  <-> firstPublic (Split ip ","%char) = None).
  { rewrite !firstPublic_None.
    rewrite (GoStringsFacts.SortReverse_perm (Split ip ","%char)). reflexivity. }
  split; [| split].
  - intros Hnone. destruct (nonEmpty ip); [| reflexivity].
    rewrite Hnone. apply Hsame in Hnone. rewrite Hnone. reflexivity.
  - intros ->. reflexivity.
  - intros -> Hsome.
    destruct (firstPublic (SortReverse (Split ip ","%char))) as [v |] eqn:Ev.
    + destruct (firstPublic_Some _ _ Ev) as (value & Hin & -> & Hp).
      exists value. split; [| auto].
      rewrite (GoStringsFacts.SortReverse_perm (Split ip ","%char)) in Hin. exact Hin.
    + exfalso. apply Hsome. apply Hsame. reflexivity.
Qed.

End WithLib.

Import Examples.

(** C10 at the codes of the repository's test: 299 is refused and the
    Context is left alone, 302 is accepted. *)
Lemma Redirect_spec_witness :
  Redirect (lib := exampleLib) 299 EmptyString (NewContext (Some recorder) None)
  = (Some (HesError 400 "invalid redirect"), NewContext (Some recorder) None)
  /\ exists c', Redirect (lib := exampleLib) 302 "https://aslant.site/"
                  (NewContext (Some recorder) None) = (None, c')
       /\ StatusCode c' = 302 /\ Committed c' = true
       /\ Body c' = None /\ BodyBuffer c' = None.
Proof.
  split.
  - apply (Redirect_spec (lib := exampleLib) 299 EmptyString
             (NewContext (Some recorder) None)).
    unfold inRedirectRange. cbn. lia.
  - apply (Redirect_spec (lib := exampleLib) 302 "https://aslant.site/"
             (NewContext (Some recorder) None)).
    unfold inRedirectRange. cbn. lia.
Defined.

(** C9 on a fresh Context without server: the cookie a=b is added,
    nothing else; reading it back from a request that carries it fails
    with the key error. *)
Lemma AddSignedCookie_without_keys_witness :
  (exists h',
      AddSignedCookie (lib := exampleLib) cookie_ab
        (NewContext (Some recorder) (Some (request_with [cookie_ab])))
      = Some (None, set_Headers (Some h')
                      (NewContext (Some recorder) (Some (request_with [cookie_ab]))))
      /\ h' !! HeaderSetCookie = Some (default [] ((∅ : http_Header) !! HeaderSetCookie) ++ ["a=b"])
      /\ (forall key, key <> HeaderSetCookie -> h' !! key = (∅ : http_Header) !! key))
  /\ GetSignedCookie (lib := exampleLib) "a"
       (NewContext (Some recorder) (Some (request_with [cookie_ab])))
     = Some (Some cookie_ab, -1, Some (HesError 400 "keys for sign cookie can't be nil")).
Proof.
  destruct (AddSignedCookie_without_keys (lib := exampleLib) cookie_ab
              (NewContext (Some recorder) (Some (request_with [cookie_ab]))) ∅
              (or_introl eq_refl) eq_refl) as [Hadd Hget].
  split; [exact Hadd |].
  exact (Hget "a" (request_with [cookie_ab]) eq_refl).
Defined.

(** C9 as stated fails: with no keys configured, [GetSignedCookie] on a
    request without the cookie returns [http.ErrNoCookie], which is not
    the key error; and [AddSignedCookie] on a Context without response
    header map panics instead of returning nil. *)
Lemma AddSignedCookie_without_keys_counterexample :
  noKeys (NewContext (Some recorder) (Some (request_with [])))
  /\ GetSignedCookie (lib := exampleLib) "a"
       (NewContext (Some recorder) (Some (request_with [])))
     = Some (None, -1, Some (StdError "http: named cookie not present"))
  /\ errSignKeyIsNil (lib := exampleLib) = HesError 400 "keys for sign cookie can't be nil"
  /\ noKeys (NewContext None None)
  /\ AddSignedCookie (lib := exampleLib) cookie_ab (NewContext None None) = None.
Proof.
  repeat split; try reflexivity; left; reflexivity.
Qed.

(** C1 (the code departs from the claim). For the header
    10.0.0.1, 1.1.1.1, 8.8.8.8 the first entry, in header order, outside the
    private ranges is 1.1.1.1 (what [GetClientIP_spec] returns), but
    [GetClientIP] sorts the entries in descending string order before
    scanning and returns 8.8.8.8; likewise for 1.1.1.1,8.8.8.8.  On the
    two inputs of the specification's scenario the code returns what
    the claim says: 8.8.8.8, and the peer address. *)
Theorem GetClientIP_sorts_entries :
  GetClientIP (lib := exampleLib) (forwarded "10.0.0.1, 1.1.1.1, 8.8.8.8") = "8.8.8.8"
  /\ GetClientIP_spec (lib := exampleLib) (forwarded "10.0.0.1, 1.1.1.1, 8.8.8.8") = "1.1.1.1"
  /\ GetClientIP (lib := exampleLib) (forwarded "1.1.1.1,8.8.8.8") = "8.8.8.8"
  /\ GetClientIP_spec (lib := exampleLib) (forwarded "1.1.1.1,8.8.8.8") = "1.1.1.1"
  /\ GetClientIP (lib := exampleLib) (forwarded "10.0.0.5, 8.8.8.8") = "8.8.8.8"
  /\ GetClientIP (lib := exampleLib) (forwarded "10.0.0.5") = "192.0.2.1"
  /\ ClientIP (lib := exampleLib)
       (NewContext (Some recorder) (Some (forwarded "10.0.0.1, 1.1.1.1, 8.8.8.8")))
     = Some ("8.8.8.8",
             set_clientIP "8.8.8.8"
               (NewContext (Some recorder) (Some (forwarded "10.0.0.1, 1.1.1.1, 8.8.8.8")))).
Proof.
  repeat split; vm_compute; reflexivity.
Qed.

(** [GetClientIP_public] on two requests: one whose forwarded entries
    are all private, where the peer address is returned as the
    specification says; and the one of C1, where an entry of the
    header that is not private is returned. *)
Lemma GetClientIP_public_witness :
  GetClientIP (lib := exampleLib) (forwarded "10.0.0.5, 192.168.1.1")
  = GetClientIP_spec (lib := exampleLib) (forwarded "10.0.0.5, 192.168.1.1")
  /\ exists value,
      value ∈ Split (Header_Get (Header (forwarded "10.0.0.1, 1.1.1.1, 8.8.8.8"))
                       HeaderXForwardedFor) ","%char
      /\ GetClientIP (lib := exampleLib) (forwarded "10.0.0.1, 1.1.1.1, 8.8.8.8")
         = TrimSpace value
      /\ intranetip_Is (Lib := exampleLib)
           (net_ParseIP (Lib := exampleLib) (TrimSpace value)) = false.
Proof.
  split.
  - destruct (GetClientIP_public (lib := exampleLib) (forwarded "10.0.0.5, 192.168.1.1"))
      as (Hprivate & _ & _).
    apply Hprivate. reflexivity.
  - destruct (GetClientIP_public (lib := exampleLib) (forwarded "10.0.0.1, 1.1.1.1, 8.8.8.8"))
      as (_ & _ & Hpublic).
    apply Hpublic; [reflexivity | vm_compute; discriminate].
Defined.

End CtxFacts.

(** ** elton.go: [getMs] and [ServerTiming] *)

Module TraceFacts.
Import GoStrings Trace.

Lemma app_cons (c : ascii) (s t : string) : String c s +:+ t = String c (s +:+ t).
Proof. reflexivity. Qed.

Lemma app_assoc (s t u : string) : (s +:+ t) +:+ u = s +:+ (t +:+ u).
Proof.
  induction s as [| c s IH]; [reflexivity |].
  rewrite !app_cons, IH. reflexivity.
Qed.

Lemma app_empty_r (s : string) : s +:+ EmptyString = s.
Proof.
  induction s as [| c s IH]; [reflexivity |]. rewrite app_cons, IH. reflexivity.
Qed.

(** One digit and two digits. *)
Lemma Itoa_digit (k : Z) : 0 <= k < 10 -> Itoa k = String (digit k) EmptyString.
Proof.
  intros Hk. unfold Itoa.
  replace (k <? 0) with false by (symmetry; apply Z.ltb_ge; lia).
  cbn [utoa].
  replace (k <? 10) with true by (symmetry; apply Z.ltb_lt; lia).
  rewrite Z.mod_small by lia. reflexivity.
Qed.

Lemma Itoa_twoDigits (k : Z) : 10 <= k < 100 -> Itoa k = twoDigits k.
Proof.
  intros Hk. unfold Itoa, twoDigits.
  replace (k <? 0) with false by (symmetry; apply Z.ltb_ge; lia).
  assert (Hlog : 3 <= Z.log2 k) by (apply Z.log2_le_pow2; lia).
  destruct (Z.to_nat (Z.log2 k)) as [| n] eqn:En; [lia |].
  cbn [utoa].
  replace (k <? 10) with false by (symmetry; apply Z.ltb_ge; lia).
  assert (0 <= k / 10 < 10).
  { split; [apply Z.div_pos; lia | apply Z.div_lt_upper_bound; lia]. }
  replace (k / 10 <? 10) with true by (symmetry; apply Z.ltb_lt; lia).
  rewrite (Z.mod_small (k / 10)) by lia. reflexivity.
Qed.

(** [getMs] renders what the specification describes. *)
Lemma getMs_ms_spec (ns : Z) : getMs ns = ms_spec ns.
Proof.
  unfold getMs, ms_spec, microSecond, milliSecond.
  destruct (ns <? 1000) eqn:E; [reflexivity |].
  apply Z.ltb_ge in E.
  assert (Hm : 0 <= ns mod 1000000 < 1000000) by (apply Z.mod_pos_bound; lia).
  cbv zeta.
  rewrite Z.rem_mod_nonneg by lia.
  rewrite (Z.quot_div_nonneg ns), (Z.quot_div_nonneg (ns mod 1000000)) by lia.
  set (offset := ns mod 1000000 / 1000).
  assert (Hoff : 0 <= offset < 1000).
  { unfold offset. split; [apply Z.div_pos; lia | apply Z.div_lt_upper_bound; lia]. }
  assert (Hwhole : ns / 10000 / 100 = ns / 1000000).
  { rewrite Z.div_div by lia. reflexivity. }
  assert (Hfrac : (ns / 10000) mod 100 = offset / 10).
  { unfold offset. rewrite Z.div_div by lia.
    change (1000 * 10) with 10000.
    assert (Hd : ns = 1000000 * (ns / 1000000) + ns mod 1000000) by (apply Z.div_mod; lia).
    assert (H1 : ns / 10000 = 100 * (ns / 1000000) + ns mod 1000000 / 10000).
    { rewrite Hd at 1. replace (1000000 * (ns / 1000000)) with ((100 * (ns / 1000000)) * 10000) by lia.
      rewrite Z.div_add_l by lia. reflexivity. }
    rewrite H1. rewrite Z.add_comm, Z.mul_comm, Z.mod_add by lia.
    apply Z.mod_small. split; [apply Z.div_pos; lia | apply Z.div_lt_upper_bound; lia]. }
  rewrite !(Z.quot_div_nonneg offset) by lia.
  assert (Hlt : (offset <? 10) = (ns mod 1000000 <? 10000)).
  { unfold offset. destruct (ns mod 1000000 <? 10000) eqn:E2.
    - apply Z.ltb_lt in E2. apply Z.ltb_lt. apply Z.div_lt_upper_bound; lia.
    - apply Z.ltb_ge in E2. apply Z.ltb_ge.
      apply Z.div_le_lower_bound; lia. }
  rewrite Hwhole, Hfrac, <- Hlt.
  destruct (offset <? 10) eqn:E10; [reflexivity |].
  apply Z.ltb_ge in E10.
  assert (Hq : 0 <= offset / 10 < 100).
  { split; [apply Z.div_pos; lia | apply Z.div_lt_upper_bound; lia]. }
  destruct (offset <? 100) eqn:E100.
  - apply Z.ltb_lt in E100.
    assert (Hq1 : 1 <= offset / 10 < 10).
    { split; [apply Z.div_le_lower_bound; lia | apply Z.div_lt_upper_bound; lia]. }
    rewrite (Itoa_digit (offset / 10)) by lia. unfold twoDigits.
    rewrite (Z.div_small (offset / 10)), (Z.mod_small (offset / 10)) by lia.
    rewrite ?app_assoc. reflexivity.
  - apply Z.ltb_ge in E100.
    assert (Hq2 : 10 <= offset / 10).
    { apply Z.div_le_lower_bound; lia. }
    rewrite (Itoa_twoDigits (offset / 10)) by lia. rewrite ?app_assoc. reflexivity.
Qed.

(** The loop appends the comma-joined tokens of the remaining records. *)
Lemma ServerTiming_loop_spec (prefix : string) (infos : list TraceInfo) :
  forall (n : nat) (s : Builder),
    ServerTiming_loop prefix (Z.of_nat (n + length infos)) (Z.of_nat n) infos s
    = s +:+ join "," (imap (fun j => token_spec prefix (n + j)) infos).
Proof.
  induction infos as [| t rest IH]; intros n s.
  - cbn. rewrite app_empty_r. reflexivity.
  - cbn [ServerTiming_loop imap length].
    replace (Z.of_nat n + 1) with (Z.of_nat (S n)) by lia.
    replace (n + S (length rest))%nat with (S n + length rest)%nat by lia.
    rewrite IH. unfold WriteString.
    rewrite getMs_ms_spec. unfold ServerTimingDur, ServerTimingDesc, ServerTimingEnd.
    replace (n + 0)%nat with n by lia.
    assert (Hext : imap ((fun j => token_spec prefix (n + j)) ∘ S) rest
                   = imap (fun j => token_spec prefix (S n + j)) rest).
    { apply imap_ext. intros j x _. cbn. f_equal. lia. }
    rewrite Hext.
    destruct rest as [| t' rest'].
    + cbn [length imap join].
      replace (Z.of_nat n =? Z.of_nat (S n + 0) - 1) with true
        by (symmetry; apply Z.eqb_eq; lia).
      cbn [negb]. rewrite app_empty_r. unfold token_spec.
      rewrite ?app_assoc. reflexivity.
    + replace (Z.of_nat n =? Z.of_nat (S n + length (t' :: rest')) - 1) with false
        by (symmetry; apply Z.eqb_neq; cbn [length]; lia).
      cbn [negb].
      remember (imap (fun j => token_spec prefix (S n + j)) (t' :: rest')) as tl eqn:Etl.
      assert (Hne : tl <> []) by (subst tl; cbn; discriminate).
      destruct tl as [| x tl']; [congruence |].
      change (join "," (token_spec prefix n t :: x :: tl'))
        with (token_spec prefix n t +:+ "," +:+ join "," (x :: tl')).
      unfold token_spec. rewrite ?app_assoc. reflexivity.
Qed.

(** C6. [ServerTiming] is the comma-joined sequence of the tokens
    prefix, index, ;dur=, milliseconds, ;desc= and the quoted name, in
    sequence order, the milliseconds being rendered as the
    specification says ([ms_spec]: cut to two decimals, no decimals when
    the part below the millisecond is under 10 microseconds, "0" below
    one microsecond); the empty sequence gives the empty string; and
    the two records a (1500000 ns) and b (900 ns) with prefix t- give
    the string of the specification's scenario. *)
Theorem ServerTiming_tokens (traceInfos : list TraceInfo) (prefix : string) :
  ServerTiming traceInfos prefix = ServerTiming_spec traceInfos prefix
  /\ (forall ns, getMs ns = ms_spec ns)
  /\ ServerTiming [] prefix = EmptyString
  /\ ServerTiming [ {| Name := "a"; Duration := 1500000 |};
                    {| Name := "b"; Duration := 900 |} ] "t-"
     = "t-0;dur=1.50;desc=" +:+ dquote +:+ "a" +:+ dquote
       +:+ ",t-1;dur=0;desc=" +:+ dquote +:+ "b" +:+ dquote.
Proof.
  split; [| split; [apply getMs_ms_spec | split; reflexivity]].
  unfold ServerTiming, ServerTiming_spec.
  destruct traceInfos as [| t rest]; [reflexivity |].
  replace (Z.of_nat (length (t :: rest)) =? 0) with false
    by (symmetry; apply Z.eqb_neq; cbn [length]; lia).
  change 0 with (Z.of_nat 0) at 1.
  change (length (t :: rest)) with (0 + length (t :: rest))%nat.
  rewrite ServerTiming_loop_spec. reflexivity.
Qed.

End TraceFacts.

(** ** elton.go: the chain *)

Module DispatchFacts.
Import GoStrings Ctx Dispatch.

Lemma handlerIndices_app (l1 l2 : list Event) :
  handlerIndices (l1 ++ l2) = handlerIndices l1 ++ handlerIndices l2.
Proof. apply omap_app. Qed.

Lemma branches_app (l1 l2 : list Event) :
  branches (l1 ++ l2) = branches l1 ++ branches l2.
Proof. apply omap_app. Qed.

Lemma branches_chain (l : list Event) : Forall chainEvent l -> branches l = [].
Proof.
  induction 1 as [| e l He _ IH]; [reflexivity |].
  destruct e; cbn in *; try contradiction; exact IH.
Qed.

Lemma validateEvents_chain (kvs : list (string * string)) :
  Forall chainEvent (validateEvents kvs) /\ handlerIndices (validateEvents kvs) = [].
Proof.
  induction kvs as [| kv kvs [IH1 IH2]]; cbn; split; auto. constructor; [exact I | exact IH1].
Qed.

Lemma advances_refl (limit : Z) (r : Run) : advances limit r r.
Proof.
  unfold advances. repeat split; try lia.
  exists []. rewrite app_nil_r. repeat split; constructor.
Qed.

Lemma advances_trans (limit : Z) (r1 r2 r3 : Run) :
  advances limit r1 r2 -> advances limit r2 r3 -> advances limit r1 r3.
Proof.
  intros (Hi1 & Hc1 & l1 & Hl1 & Hch1 & Hs1 & Hb1) (Hi2 & Hc2 & l2 & Hl2 & Hch2 & Hs2 & Hb2).
  unfold advances. repeat split; try lia.
  exists (l1 ++ l2). rewrite Hl2, Hl1, app_assoc. split; [reflexivity |].
  split; [apply Forall_app; auto |].
  rewrite handlerIndices_app. split.
  - apply StronglySorted_app_2; auto.
    intros x1 x2 Hx1 Hx2.
    rewrite Forall_forall in Hb1, Hb2.
    specialize (Hb1 _ Hx1). specialize (Hb2 _ Hx2). lia.
  - apply Forall_app. split.
    + eapply Forall_impl; [exact Hb1 |]. cbn. intros; lia.
    + eapply Forall_impl; [exact Hb2 |]. cbn. intros; lia.
Qed.

(** A step that adds no event and moves neither cursor nor clock back. *)
Lemma advances_quiet (limit : Z) (r r' : Run) :
  index r <= index r' -> clock r <= clock r' -> log r' = log r ->
  advances limit r r'.
Proof.
  intros Hi Hc Hl. unfold advances. repeat split; try lia.
  exists []. rewrite app_nil_r. repeat split; auto; constructor.
Qed.

(** A step that adds calls of validators only. *)
Lemma advances_onlyLog (limit : Z) (r r' : Run) (l : list Event) :
  onlyLog r r' l -> Forall chainEvent l -> handlerIndices l = [] ->
  advances limit r r'.
Proof.
  intros (_ & Hi & _ & Hc & _ & Hl) Hch Hh. unfold advances.
  rewrite Hi, Hc. repeat split; try lia.
  exists l. rewrite Hh. repeat split; auto; constructor.
Qed.

Lemma onlyLog_refl (r : Run) : onlyLog r r [].
Proof. unfold onlyLog. rewrite app_nil_r. repeat split. Qed.

(** What a handler body does keeps [advances], if [c.Next()] does. *)
Lemma exec_advances (limit : Z) (next : Run -> Outcome (error * Run)) :
  (forall r e r', next r = Done (e, r') -> advances limit r r') ->
  forall p r e r', exec next p r = Done (e, r') -> advances limit r r'.
Proof.
  intros Hnext. induction p as [err | f k IH | k IH | ns k IH | k IH];
    intros r e r' Hex; cbn in Hex.
  - injection Hex as <- <-. apply advances_refl.
  - eapply advances_trans; [| eapply IH; exact Hex].
    apply advances_quiet; cbn; reflexivity || lia.
  - eapply IH; exact Hex.
  - eapply advances_trans; [| eapply IH; exact Hex].
    apply advances_quiet; cbn; reflexivity || lia.
  - destruct (next r) as [[e1 r1] | |] eqn:En; try discriminate.
    eapply advances_trans; [eapply Hnext; exact En | eapply IH; exact Hex].
Qed.

(** The validator loop: when every registered validator accepts its
    parameter, all of them are called, in the order of the parameters,
    and nothing else changes. *)
Lemma runValidators_pass (vs : gmap string Validator) (params : list (string * string)) :
  (forall key value validate,
      (key, value) ∈ params -> vs !! key = Some validate -> validate value = None) ->
  forall r, exists r',
    runValidators vs params r = (None, r')
    /\ onlyLog r r' (validateEvents (matching vs params)).
Proof.
  induction params as [| [key value] rest IH]; intros Hall r; cbn.
  - exists r. split; [reflexivity | apply onlyLog_refl].
  - assert (Hrest : forall key0 value0 validate,
               (key0, value0) ∈ rest -> vs !! key0 = Some validate -> validate value0 = None).
    { intros k v f Hin. apply Hall. apply elem_of_cons. right. exact Hin. }
    destruct (vs !! key) as [validate |] eqn:Ek.
    + rewrite (Hall key value validate) by (auto; apply elem_of_cons; left; reflexivity).
      destruct (IH Hrest (emit (EvValidate key value) r)) as (r' & Hrun & Hlog).
      exists r'. split; [exact Hrun |].
      rewrite bool_decide_eq_true_2 by eauto. cbn.
      destruct Hlog as (? & ? & ? & ? & ? & Hl). cbn in *.
      unfold onlyLog. rewrite Hl, <- app_assoc. repeat split; auto.
    + destruct (IH Hrest r) as (r' & Hrun & Hlog).
      exists r'. split; [exact Hrun |].
      rewrite bool_decide_eq_false_2; [exact Hlog |].
      intros [x Hx]. cbn in Hx. congruence.
Qed.

(** ..., and when some registered validator rejects its parameter, the
    loop returns the error of one that does, having called validators
    only. *)
Lemma runValidators_fail (vs : gmap string Validator) (params : list (string * string)) :
  (exists key value validate,
      (key, value) ∈ params /\ vs !! key = Some validate /\ validate value <> None) ->
  forall r, exists e r' l key value validate,
    runValidators vs params r = (Some e, r')
    /\ onlyLog r r' l /\ Forall chainEvent l /\ handlerIndices l = []
    /\ (key, value) ∈ params /\ vs !! key = Some validate /\ validate value = Some e.
Proof.
  induction params as [| [key value] rest IH]; intros (k0 & v0 & f0 & Hin & Hk0 & Hf0) r.
  - inversion Hin.
  - cbn. destruct (vs !! key) as [validate |] eqn:Ek.
    + destruct (validate value) as [e |] eqn:Ev.
      * exists e, (emit (EvValidate key value) r), [EvValidate key value], key, value, validate.
        repeat split; auto; try (repeat constructor; fail);
          try (apply elem_of_cons; left; reflexivity).
      * assert (Hrest : exists key value validate,
                   (key, value) ∈ rest /\ vs !! key = Some validate /\ validate value <> None).
        { apply elem_of_cons in Hin. destruct Hin as [[= -> ->] | Hin].
          - rewrite Ek in Hk0. injection Hk0 as <-. congruence.
          - eauto 6. }
        destruct (IH Hrest (emit (EvValidate key value) r))
          as (e & r' & l & k1 & v1 & f1 & Hrun & Hlog & Hch & Hh & Hin1 & Hk1 & Hf1).
        exists e, r', (EvValidate key value :: l), k1, v1, f1.
        destruct Hlog as (? & ? & ? & ? & ? & Hl). cbn in *.
        repeat split; auto;
          try (rewrite Hl, <- app_assoc; reflexivity);
          try (constructor; [exact I | exact Hch]);
          try (apply elem_of_cons; right; exact Hin1).
    + assert (Hrest : exists key value validate,
                 (key, value) ∈ rest /\ vs !! key = Some validate /\ validate value <> None).
      { apply elem_of_cons in Hin. destruct Hin as [[= -> ->] | Hin].
        - congruence.
        - eauto 6. }
      destruct (IH Hrest r)
        as (e & r' & l & k1 & v1 & f1 & Hrun & Hlog & Hch & Hh & Hin1 & Hk1 & Hf1).
      exists e, r', l, k1, v1, f1.
      split; [exact Hrun |]. split; [exact Hlog |]. split; [exact Hch |].
      split; [exact Hh |]. split; [apply elem_of_cons; right; exact Hin1 |].
      split; assumption.
Qed.

(** In either case the loop only adds calls of validators. *)
Lemma runValidators_log (vs : gmap string Validator) (params : list (string * string)) :
  forall r verr r',
    runValidators vs params r = (verr, r') ->
    exists l, onlyLog r r' l /\ Forall chainEvent l /\ handlerIndices l = [].
Proof.
  induction params as [| [key value] rest IH]; intros r verr r' Hrun; cbn in Hrun.
  - injection Hrun as <- <-. exists []. split; [apply onlyLog_refl | split; constructor].
  - destruct (vs !! key) as [validate |]; [| apply IH in Hrun; exact Hrun].
    destruct (validate value) as [e |].
    + injection Hrun as <- <-. exists [EvValidate key value].
      unfold onlyLog. cbn. repeat split. repeat constructor.
    + apply IH in Hrun. destruct Hrun as (l & (? & ? & ? & ? & ? & Hl) & Hch & Hh).
      exists (EvValidate key value :: l). cbn in *.
      unfold onlyLog. rewrite Hl, <- app_assoc. repeat split; auto.
      constructor; [exact I | exact Hch].
Qed.

Section Chain.
Variables (d : Elton) (fs : Funcs) (handlerList : list Handler).

Local Abbreviation limit := (maxNext fs handlerList).

Lemma validateLast_log (r : Run) (verr : error) (r' : Run) :
  validateLast d fs handlerList r = (verr, r') ->
  exists l, onlyLog r r' l /\ Forall chainEvent l /\ handlerIndices l = [].
Proof.
  unfold validateLast. intros H.
  assert (Hid : (None, r) = (verr, r') ->
            exists l, onlyLog r r' l /\ Forall chainEvent l /\ handlerIndices l = []).
  { intros [= <- <-]. exists []. split; [apply onlyLog_refl | split; constructor]. }
  destruct (validators d) as [vs |]; [| auto].
  destruct (index r =? limit - 1); [| auto].
  eapply runValidators_log; exact H.
Qed.

(** A traced or untraced call of a handler keeps [advances]. *)
Lemma invoke_advances (next : Run -> Outcome (error * Run)) (fn : Handler) :
  (forall r e r', next r = Done (e, r') -> advances limit r r') ->
  forall r e r', invoke next fn r = Done (e, r') -> advances limit r r'.
Proof.
  intros Hnext r e r' H. unfold invoke in H.
  destruct (traceInfos r) as [infos |]; [| eapply exec_advances; eauto].
  destruct (String.eqb (fnName fn) "-"); [eapply exec_advances; eauto |].
  match type of H with
  | match exec next _ ?r1 with _ => _ end = _ =>
      destruct (exec next (fnBody fn) r1) as [[e1 r2] | |] eqn:Ex; try discriminate;
      apply (exec_advances limit next Hnext) in Ex
  end.
  injection H as <- <-.
  eapply advances_trans; [apply advances_quiet; cbn; reflexivity || lia |].
  eapply advances_trans; [exact Ex |].
  apply advances_quiet; cbn; reflexivity || lia.
Qed.

(** One call of the closure keeps [advances], if the calls its
    handler makes do. *)
Lemma NextBody_advances (next : Run -> Outcome (error * Run)) :
  (forall r e r', next r = Done (e, r') -> advances limit r r') ->
  forall r e r', NextBody d fs handlerList next r = Done (e, r') -> advances limit r r'.
Proof.
  intros Hnext r e r' H. unfold NextBody in H.
  destruct (Committed (ctx r)); [injection H as <- <-; apply advances_refl |].
  destruct (limit <=? index (set_index (index r + 1) r)) eqn:Elim.
  { injection H as <- <-. apply advances_quiet; cbn; reflexivity || lia. }
  apply Z.leb_gt in Elim. cbn in Elim.
  destruct (validateLast d fs handlerList (set_index (index r + 1) r)) as [verr r2] eqn:Ev.
  destruct (validateLast_log _ _ _ Ev) as (lv & Hlog & Hchv & Hhv).
  assert (Hr2 : advances limit r r2).
  { eapply advances_trans; [| eapply advances_onlyLog; eauto].
    apply advances_quiet; cbn; reflexivity || lia. }
  destruct verr as [ev |]; [injection H as <- <-; exact Hr2 |].
  destruct (handlerAt fs handlerList (index r2)) as [fn |]; [| discriminate].
  apply (invoke_advances next fn Hnext) in H.
  destruct Hlog as (_ & Hi2 & _ & Hk2 & _ & Hl2). cbn in Hi2, Hk2, Hl2.
  assert (Hr3 : advances limit r (emit (EvHandler (index r2) (fnName fn)) r2)).
  { unfold advances. cbn. rewrite Hi2, Hk2, Hl2. repeat split; try lia.
    exists (lv ++ [EvHandler (index r + 1) (fnName fn)]). rewrite <- app_assoc.
    split; [reflexivity |]. split.
    - apply Forall_app. split; [exact Hchv | repeat constructor].
    - rewrite handlerIndices_app, Hhv. cbn. split; repeat constructor; lia. }
  eapply advances_trans; [exact Hr3 | exact H].
Qed.

Lemma Next_advances (fuel : nat) :
  forall r e r', Next d fs handlerList fuel r = Done (e, r') -> advances limit r r'.
Proof.
  induction fuel as [| fuel IH]; intros r e r' H; cbn in H; [discriminate |].
  eapply NextBody_advances; [exact IH | exact H].
Qed.

(** *** The chain always returns *)

Lemma at_index_Some {A} (l : list A) (i : Z) :
  0 <= i < len l -> exists x, at_index l i = Some x.
Proof.
  intros Hi. unfold at_index, len in *.
  replace (i <? 0) with false by (symmetry; apply Z.ltb_ge; lia).
  apply lookup_lt_is_Some. lia.
Qed.

Lemma handlerAt_Some (i : Z) :
  0 <= i < limit -> exists fn, handlerAt fs handlerList i = Some fn.
Proof.
  unfold handlerAt, maxNext, maxMid. intros Hi.
  destruct (len (mids fs) <=? i) eqn:E.
  - apply Z.leb_le in E. apply at_index_Some. lia.
  - apply Z.leb_gt in E. apply at_index_Some. lia.
Qed.

(** A handler body returns if every call of [c.Next()] it can make
    does; the cursor stays at or above [bound]. *)
Lemma exec_done (bound : Z) (next : Run -> Outcome (error * Run)) :
  (forall r, bound <= index r ->
             exists e r', next r = Done (e, r') /\ index r <= index r') ->
  forall p r, bound <= index r ->
              exists e r', exec next p r = Done (e, r') /\ index r <= index r'.
Proof.
  intros Hnext. induction p as [err | f k IH | k IH | ns k IH | k IH]; intros r Hb; cbn.
  - eauto with lia.
  - destruct (IH (set_ctx (f (ctx r)) r)) as (e & r' & -> & Hi); [exact Hb |]. eauto.
  - apply IH. exact Hb.
  - destruct (IH (tick ns r)) as (e & r' & -> & Hi); [exact Hb |]. eauto.
  - destruct (Hnext r Hb) as (e1 & r1 & -> & Hi1).
    destruct (IH e1 r1) as (e & r' & -> & Hi); [lia |]. exists e, r'. split; [reflexivity | lia].
Qed.

Lemma invoke_done (bound : Z) (next : Run -> Outcome (error * Run)) (fn : Handler) :
  (forall r, bound <= index r ->
             exists e r', next r = Done (e, r') /\ index r <= index r') ->
  forall r, bound <= index r ->
            exists e r', invoke next fn r = Done (e, r') /\ index r <= index r'.
Proof.
  intros Hnext r Hb. unfold invoke.
  destruct (traceInfos r) as [infos |]; [| apply (exec_done bound); auto].
  destruct (String.eqb (fnName fn) "-"); [apply (exec_done bound); auto |].
  match goal with
  | |- context [exec next (fnBody fn) ?r1] =>
      destruct (exec_done bound next Hnext (fnBody fn) r1) as (e & r' & -> & Hi);
      [exact Hb |]
  end.
  eexists _, _. split; [reflexivity |]. cbn in *. lia.
Qed.

Lemma NextBody_done (next : Run -> Outcome (error * Run)) (r : Run) :
  -1 <= index r ->
  (index r + 1 < limit ->
   forall r1, index r + 1 <= index r1 ->
              exists e r', next r1 = Done (e, r') /\ index r1 <= index r') ->
  exists e r', NextBody d fs handlerList next r = Done (e, r') /\ index r <= index r'.
Proof.
  intros Hi Hnext. unfold NextBody.
  destruct (Committed (ctx r)); [eauto with lia |].
  destruct (limit <=? index (set_index (index r + 1) r)) eqn:Elim.
  { eexists _, _. split; [reflexivity |]. cbn. lia. }
  apply Z.leb_gt in Elim. cbn in Elim.
  destruct (validateLast d fs handlerList (set_index (index r + 1) r)) as [verr r2] eqn:Ev.
  destruct (validateLast_log _ _ _ Ev) as (lv & (_ & Hi2 & _) & _). cbn in Hi2.
  destruct verr as [ev |]; [eexists _, _; split; [reflexivity | lia] |].
  destruct (handlerAt_Some (index r2)) as [fn ->]; [lia |].
  destruct (invoke_done (index r + 1) next fn (Hnext Elim)
              (emit (EvHandler (index r2) (fnName fn)) r2)) as (e & r' & -> & Hi');
    [cbn; lia |].
  exists e, r'. split; [reflexivity |]. cbn in Hi'. lia.
Qed.

(** With fuel for the handlers that remain, the closure returns: it
    neither panics nor exhausts the fuel. *)
Lemma Next_fuel (fuel : nat) :
  forall r, -1 <= index r -> limit - index r - 1 <= Z.of_nat fuel ->
            exists e r', Next d fs handlerList (S fuel) r = Done (e, r')
                         /\ index r <= index r'.
Proof.
  induction fuel as [| fuel IH]; intros r Hi Hf; cbn [Next].
  - apply NextBody_done; [exact Hi |]. intros; lia.
  - apply NextBody_done; [exact Hi |].
    intros Hlt r1 Hr1. apply IH; lia.
Qed.

(** C3. For a chain of G global and R route handlers ([limit] is G+R):
    a call of [Next] on a committed response returns nil and changes
    nothing; a call when the cursor has reached the end returns nil
    and only moves the cursor; the handlers any call of [Next] invokes
    have indices beyond the cursor (none at or before it is invoked
    again) and below G+R, each once, in increasing order; and with the
    cursor in its range the call returns: it does not panic. *)
Theorem Next_extra_calls (fuel : nat) (r : Run) :
  (Committed (ctx r) = true ->
     Next d fs handlerList (S fuel) r = Done (None, r))
  /\ (Committed (ctx r) = false -> limit <= index r + 1 ->
     Next d fs handlerList (S fuel) r = Done (None, set_index (index r + 1) r))
  /\ (forall e r', Next d fs handlerList (S fuel) r = Done (e, r') ->
     exists l, log r' = log r ++ l
       /\ StronglySorted Z.lt (handlerIndices l)
       /\ Forall (fun i => index r < i < limit) (handlerIndices l))
  /\ (-1 <= index r -> limit - index r - 1 <= Z.of_nat fuel ->
     exists e r', Next d fs handlerList (S fuel) r = Done (e, r')).
Proof.
  split; [| split; [| split]].
  - intros Hc. cbn [Next]. unfold NextBody. rewrite Hc. reflexivity.
  - intros Hc Hend. cbn [Next]. unfold NextBody. rewrite Hc.
    replace (limit <=? index (set_index (index r + 1) r)) with true
      by (symmetry; apply Z.leb_le; cbn; lia).
    reflexivity.
  - intros e r' H. apply Next_advances in H.
    destruct H as (_ & _ & l & Hl & _ & Hs & Hb).
    exists l. repeat split; auto.
    eapply Forall_impl; [exact Hb |]. cbn. intros; lia.
  - intros Hi Hf. destruct (Next_fuel fuel r Hi Hf) as (e & r' & H & _). eauto.
Qed.

(** C4. When the next handler is the last one (index G+R-1), the
    response is not committed and validators are registered: if some
    validator registered for a bound parameter rejects its value,
    [Next] returns the error of such a validator, as the validator
    returned it, the Context is unchanged and no handler is invoked;
    if every such validator accepts, all of them are called, in the
    order of the parameters, then the last handler is invoked, and
    [Next] returns what that call returns. *)
Theorem Next_validates (fuel : nat) (r : Run) (vs : gmap string Validator) (fn : Handler) :
  Committed (ctx r) = false ->
  validators d = Some vs ->
  0 <= index r + 1 -> index r + 1 = limit - 1 ->
  handlerAt fs handlerList (limit - 1) = Some fn ->
  ((exists key value validate,
       (key, value) ∈ default [] (Params (ctx r))
       /\ vs !! key = Some validate /\ validate value <> None) ->
   exists e r' l key value validate,
     Next d fs handlerList (S fuel) r = Done (Some e, r')
     /\ (key, value) ∈ default [] (Params (ctx r))
     /\ vs !! key = Some validate /\ validate value = Some e
     /\ ctx r' = ctx r /\ log r' = log r ++ l /\ handlerIndices l = [])
  /\ ((forall key value validate,
       (key, value) ∈ default [] (Params (ctx r)) ->
       vs !! key = Some validate -> validate value = None) ->
   exists r1 e r' l,
     onlyLog (set_index (limit - 1) r) r1
       (validateEvents (matching vs (default [] (Params (ctx r))))
        ++ [EvHandler (limit - 1) (fnName fn)])
     /\ Next d fs handlerList (S (S fuel)) r = invoke (Next d fs handlerList (S fuel)) fn r1
     /\ Next d fs handlerList (S (S fuel)) r = Done (e, r')
     /\ log r' = log r1 ++ l /\ handlerIndices l = []).
Proof.
  intros Hc Hvs Hi Hlast Hfn.
  assert (Hbody : forall next,
            NextBody d fs handlerList next r =
            let '(verr, r2) :=
              runValidators vs (default [] (Params (ctx r))) (set_index (limit - 1) r) in
            match verr with
            | Some e => Done (Some e, r2)
            | None =>
                match handlerAt fs handlerList (index r2) with
                | Some fn => invoke next fn (emit (EvHandler (index r2) (fnName fn)) r2)
                | None => Panic
                end
            end).
  { intros next. unfold NextBody. rewrite Hc, Hlast.
    replace (limit <=? index (set_index (limit - 1) r)) with false
      by (symmetry; apply Z.leb_gt; cbn; lia).
    unfold validateLast. rewrite Hvs.
    replace (index (set_index (limit - 1) r) =? limit - 1) with true
      by (symmetry; apply Z.eqb_eq; reflexivity).
    reflexivity. }
  split.
  - intros Hbad.
    destruct (runValidators_fail vs _ Hbad (set_index (limit - 1) r))
      as (e & r' & l & key & value & validate & Hrun & Hlog & _ & Hh & Hin & Hk & Hv).
    exists e, r', l, key, value, validate.
    cbn [Next]. rewrite Hbody, Hrun.
    destruct Hlog as (Hctx & _ & _ & _ & _ & Hl). cbn in Hctx, Hl.
    repeat split; auto.
  - intros Hgood.
    destruct (runValidators_pass vs _ Hgood (set_index (limit - 1) r))
      as (r2 & Hrun & Hlog).
    assert (Hi2 : index r2 = limit - 1) by (destruct Hlog as (_ & -> & _); reflexivity).
    set (r1 := emit (EvHandler (limit - 1) (fnName fn)) r2).
    assert (Hnext : Next d fs handlerList (S (S fuel)) r
                    = invoke (Next d fs handlerList (S fuel)) fn r1).
    { cbn [Next]. rewrite Hbody, Hrun, Hi2, Hfn. reflexivity. }
    destruct (invoke_done (limit - 1) (Next d fs handlerList (S fuel)) fn) with (r := r1)
      as (e & r' & Hinv & _).
    { intros r0 Hr0. apply Next_fuel; lia. }
    { subst r1. cbn. lia. }
    pose proof (invoke_advances _ fn (Next_advances (S fuel)) _ _ _ Hinv)
      as (_ & _ & l & Hl & _ & _ & Hb).
    exists r1, e, r', l. split; [| split; [exact Hnext | split; [congruence | split; [exact Hl |]]]].
    + destruct Hlog as (? & ? & ? & ? & ? & Hl2). subst r1. unfold onlyLog. cbn in *.
      rewrite Hl2, <- app_assoc. repeat split; auto.
    + destruct (handlerIndices l) as [| i rest]; [reflexivity |].
      apply Forall_cons in Hb. destruct Hb as [Hb _]. subst r1. cbn in Hb. lia.
Qed.

End Chain.

Import Examples.

(** C3 on the chain A (global), B (route), where B calls [c.Next()]
    three times: on a committed run, at the end of the chain, and from
    the start (where it returns). *)
Lemma Next_extra_calls_witness :
  Next plainElton globalA [eager "B"] 3
       (set_ctx (set_Committed true (ctx (freshRun plainElton globalA [])))
                (freshRun plainElton globalA []))
  = Done (None, set_ctx (set_Committed true (ctx (freshRun plainElton globalA [])))
                        (freshRun plainElton globalA []))
  /\ Next plainElton globalA [eager "B"] 3 (set_index 1 (freshRun plainElton globalA []))
     = Done (None, set_index 2 (set_index 1 (freshRun plainElton globalA [])))
  /\ (exists e r', Next plainElton globalA [eager "B"] 3 (freshRun plainElton globalA [])
                   = Done (e, r')).
Proof.
  split; [| split].
  - apply (Next_extra_calls plainElton globalA [eager "B"] 2). reflexivity.
  - apply (Next_extra_calls plainElton globalA [eager "B"] 2
             (set_index 1 (freshRun plainElton globalA []))).
    + reflexivity.
    + vm_compute. discriminate.
  - apply (Next_extra_calls plainElton globalA [eager "B"] 2
             (freshRun plainElton globalA [])).
    + vm_compute. discriminate.
    + vm_compute. discriminate.
Defined.

(** The run of that chain: A and B are each invoked once, in order,
    and the extra calls of B only move the cursor. *)
Example extra_calls_run :
  match serve plainElton globalA [eager "B"] [] with
  | Done r => handlerIndices (log r) = [0; 1] /\ index r = 4
  | _ => False
  end.
Proof. vm_compute. split; reflexivity. Qed.

Lemma elem_of_one {A} (x y : A) : x ∈ [y] -> x = y.
Proof. intros H. apply list_elem_of_singleton in H. exact H. Qed.

(** C4 on the route /users/:id with the digits-only validator: with
    id bound to 42 the validator is called and then the handler; with
    id bound to ab the call returns the validator's error. *)
Lemma Next_validates_witness :
  (exists r1 e r' l,
      onlyLog (set_index 0 (freshRun validatingElton noGlobals [("id", "42")])) r1
        ([EvValidate "id" "42"] ++ [EvHandler 0 "showUser"])
      /\ Next validatingElton noGlobals [showUser] 2
              (freshRun validatingElton noGlobals [("id", "42")])
         = invoke (Next validatingElton noGlobals [showUser] 1) showUser r1
      /\ Next validatingElton noGlobals [showUser] 2
              (freshRun validatingElton noGlobals [("id", "42")]) = Done (e, r')
      /\ log r' = log r1 ++ l /\ handlerIndices l = [])
  /\ (exists e r' l key value validate,
      Next validatingElton noGlobals [showUser] 1
           (freshRun validatingElton noGlobals [("id", "ab")]) = Done (Some e, r')
      /\ (key, value) ∈ [("id", "ab")]
      /\ ({[ "id" := digitsOnly ]} : gmap string Validator) !! key = Some validate
      /\ validate value = Some e
      /\ ctx r' = ctx (freshRun validatingElton noGlobals [("id", "ab")])
      /\ log r' = log (freshRun validatingElton noGlobals [("id", "ab")]) ++ l
      /\ handlerIndices l = []).
Proof.
  split.
  - destruct (Next_validates validatingElton noGlobals [showUser] 0
                (freshRun validatingElton noGlobals [("id", "42")])
                {[ "id" := digitsOnly ]} showUser eq_refl eq_refl
                ltac:(vm_compute; discriminate) eq_refl eq_refl) as [_ Hpass].
    assert (Hgood : forall key value validate,
               (key, value) ∈ [("id", "42")] ->
               ({[ "id" := digitsOnly ]} : gmap string Validator) !! key = Some validate ->
               validate value = None).
    { intros key value validate Hin Hk.
      apply elem_of_one in Hin. injection Hin as -> ->.
      vm_compute in Hk. injection Hk as <-. reflexivity. }
    exact (Hpass Hgood).
  - destruct (Next_validates validatingElton noGlobals [showUser] 0
                (freshRun validatingElton noGlobals [("id", "ab")])
                {[ "id" := digitsOnly ]} showUser eq_refl eq_refl
                ltac:(vm_compute; discriminate) eq_refl eq_refl) as [Hfail _].
    assert (Hbad : exists key value validate,
               (key, value) ∈ [("id", "ab")]
               /\ ({[ "id" := digitsOnly ]} : gmap string Validator) !! key = Some validate
               /\ validate value <> None).
    { exists "id", "ab", digitsOnly.
      split; [apply list_elem_of_singleton; reflexivity |].
      split; [reflexivity | vm_compute; discriminate]. }
    exact (Hfail Hbad).
Defined.

(** The two requests of the scenario, served: for /users/42 the final
    handler runs (and sets the body); for /users/ab it never runs, and
    the validator's error reaches the error mapper. *)
Example validator_scenario :
  match serve validatingElton noGlobals [showUser] [("id", "42")] with
  | Done r => handlerIndices (log r) = [0] /\ Body (ctx r) = Some (PlainBody "user")
              /\ validated (log r) = [("id", "42")]
  | _ => False
  end
  /\ match Next validatingElton noGlobals [showUser] 2
                (freshRun validatingElton noGlobals [("id", "ab")]) with
     | Done (err, r) => err = Some errDigits /\ handlerIndices (log r) = []
     | _ => False
     end
  /\ match serve validatingElton noGlobals [showUser] [("id", "ab")] with
     | Done r => handlerIndices (log r) = [] /\ Body (ctx r) = None
                 /\ branches (log r) = [ErrorBranch]
     | _ => False
     end.
Proof. vm_compute. repeat split; reflexivity. Qed.

End DispatchFacts.

(** ** elton.go: the response finalizer *)

Module FinalizerFacts.
Import GoStrings Ctx Dispatch DispatchFacts.

(** *** Which branch runs *)

Section Finalizer.
Variables (d : Elton) (fs : Funcs) (env : Env) (handlerList : list Handler).

Local Abbreviation limit := (maxNext fs handlerList).

Lemma fold_listeners {L A} (P : Run -> Prop) (ev : Event) (arg : A)
    (call : L -> Context -> A -> Context) (lns : list L) :
  (forall r ln, P r -> P (set_ctx (call ln (ctx r) arg) (emit ev r))) ->
  forall r, P r ->
    P (fold_left (fun r ln => set_ctx (call ln (ctx r) arg) (emit ev r)) lns r).
Proof.
  intros Hstep. induction lns as [| ln lns IH]; intros r Hr; cbn; [exact Hr |].
  apply IH. apply Hstep. exact Hr.
Qed.

Lemma EmitError_branches (e : Error) (r : Run) :
  branches (log (EmitError fs e r)) = branches (log r)
  /\ traceInfos (EmitError fs e r) = traceInfos r.
Proof.
  unfold EmitError.
  apply (fold_listeners
           (fun r' => branches (log r') = branches (log r) /\ traceInfos r' = traceInfos r)
           (EvEmitError e) e (fun ln c a => ln c a)).
  - intros r0 ln [Hb Ht]. cbn. rewrite branches_app, Hb. cbn.
    rewrite app_nil_r. auto.
  - auto.
Qed.

Lemma EmitTrace_branches (infos : list Trace.TraceInfo) (r : Run) :
  branches (log (EmitTrace fs infos r)) = branches (log r)
  /\ traceInfos (EmitTrace fs infos r) = traceInfos r.
Proof.
  unfold EmitTrace.
  apply (fold_listeners
           (fun r' => branches (log r') = branches (log r) /\ traceInfos r' = traceInfos r)
           (EvEmitTrace infos) infos (fun ln c a => ln c a)).
  - intros r0 ln [Hb Ht]. cbn. rewrite branches_app, Hb. cbn.
    rewrite app_nil_r. auto.
  - auto.
Qed.

Lemma emitErrors_branches (err : error) (r : Run) :
  branches (log (emitErrors fs err r)) = branches (log r).
Proof.
  destruct err as [e |]; cbn; [apply EmitError_branches | reflexivity].
Qed.

Lemma emitTraces_branches (r : Run) :
  branches (log (emitTraces fs r)) = branches (log r).
Proof.
  unfold emitTraces. destruct (traceInfos r) as [infos |]; [| reflexivity].
  destruct (EmitTrace_branches (Trace.subtractPass infos)
              (set_traceInfos (Some (Trace.subtractPass infos)) r)) as [-> _].
  reflexivity.
Qed.

Lemma Error__branches (e : Error) (r r' : Run) :
  Error_ fs env e r = Done r' -> branches (log r') = branches (log r).
Proof.
  unfold Error_. cbn [ctx set_ctx].
  destruct (ErrorHandler fs) as [handle |].
  - intros [= <-]. cbn. rewrite branches_app. cbn. apply app_nil_r.
  - cbn [Response clearHeader fold_left set_Headers].
    destruct (Response (ctx r)); [| discriminate].
    destruct e; intros [= <-]; cbn; rewrite !branches_app; cbn; rewrite !app_nil_r;
      reflexivity.
Qed.

Lemma SetHeader_fields (key value : string) (c c' : Context) :
  SetHeader key value c = Some c' ->
  BodyBuffer c' = BodyBuffer c /\ Body c' = Body c /\ StatusCode c' = StatusCode c
  /\ Committed c' = Committed c /\ Response c' = Response c.
Proof.
  unfold SetHeader. destruct (nonEmpty value).
  - destruct (Headers c); [| discriminate]. intros [= <-]. repeat split.
  - intros [= <-]. repeat split.
Qed.

Lemma setContentLength_fields (r r' : Run) :
  setContentLength r = Done r' ->
  BodyBuffer (ctx r') = BodyBuffer (ctx r) /\ Body (ctx r') = Body (ctx r)
  /\ Committed (ctx r') = Committed (ctx r) /\ log r' = log r
  /\ traceInfos r' = traceInfos r.
Proof.
  unfold setContentLength. destruct (BodyBuffer (ctx r)) as [buf |] eqn:Hbuf.
  - destruct (SetHeader _ _ (ctx r)) as [c |] eqn:Hset; [| discriminate].
    apply SetHeader_fields in Hset. destruct Hset as (Hb & Hbody & _ & Hc & _).
    intros [= <-]. cbn. rewrite Hb, Hbuf. auto.
  - intros [= <-]. auto.
Qed.

Lemma writeStatus_fields (r : Run) :
  ctx (writeStatus r) = ctx r
  /\ branches (log (writeStatus r)) = branches (log r)
  /\ traceInfos (writeStatus r) = traceInfos r /\ flags (writeStatus r) = flags r.
Proof.
  unfold writeStatus. destruct (negb (StatusCode (ctx r) =? 0)); cbn; [| auto].
  rewrite branches_app. cbn. rewrite app_nil_r. auto.
Qed.

Lemma writeBody_branches (r r' : Run) :
  writeBody fs env r = Done r' ->
  branches (log r') = branches (log r) ++ [branchOf None (ctx r)].
Proof.
  unfold writeBody, branchOf, IsReaderBody.
  destruct (BodyBuffer (ctx r)) as [buf |].
  - destruct (respWrite env buf) as [responseErr |]; intros [= <-].
    + match goal with
      | |- branches (log (EmitError fs responseErr ?r0)) = _ =>
          destruct (EmitError_branches responseErr r0) as [-> _]
      end.
      cbn. rewrite !branches_app. cbn. rewrite app_nil_r. reflexivity.
    + cbn. rewrite !branches_app. cbn. rewrite app_nil_r. reflexivity.
  - destruct (Body (ctx r)) as [[content closer | v] |].
    + unfold Pipe. cbn [ctx set_ctx emit Response set_Committed].
      destruct (Response (ctx r)); [| discriminate].
      destruct (ioCopy env content) as [pipeErr |]; intros [= <-].
      * match goal with
        | |- branches (log (EmitError fs pipeErr ?r0)) = _ =>
            destruct (EmitError_branches pipeErr r0) as [-> _]
        end.
        cbn. rewrite !branches_app. cbn. rewrite app_nil_r. reflexivity.
      * cbn. rewrite !branches_app. cbn. rewrite app_nil_r. reflexivity.
    + intros [= <-]. cbn. rewrite branches_app. reflexivity.
    + intros [= <-]. cbn. rewrite branches_app. reflexivity.
Qed.

(** The finalizer runs the branch [branchOf] names when the response is
    not committed, and none when it is. *)
Lemma respond_branches (err : error) (r r' : Run) :
  respond fs env err r = Done r' ->
  branches (log r') =
  branches (log r) ++ (if Committed (ctx r) then [] else [branchOf err (ctx r)]).
Proof.
  unfold respond. destruct (Committed (ctx r)) eqn:Hc; cbn [negb].
  { intros [= <-]. rewrite app_nil_r. reflexivity. }
  destruct err as [e |].
  { intros H. apply Error__branches in H. rewrite H. cbn. apply branches_app. }
  destruct (setContentLength r) as [r1 | |] eqn:Hlen; try discriminate.
  apply setContentLength_fields in Hlen. destruct Hlen as (Hb & Hbody & _ & Hl & _).
  intros H. apply writeBody_branches in H.
  destruct (writeStatus_fields r1) as (Hctx & Hbr & _).
  rewrite H, Hbr, Hctx, Hl. unfold branchOf, IsReaderBody. rewrite Hb, Hbody. reflexivity.
Qed.

Lemma release_committed (r : Run) :
  Committed (ctx (release r)) = true
  /\ branches (log (release r)) = branches (log r)
  /\ traceInfos (release r) = traceInfos r.
Proof.
  unfold release. destruct (isReuse _); cbn; repeat split.
  rewrite branches_app. cbn. apply app_nil_r.
Qed.

(** Whatever the chain left behind, the end of the closure commits,
    and runs one branch of the finalizer or, on a committed response,
    none. *)
Lemma finalize_branches (err : error) (r r' : Run) :
  finalize fs env err r = Done r' ->
  Committed (ctx r') = true
  /\ branches (log r') =
     branches (log r)
     ++ (if Committed (ctx (emitErrors fs err r)) then []
         else [branchOf err (ctx (emitErrors fs err r))]).
Proof.
  unfold finalize.
  destruct (respond fs env err (emitErrors fs err r)) as [r1 | |] eqn:Hr; try discriminate.
  intros [= <-]. apply respond_branches in Hr.
  destruct (release_committed r1) as (Hc & Hb & _).
  split; [exact Hc |]. rewrite Hb, Hr, emitErrors_branches. reflexivity.
Qed.

(** *** The flag goes up once *)

Lemma risings_snoc (l : list bool) :
  forall prev b,
    risings prev (l ++ [b])
    = (risings prev l + (if negb (default prev (last l)) && b then 1 else 0))%nat.
Proof.
  induction l as [| x l IH]; intros prev b; cbn [app risings].
  - cbn. lia.
  - rewrite IH, last_cons. destruct (last l); cbn; lia.
Qed.

Lemma flagOnce_set_ctx (r : Run) (c' : Context) :
  flagOnce r -> (Committed (ctx r) = true -> Committed c' = true) ->
  flagOnce (set_ctx c' r).
Proof.
  intros [Hlast Hr] Hc. unfold flagOnce. cbn.
  split; [apply last_snoc |].
  rewrite risings_snoc, Hlast, Hr. cbn.
  destruct (Committed (ctx r)); [rewrite Hc by reflexivity; reflexivity |].
  destruct (Committed c'); reflexivity.
Qed.

Lemma flagOnce_same (r r' : Run) :
  flags r' = flags r -> ctx r' = ctx r -> flagOnce r -> flagOnce r'.
Proof. unfold flagOnce. intros -> ->. auto. Qed.

Lemma exec_flagOnce (next : Run -> Outcome (error * Run)) (p : Prog) :
  keepsFlag p ->
  (forall r e r', next r = Done (e, r') -> flagOnce r -> flagOnce r') ->
  forall r e r', exec next p r = Done (e, r') -> flagOnce r -> flagOnce r'.
Proof.
  intros Hp Hnext. induction Hp as [err | f k Hf _ IH | k _ IH | ns k _ IH | k _ IH];
    intros r e r' Hex Hr; cbn in Hex.
  - injection Hex as <- <-. exact Hr.
  - eapply IH; [exact Hex |]. apply flagOnce_set_ctx; [exact Hr | apply Hf].
  - eapply IH; eauto.
  - eapply IH; [exact Hex |]. eapply flagOnce_same; [| | exact Hr]; reflexivity.
  - destruct (next r) as [[e1 r1] | |] eqn:En; try discriminate.
    eapply IH; [exact Hex |]. eapply Hnext; eauto.
Qed.

Lemma invoke_flagOnce (next : Run -> Outcome (error * Run)) (fn : Handler) :
  keepsFlag (fnBody fn) ->
  (forall r e r', next r = Done (e, r') -> flagOnce r -> flagOnce r') ->
  forall r e r', invoke next fn r = Done (e, r') -> flagOnce r -> flagOnce r'.
Proof.
  intros Hp Hnext r e r' H Hr. unfold invoke in H.
  destruct (traceInfos r) as [infos |]; [| eapply exec_flagOnce; eauto].
  destruct (String.eqb (fnName fn) "-"); [eapply exec_flagOnce; eauto |].
  match type of H with
  | match exec next _ ?r1 with _ => _ end = _ =>
      destruct (exec next (fnBody fn) r1) as [[e1 r2] | |] eqn:Ex; try discriminate;
      apply (exec_flagOnce next _ Hp Hnext) in Ex;
      [| eapply flagOnce_same; [| | exact Hr]; reflexivity]
  end.
  injection H as <- <-. eapply flagOnce_same; [| | exact Ex]; reflexivity.
Qed.

Lemma handlerAt_elem (i : Z) (fn : Handler) :
  handlerAt fs handlerList i = Some fn -> fn ∈ Middlewares fs ++ handlerList.
Proof.
  unfold handlerAt, at_index, mids. intros H. apply elem_of_app.
  destruct (maxMid fs <=? i).
  - right. destruct (i - maxMid fs <? 0); [discriminate |].
    eapply list_elem_of_lookup_2; exact H.
  - left. destruct (i <? 0); [discriminate |].
    eapply list_elem_of_lookup_2; exact H.
Qed.

Lemma NextBody_flagOnce (next : Run -> Outcome (error * Run)) :
  Forall (fun fn => keepsFlag (fnBody fn)) (Middlewares fs ++ handlerList) ->
  (forall r e r', next r = Done (e, r') -> flagOnce r -> flagOnce r') ->
  forall r e r', NextBody d fs handlerList next r = Done (e, r') ->
                 flagOnce r -> flagOnce r'.
Proof.
  intros Hall Hnext r e r' H Hr. unfold NextBody in H.
  destruct (Committed (ctx r)); [injection H as <- <-; exact Hr |].
  destruct (limit <=? index (set_index (index r + 1) r)).
  { injection H as <- <-. eapply flagOnce_same; [| | exact Hr]; reflexivity. }
  destruct (validateLast d fs handlerList (set_index (index r + 1) r)) as [verr r2] eqn:Ev.
  destruct (validateLast_log _ _ _ _ _ _ Ev) as (lv & (Hc2 & _ & _ & _ & Hf2 & _) & _).
  assert (Hr2 : flagOnce r2) by (eapply flagOnce_same; [exact Hf2 | exact Hc2 | exact Hr]).
  destruct verr as [ev |]; [injection H as <- <-; exact Hr2 |].
  destruct (handlerAt fs handlerList (index r2)) as [fn |] eqn:Hfn; [| discriminate].
  apply handlerAt_elem in Hfn. rewrite Forall_forall in Hall.
  eapply invoke_flagOnce; [apply Hall; exact Hfn | exact Hnext | exact H |].
  eapply flagOnce_same; [| | exact Hr2]; reflexivity.
Qed.

Lemma Next_flagOnce (fuel : nat) :
  Forall (fun fn => keepsFlag (fnBody fn)) (Middlewares fs ++ handlerList) ->
  forall r e r', Next d fs handlerList fuel r = Done (e, r') -> flagOnce r -> flagOnce r'.
Proof.
  intros Hall. induction fuel as [| fuel IH]; intros r e r' H; cbn in H; [discriminate |].
  eapply NextBody_flagOnce; eauto.
Qed.

Lemma listeners_flagOnce {A} (ev : Event) (arg : A)
    (lns : list (Context -> A -> Context)) :
  Forall (fun ln => forall a, sticky (fun c => ln c a)) lns ->
  forall r, flagOnce r ->
    flagOnce (fold_left (fun r ln => set_ctx (ln (ctx r) arg) (emit ev r)) lns r).
Proof.
  induction 1 as [| ln lns Hln _ IH]; intros r Hr; cbn; [exact Hr |].
  apply IH. apply flagOnce_set_ctx.
  - eapply flagOnce_same; [| | exact Hr]; reflexivity.
  - cbn. exact (Hln arg _).
Qed.

Lemma finalize_flagOnce (err : error) (r r' : Run) :
  stickyFuncs fs handlerList ->
  finalize fs env err r = Done r' -> flagOnce r -> flagOnce r'.
Proof.
  intros (_ & Hhandle & Herrs & _) H Hr.
  assert (Hemit : forall e r0, flagOnce r0 -> flagOnce (EmitError fs e r0)).
  { intros e r0. apply listeners_flagOnce. exact Herrs. }
  unfold finalize in H.
  destruct (respond fs env err (emitErrors fs err r)) as [r1 | |] eqn:Hresp; try discriminate.
  injection H as <-.
  assert (Hr0 : flagOnce (emitErrors fs err r)).
  { destruct err as [e |]; cbn; [apply Hemit |]; exact Hr. }
  assert (Hr1 : flagOnce r1).
  { revert Hresp Hr0. generalize (emitErrors fs err r). intros r0 Hresp Hr0.
    unfold respond in Hresp.
    destruct (negb (Committed (ctx r0))); [| injection Hresp as <-; exact Hr0].
    destruct err as [e |].
    - unfold Error_ in Hresp. cbn [ctx set_ctx emit] in Hresp.
      match type of Hresp with
      | context [set_ctx ?c0 (emit ?ev r0)] =>
          assert (Hcl : flagOnce (set_ctx c0 (emit ev r0)))
            by (apply flagOnce_set_ctx;
                [eapply flagOnce_same; [| | exact Hr0]; reflexivity | cbn; auto])
      end.
      destruct (ErrorHandler fs) as [handle |] eqn:Hh.
      + injection Hresp as <-. apply flagOnce_set_ctx.
        * eapply flagOnce_same; [| | exact Hcl]; reflexivity.
        * cbn. intros Hc0. refine (Hhandle handle eq_refl e _ _). exact Hc0.
      + cbn [Response clearHeader fold_left set_Headers] in Hresp.
        destruct (Response (ctx r0)); [| discriminate].
        destruct e; injection Hresp as <-;
          (eapply flagOnce_same; [| | exact Hcl]; reflexivity).
    - destruct (setContentLength r0) as [r2 | |] eqn:Hlen; try discriminate.
      assert (Hr2 : flagOnce r2).
      { unfold setContentLength in Hlen. destruct (BodyBuffer (ctx r0)).
        - destruct (SetHeader _ _ (ctx r0)) as [c |] eqn:Hset; [| discriminate].
          injection Hlen as <-. apply flagOnce_set_ctx; [exact Hr0 |].
          apply SetHeader_fields in Hset. destruct Hset as (_ & _ & _ & -> & _). auto.
        - injection Hlen as <-. exact Hr0. }
      assert (Hr3 : flagOnce (writeStatus r2)).
      { destruct (writeStatus_fields r2) as (Hctx & _ & _ & Hfl).
        eapply flagOnce_same; [exact Hfl | exact Hctx | exact Hr2]. }
      revert Hresp Hr3. generalize (writeStatus r2). intros r3 Hresp Hr3.
      unfold writeBody in Hresp.
      destruct (BodyBuffer (ctx r3)) as [buf |].
      + assert (Hw : flagOnce (emit (EvWrite buf) (emit (EvBranch BufferBranch) r3)))
          by (eapply flagOnce_same; [| | exact Hr3]; reflexivity).
        destruct (respWrite env buf); injection Hresp as <-; auto.
      + destruct (Body (ctx r3)) as [[content closer | v] |].
        * unfold Pipe in Hresp. cbn [ctx set_ctx emit Response set_Committed] in Hresp.
          destruct (Response (ctx r3)); [| discriminate].
          match type of Hresp with
          | context [emit (EvPipe content closer) ?r4] =>
              assert (Hp : flagOnce (emit (EvPipe content closer) r4))
                by (eapply flagOnce_same;
                    [| | apply (flagOnce_set_ctx (emit (EvBranch ReaderBranch) r3)
                                  (set_Committed true (ctx r3)));
                         [eapply flagOnce_same; [| | exact Hr3]; reflexivity | reflexivity]];
                    reflexivity)
          end.
          destruct (ioCopy env content); injection Hresp as <-; auto.
        * injection Hresp as <-. eapply flagOnce_same; [| | exact Hr3]; reflexivity.
        * injection Hresp as <-. eapply flagOnce_same; [| | exact Hr3]; reflexivity. }
  unfold release.
  assert (Hrel : flagOnce (set_ctx (set_Committed true (ctx r1)) r1))
    by (apply flagOnce_set_ctx; [exact Hr1 | reflexivity]).
  destruct (isReuse _); [eapply flagOnce_same; [| | exact Hrel]; reflexivity | exact Hrel].
Qed.

Lemma emitTraces_flagOnce (r : Run) :
  stickyFuncs fs handlerList -> flagOnce r -> flagOnce (emitTraces fs r).
Proof.
  intros (_ & _ & _ & Htr) Hr. unfold emitTraces.
  destruct (traceInfos r) as [infos |]; [| exact Hr].
  apply listeners_flagOnce; [exact Htr |].
  eapply flagOnce_same; [| | exact Hr]; reflexivity.
Qed.

(** *** The closure returns *)

(** The finalizer returns when the Context still has its response
    writer and its header map. *)
Lemma respond_done (err : error) (r : Run) :
  Response (ctx r) <> None -> Headers (ctx r) <> None ->
  exists r', respond fs env err r = Done r'.
Proof.
  intros Hresp Hhdr. unfold respond.
  destruct (negb (Committed (ctx r))); [| eauto].
  destruct err as [e |].
  - unfold Error_. cbn [ctx set_ctx emit].
    destruct (ErrorHandler fs); [eauto |].
    cbn [Response clearHeader fold_left set_Headers].
    destruct (Response (ctx r)); [| congruence].
    destruct e; eauto.
  - assert (Hlen : exists r1, setContentLength r = Done r1
                              /\ Response (ctx r1) = Response (ctx r)).
    { unfold setContentLength. destruct (BodyBuffer (ctx r)) as [buf |]; [| eauto].
      unfold SetHeader. destruct (Headers (ctx r)) as [h |]; [| congruence].
      destruct (nonEmpty _); eexists; split; reflexivity. }
    destruct Hlen as (r1 & -> & Hr1).
    destruct (writeStatus_fields r1) as (Hctx & _).
    unfold writeBody. rewrite Hctx.
    destruct (BodyBuffer (ctx r1)) as [buf |].
    + destruct (respWrite env buf); eauto.
    + destruct (Body (ctx r1)) as [[content closer | v] |]; eauto.
      unfold Pipe. cbn [ctx set_ctx emit Response set_Committed]. rewrite Hctx, Hr1.
      destruct (Response (ctx r)); [| congruence].
      destruct (ioCopy env content); eauto.
Qed.

(** The chain of a request always returns; and the closure returns
    when, the chain and the listeners done, the Context still has its
    response writer and its header map. *)
Theorem dispatch_returns (path : string) (resp : ResponseWriter) (req : http_Request)
    (params : list (string * string)) (pooled : Context) (now : Z) :
  exists err r1,
    Next d fs handlerList (S (Z.to_nat limit))
         (initial d fs path resp req params pooled now) = Done (err, r1)
    /\ (Response (ctx (emitErrors fs err (emitTraces fs r1))) <> None ->
        Headers (ctx (emitErrors fs err (emitTraces fs r1))) <> None ->
        exists r', dispatch d fs env handlerList path resp req params pooled now = Done r').
Proof.
  destruct (Next_fuel d fs handlerList (Z.to_nat limit)
              (initial d fs path resp req params pooled now)) as (err & r1 & Hchain & _).
  { cbn. lia. }
  { cbn. unfold maxNext, maxMid, len. lia. }
  exists err, r1. split; [exact Hchain |].
  intros Hresp Hhdr. unfold dispatch, afterChain, finalize. rewrite Hchain.
  destruct (respond_done err _ Hresp Hhdr) as (r2 & ->). eauto.
Qed.

(** C2 (amended). When the closure that serves a request returns, the
    Context is committed.  The finalizer runs exactly one of its four
    branches (the one [branchOf] names) when the response is not yet
    committed once the chain and the listeners are done, and none when
    it is: so at most one branch runs per request.  And when no handler,
    listener or error handler ever clears the flag, the flag goes
    from false to true exactly once in the request. *)
Theorem dispatch_commits (path : string) (resp : ResponseWriter) (req : http_Request)
    (params : list (string * string)) (pooled : Context) (now : Z) (r' : Run) :
  dispatch d fs env handlerList path resp req params pooled now = Done r' ->
  Committed (ctx r') = true
  /\ (exists err r1,
        Next d fs handlerList (S (Z.to_nat limit))
             (initial d fs path resp req params pooled now) = Done (err, r1)
        /\ branches (log r') =
           if Committed (ctx (emitErrors fs err (emitTraces fs r1))) then []
           else [branchOf err (ctx (emitErrors fs err (emitTraces fs r1)))])
  /\ (length (branches (log r')) <= 1)%nat
  /\ (stickyFuncs fs handlerList -> risings false (flags r') = 1%nat).
Proof.
  unfold dispatch, afterChain. intros H.
  destruct (Next d fs handlerList (S (Z.to_nat limit))
              (initial d fs path resp req params pooled now)) as [[err r1] | |] eqn:Hchain;
    try discriminate.
  pose proof (finalize_branches err _ _ H) as [Hc Hb].
  assert (Hchainlog : branches (log r1) = []).
  { apply Next_advances in Hchain. destruct Hchain as (_ & _ & l & Hl & Hch & _).
    rewrite Hl. cbn. apply branches_chain. exact Hch. }
  rewrite emitTraces_branches, Hchainlog in Hb. cbn [app] in Hb.
  split; [exact Hc |]. split; [exists err, r1; split; [reflexivity | exact Hb] |].
  split.
  - rewrite Hb. destruct (Committed (ctx (emitErrors fs err (emitTraces fs r1)))); cbn; lia.
  - intros Hsticky.
    assert (H0 : flagOnce (initial d fs path resp req params pooled now)).
    { unfold flagOnce, initial. cbn [flags ctx last]. split; [reflexivity |].
      match goal with
      | |- context [Committed ?c] =>
          assert (Hinit : Committed c = false)
            by (destruct (negb (len params =? 0)), (GenerateID fs); reflexivity)
      end.
      rewrite Hinit. reflexivity. }
    assert (H1 : flagOnce r1).
    { eapply Next_flagOnce; [apply Hsticky | exact Hchain | exact H0]. }
    assert (H2 : flagOnce r').
    { eapply finalize_flagOnce; [exact Hsticky | exact H |].
      apply emitTraces_flagOnce; assumption. }
    destruct H2 as [_ Hr]. rewrite Hc in Hr. exact Hr.
Qed.

End Finalizer.

Import Examples.

Lemma sticky_id_like (f : Context -> Context) :
  (forall c, Committed (f c) = Committed c) -> sticky f.
Proof. intros Hf c Hc. rewrite Hf. exact Hc. Qed.

(** C2 on the request /users/42 of the validator scenario: the closure
    returns, the Context is committed, one branch ran, and the flag
    went up once. *)
Lemma dispatch_commits_witness :
  exists r',
    dispatch validatingElton noGlobals quietEnv [showUser] "/" recorder
             (request_with []) [("id", "42")] zeroContext 0 = Done r'
    /\ Committed (ctx r') = true
    /\ (length (branches (log r')) <= 1)%nat
    /\ risings false (flags r') = 1%nat.
Proof.
  assert (E : exists r',
             dispatch validatingElton noGlobals quietEnv [showUser] "/" recorder
                      (request_with []) [("id", "42")] zeroContext 0 = Done r')
    by (eexists; vm_compute; reflexivity).
  destruct E as [r' E]. exists r'. split; [exact E |].
  destruct (dispatch_commits validatingElton noGlobals quietEnv [showUser] "/" recorder
              (request_with []) [("id", "42")] zeroContext 0 r' E)
    as (Hc & _ & Hlen & Hflag).
  split; [exact Hc |]. split; [exact Hlen |].
  apply Hflag. unfold stickyFuncs. cbn. split; [| split; [discriminate | split; constructor]].
  repeat constructor. apply sticky_id_like. reflexivity.
Defined.

(** C2 as stated fails.  When a handler has committed the response
    (as [Redirect] does), no branch of the finalizer runs: not exactly
    one.  And a handler that sets the flag and clears it again makes
    the flag go up twice in one request, the second time in the
    finalizer. *)
Lemma dispatch_commits_counterexample :
  match serve plainElton noGlobals [committing] [] with
  | Done r' => branches (log r') = [] /\ Committed (ctx r') = true
  | _ => False
  end
  /\ match serve plainElton noGlobals [toggling] [] with
     | Done r' => risings false (flags r') = 2%nat /\ branches (log r') = [StatusBranch]
     | _ => False
     end.
Proof. vm_compute. repeat split; reflexivity. Qed.

(** [dispatch_returns] on the request /users/42 of the validator
    scenario: the chain returns, and so does the closure. *)
Lemma dispatch_returns_witness :
  exists err r1,
    Next validatingElton noGlobals [showUser]
         (S (Z.to_nat (maxNext noGlobals [showUser])))
         (initial validatingElton noGlobals "/" recorder (request_with [])
                  [("id", "42")] zeroContext 0) = Done (err, r1)
    /\ exists r',
        dispatch validatingElton noGlobals quietEnv [showUser] "/" recorder
                 (request_with []) [("id", "42")] zeroContext 0 = Done r'.
Proof.
  destruct (dispatch_returns validatingElton noGlobals quietEnv [showUser] "/" recorder
              (request_with []) [("id", "42")] zeroContext 0)
    as (err & r1 & Hchain & Hdone).
  exists err, r1. split; [exact Hchain |].
  vm_compute in Hchain. injection Hchain as <- <-.
  apply Hdone; vm_compute; discriminate.
Defined.

End FinalizerFacts.

(** ** elton.go: trace records of a run *)

Module TraceRunFacts.
Import GoStrings Ctx Dispatch DispatchFacts.
Import Trace.

(** *** The subtraction pass *)

(** The self times add up to the first record's raw duration. *)
Lemma subtractPass_sum (rest : list TraceInfo) :
  forall t, sumZ (durations (subtractPass (t :: rest))) = Duration t.
Proof.
  induction rest as [| next rest IH]; intros t.
  - cbn. lia.
  - change (subtractPass (t :: next :: rest))
      with (set_Duration (Duration t - Duration next) t :: subtractPass (next :: rest)).
    change (sumZ (durations (?x :: ?l))) with (Duration x + sumZ (durations l)).
    cbn [durations map sumZ fold_right]. fold (durations (subtractPass (next :: rest))).
    fold (sumZ (durations (subtractPass (next :: rest)))).
    rewrite IH. cbn. lia.
Qed.

Lemma descending_weaken (ds : list Z) (b b' : Z) :
  descending b ds -> b <= b' -> descending b' ds.
Proof. destruct ds as [| x rest]; cbn; [auto |]. intros [Hx Hrest] Hb. split; [lia | exact Hrest]. Qed.

(** Nested raw durations give self times that are not negative. *)
Lemma subtractPass_nonneg (infos : list TraceInfo) :
  forall b, descending b (durations infos) ->
            Forall (fun x => 0 <= x) (durations (subtractPass infos)).
Proof.
  induction infos as [| t rest IH]; intros b Hd; [constructor |].
  destruct rest as [| next rest'].
  - cbn in *. constructor; [lia | constructor].
  - change (subtractPass (t :: next :: rest'))
      with (set_Duration (Duration t - Duration next) t :: subtractPass (next :: rest')).
    cbn [durations map] in *. destruct Hd as [Ht Hrest].
    constructor.
    + cbn. destruct Hrest as [Hn _]. lia.
    + apply (IH (Duration t)). exact Hrest.
Qed.

Lemma setDurationAt_middle (a b : list TraceInfo) (x : TraceInfo) (D : Z) :
  setDurationAt (length a) D (a ++ x :: b) = a ++ set_Duration D x :: b.
Proof.
  unfold setDurationAt. rewrite list_lookup_middle by reflexivity.
  rewrite insert_app_r_alt by lia. rewrite Nat.sub_diag. reflexivity.
Qed.

(** *** Records of nested calls *)

Lemma nests_refl (r : Run) : nests r r.
Proof.
  split; [lia |]. intros infos H. exists []. rewrite app_nil_r. split; [exact H | exact I].
Qed.

Lemma nests_before (r r1 r' : Run) :
  traceInfos r1 = traceInfos r -> clock r <= clock r1 -> nests r1 r' -> nests r r'.
Proof.
  intros Ht Hc [Hc1 Hn]. split; [lia |]. intros infos Hi. rewrite <- Ht in Hi.
  destruct (Hn infos Hi) as (new & Hnew & Hd). exists new. split; [exact Hnew |].
  eapply descending_weaken; [exact Hd | lia].
Qed.

Lemma nests_after (r r1 r' : Run) :
  nests r r1 -> traceInfos r' = traceInfos r1 -> clock r1 <= clock r' -> nests r r'.
Proof.
  intros [Hc1 Hn] Ht Hc. split; [lia |]. intros infos Hi.
  destruct (Hn infos Hi) as (new & Hnew & Hd). exists new. rewrite Ht. split; [exact Hnew |].
  eapply descending_weaken; [exact Hd | lia].
Qed.

(** A body that does not call [c.Next()] adds no record. *)
Lemma exec_noNext (next : Run -> Outcome (error * Run)) (p : Prog) :
  noNext p ->
  forall r e r', exec next p r = Done (e, r') ->
                 traceInfos r' = traceInfos r /\ clock r <= clock r'.
Proof.
  induction 1 as [err | f k _ IH | k _ IH | ns k _ IH]; intros r e r' Hex; cbn in Hex.
  - injection Hex as <- <-. split; [reflexivity | lia].
  - apply IH in Hex. cbn in Hex. exact Hex.
  - apply IH in Hex. exact Hex.
  - apply IH in Hex. cbn in Hex. destruct Hex as [Ht Hc]. split; [exact Ht | lia].
Qed.

(** A body that calls [c.Next()] at most once adds the records of that
    call, nested in the time the body takes. *)
Lemma exec_nests (next : Run -> Outcome (error * Run)) (p : Prog) :
  nextOnce p ->
  (forall r e r', next r = Done (e, r') -> nests r r') ->
  forall r e r', exec next p r = Done (e, r') -> nests r r'.
Proof.
  intros Hp Hnext. induction Hp as [err | f k _ IH | k _ IH | ns k _ IH | k Hk];
    intros r e r' Hex; cbn in Hex.
  - injection Hex as <- <-. apply nests_refl.
  - apply IH in Hex. eapply nests_before; [| | exact Hex]; cbn; reflexivity || lia.
  - apply IH in Hex. exact Hex.
  - apply IH in Hex. eapply nests_before; [| | exact Hex]; cbn; reflexivity || lia.
  - destruct (next r) as [[e1 r1] | |] eqn:En; try discriminate.
    apply Hnext in En. apply (exec_noNext next _ (Hk e1)) in Hex.
    destruct Hex as [Ht Hc]. eapply nests_after; eauto.
Qed.

Section Traced.
Variables (d : Elton) (fs : Funcs) (handlerList : list Handler).

Local Abbreviation limit := (maxNext fs handlerList).

Lemma invoke_nests (next : Run -> Outcome (error * Run)) (fn : Handler) :
  nextOnce (fnBody fn) ->
  (forall r e r', next r = Done (e, r') -> nests r r') ->
  forall r e r', invoke next fn r = Done (e, r') -> nests r r'.
Proof.
  intros Hp Hnext r e r' H. unfold invoke in H.
  destruct (traceInfos r) as [infos |] eqn:Hinfos; [| eapply exec_nests; eauto].
  destruct (String.eqb (fnName fn) "-"); [eapply exec_nests; eauto |].
  match type of H with
  | match exec next _ ?r1 with _ => _ end = _ =>
      destruct (exec next (fnBody fn) r1) as [[e1 r2] | |] eqn:Ex; try discriminate;
      apply (exec_nests next _ Hp Hnext) in Ex
  end.
  injection H as <- <-. destruct Ex as [Hc Hn]. cbn in Hc.
  destruct (Hn _ eq_refl) as (new & Hnew & Hd). cbn in Hd.
  split; [cbn; lia |].
  intros infos0 Hi0. rewrite Hinfos in Hi0. injection Hi0 as <-.
  cbn [traceInfos set_traceInfos clock]. rewrite Hnew. cbn [fmap option_fmap option_map].
  rewrite <- app_assoc. cbn [app]. rewrite setDurationAt_middle.
  eexists. split; [reflexivity |].
  cbn. split; [lia | exact Hd].
Qed.

Lemma NextBody_nests (next : Run -> Outcome (error * Run)) :
  Forall (fun fn => nextOnce (fnBody fn)) (Middlewares fs ++ handlerList) ->
  (forall r e r', next r = Done (e, r') -> nests r r') ->
  forall r e r', NextBody d fs handlerList next r = Done (e, r') -> nests r r'.
Proof.
  intros Hall Hnext r e r' H. unfold NextBody in H.
  destruct (Committed (ctx r)); [injection H as <- <-; apply nests_refl |].
  destruct (limit <=? index (set_index (index r + 1) r)).
  { injection H as <- <-. eapply nests_after; [apply nests_refl | |]; cbn; reflexivity || lia. }
  destruct (validateLast d fs handlerList (set_index (index r + 1) r)) as [verr r2] eqn:Ev.
  destruct (validateLast_log _ _ _ _ _ _ Ev) as (lv & (_ & _ & Ht2 & Hc2 & _) & _).
  cbn in Ht2, Hc2.
  destruct verr as [ev |].
  { injection H as <- <-. eapply nests_after; [apply nests_refl | exact Ht2 | lia]. }
  destruct (handlerAt fs handlerList (index r2)) as [fn |] eqn:Hfn; [| discriminate].
  apply FinalizerFacts.handlerAt_elem in Hfn. rewrite Forall_forall in Hall.
  apply (invoke_nests next fn (Hall _ Hfn) Hnext) in H.
  eapply nests_before; [| | exact H]; cbn; [exact Ht2 | lia].
Qed.

Lemma Next_nests (fuel : nat) :
  Forall (fun fn => nextOnce (fnBody fn)) (Middlewares fs ++ handlerList) ->
  forall r e r', Next d fs handlerList fuel r = Done (e, r') -> nests r r'.
Proof.
  intros Hall. induction fuel as [| fuel IH]; intros r e r' H; cbn in H; [discriminate |].
  eapply NextBody_nests; eauto.
Qed.

(** C5 (amended). The subtraction pass turns any non-empty sequence of
    records into self times whose sum is the first record's raw
    duration.  And for a traced chain each of whose handlers calls
    [c.Next()] at most once, the chain returns with records that are
    nested (each raw duration is non-negative and at least the next
    one), the pass hands their self times to the listeners, and no
    self time is negative. *)
Theorem selfTimes (path : string) (resp : ResponseWriter) (req : http_Request)
    (params : list (string * string)) (pooled : Context) (now : Z) :
  (forall t rest, sumZ (durations (subtractPass (t :: rest))) = Duration t)
  /\ (EnableTrace d = true ->
      Forall (fun fn => nextOnce (fnBody fn)) (Middlewares fs ++ handlerList) ->
      exists err r1 raw,
        Next d fs handlerList (S (Z.to_nat limit))
             (initial d fs path resp req params pooled now) = Done (err, r1)
        /\ traceInfos r1 = Some raw
        /\ traceInfos (emitTraces fs r1) = Some (subtractPass raw)
        /\ descending (clock r1 - now) (durations raw)
        /\ Forall (fun x => 0 <= x) (durations (subtractPass raw))).
Proof.
  split; [intros t rest; apply subtractPass_sum |].
  intros Htrace Hall.
  destruct (Next_fuel d fs handlerList (Z.to_nat limit)
              (initial d fs path resp req params pooled now)) as (err & r1 & Hchain & _).
  { cbn. lia. }
  { cbn. unfold maxNext, maxMid, len. lia. }
  pose proof (Next_nests _ Hall _ _ _ Hchain) as [_ Hn].
  destruct (Hn [] ) as (raw & Hraw & Hd).
  { cbn. rewrite Htrace. reflexivity. }
  cbn [app] in Hraw. cbn [clock initial] in Hd.
  exists err, r1, raw. split; [exact Hchain |]. split; [exact Hraw |].
  split; [| split; [exact Hd | eapply subtractPass_nonneg; exact Hd]].
  unfold emitTraces. rewrite Hraw.
  destruct (FinalizerFacts.EmitTrace_branches fs (subtractPass raw)
              (set_traceInfos (Some (subtractPass raw)) r1)) as [_ ->].
  reflexivity.
Qed.

End Traced.

Import Examples.

(** C5 on the chain A, B, C where A works for 1, B for 2 and C for 7
    nanoseconds, A and B passing on once: the raw durations 10, 9, 7
    give the self times 1, 2, 7. *)
Lemma selfTimes_witness :
  (forall t rest, sumZ (durations (subtractPass (t :: rest))) = Duration t)
  /\ exists err r1 raw,
      Next tracedElton noGlobals [workThenNext "A" 1; workThenNext "B" 2; worker "C" 7] 4
           (freshRun tracedElton noGlobals []) = Done (err, r1)
      /\ traceInfos r1 = Some raw
      /\ traceInfos (emitTraces noGlobals r1) = Some (subtractPass raw)
      /\ descending (clock r1 - 0) (durations raw)
      /\ Forall (fun x => 0 <= x) (durations (subtractPass raw)).
Proof.
  destruct (selfTimes tracedElton noGlobals
              [workThenNext "A" 1; workThenNext "B" 2; worker "C" 7]
              "/" recorder (request_with []) [] zeroContext 0) as [Hsum Hrun].
  split; [exact Hsum |].
  apply Hrun; [reflexivity |].
  repeat constructor.
Defined.

Example selfTimes_run :
  match serve tracedElton noGlobals [workThenNext "A" 1; workThenNext "B" 2; worker "C" 7] [] with
  | Done r' => durations <$> traceInfos r' = Some [1; 2; 7]
  | _ => False
  end.
Proof. vm_compute. reflexivity. Qed.

(** C5 as stated fails: in the traced chain A, B, C (no skip
    sentinel) where A calls [c.Next()] twice, B works for 2 and C for
    7 nanoseconds, the records of B and C are not nested, and the
    pass gives B the self time -5. *)
Lemma selfTimes_counterexample :
  match serve tracedElton noGlobals [twice "A"; worker "B" 2; worker "C" 7] [] with
  | Done r' => durations <$> traceInfos r' = Some [7; -5; 7]
  | _ => False
  end
  /\ match Next tracedElton noGlobals [twice "A"; worker "B" 2; worker "C" 7] 4
                (freshRun tracedElton noGlobals []) with
     | Done (_, r1) => durations <$> traceInfos r1 = Some [9; 2; 7]
     | _ => False
     end.
Proof. vm_compute. split; reflexivity. Qed.

End TraceRunFacts.

Module GoNetFacts.
Import GoNet PrivateRanges.

(** A check that holds of each of the 256 byte values holds of every byte. *)
Lemma each_byte (P : Z -> bool) :
  forallb P (map Z.of_nat (seq 0 256)) = true ->
  forall b, 0 <= b < 256 -> P b = true.
Proof.
  intros Hall b Hb. rewrite forallb_forall in Hall. apply Hall.
  rewrite <- (Z2Nat.id b) by lia. apply in_map. apply in_seq. lia.
Qed.

Lemma IsPrivateIP_low_bytes (a b c d : Z) :
  IsPrivateIP [a; b; c; d] = IsPrivateIP [a; b; 0; 0].
Proof.
  unfold IsPrivateIP, privateIPBlocks, Contains. cbn.
  rewrite !Z.land_0_r. reflexivity.
Qed.

Lemma IsPrivateIP_high_bytes (a b : Z) :
  0 <= a < 256 -> 0 <= b < 256 -> IsPrivateIP [a; b; 0; 0] = privateV4 a b.
Proof.
  intros Ha Hb. apply Bool.eqb_prop.
  refine (each_byte (fun b => Bool.eqb (IsPrivateIP [a; b; 0; 0]) (privateV4 a b)) _ b Hb).
  refine (each_byte (fun a => forallb (fun b => Bool.eqb (IsPrivateIP [a; b; 0; 0]) (privateV4 a b))
                                 (map Z.of_nat (seq 0 256))) _ a Ha).
  vm_compute. reflexivity.
Qed.

Lemma To4_IPv4 (a b c d : Z) : To4 (IPv4 a b c d) = [a; b; c; d].
Proof. reflexivity. Qed.

(** Which IPv4 addresses are private.  For an address a.b.c.d, given
    as 4 bytes or as the 16 bytes of its IPv4-in-IPv6 form:
    [IsPrivateIP] holds exactly for 127.x.x.x, 10.x.x.x, 172.16.x.x to
    172.31.x.x and 192.168.x.x. *)
Theorem IsPrivateIP_IPv4 (a b c d : Z) :
  0 <= a < 256 -> 0 <= b < 256 ->
  IsPrivateIP [a; b; c; d] = privateV4 a b
  /\ IsPrivateIP (IPv4 a b c d) = privateV4 a b.
Proof.
  intros Ha Hb.
  assert (H4 : IsPrivateIP [a; b; c; d] = privateV4 a b).
  { rewrite IsPrivateIP_low_bytes. apply IsPrivateIP_high_bytes; assumption. }
  split; [exact H4 |].
  rewrite <- H4. reflexivity.
Qed.

Lemma land_255 (x : Z) : 0 <= x < 256 -> Z.land x 255 = x.
Proof.
  intros Hx. apply Z.eqb_eq.
  apply (each_byte (fun x => Z.land x 255 =? x)); [vm_compute; reflexivity | exact Hx].
Qed.

Lemma land_192 (x : Z) : 0 <= x < 256 -> (128 =? Z.land x 192) = (128 <=? x) && (x <=? 191).
Proof.
  intros Hx. apply Bool.eqb_prop.
  apply (each_byte (fun x => Bool.eqb (128 =? Z.land x 192) ((128 <=? x) && (x <=? 191))));
    [vm_compute; reflexivity | exact Hx].
Qed.

Lemma land_254 (x : Z) : 0 <= x < 256 -> (252 =? Z.land x 254) = (252 <=? x) && (x <=? 253).
Proof.
  intros Hx. apply Bool.eqb_prop.
  apply (each_byte (fun x => Bool.eqb (252 =? Z.land x 254) ((252 <=? x) && (x <=? 253))));
    [vm_compute; reflexivity | exact Hx].
Qed.

Lemma IsPrivateIP_IPv6 (ip : IP) :
  length ip = 16%nat -> Forall (fun x => 0 <= x < 256) ip -> To4 ip = [] ->
  IsPrivateIP ip = privateV6 ip.
Proof.
  intros Hlen Hbytes H4.
  do 16 (destruct ip as [| ? ip]; [discriminate |]).
  destruct ip; [| discriminate]. clear Hlen.
  repeat match goal with H : Forall _ (_ :: _) |- _ => apply Forall_cons in H as [? H] end.
  unfold IsPrivateIP, privateIPBlocks, Contains. rewrite H4.
  cbn [existsb netIP Mask length Nat.eqb negb repeat app orb].
  change (CIDRMask 128 16) with (repeat 255 16).
  change (CIDRMask 10 16) with ([255; 192] ++ repeat 0 14).
  change (CIDRMask 7 16) with ([254] ++ repeat 0 15).
  cbn [sameUnderMask repeat app].
  rewrite !Z.land_0_r, !land_255 by (assumption || lia).
  change (Z.land 128 192) with 128. change (Z.land 252 254) with 252.
  rewrite land_192, land_254 by assumption.
  unfold privateV6. cbn [nth]. clear H4 Hbytes.
  assert (Hrest : forall a b : bool, (if a then if b then true else false else false) = a && b)
    by (intros [] []; reflexivity).
  change (0 =? 0) with true. cbn iota. rewrite ?orb_false_r, ?orb_assoc.
  rewrite (Z.eqb_sym z 254).
  match goal with
  | |- _ || ?x || ?y = _ || ?x' || ?y' =>
      replace x with x' by (destruct (254 =? z), (128 <=? z0), (z0 <=? 191); reflexivity);
      replace y with y' by (destruct (252 <=? z), (z <=? 253); reflexivity)
  end.
  f_equal. f_equal.
  repeat match goal with
         | |- context [0 =? ?b] =>
             is_var b; destruct (Z.eqb_spec 0 b) as [<- |];
             [| symmetry; apply bool_decide_eq_false_2; intros [=]; congruence]
         end.
  destruct (Z.eqb_spec 1 z14) as [<- |];
    [| symmetry; apply bool_decide_eq_false_2; intros [=]; congruence].
  reflexivity.
Qed.


Lemma To4_length (ip : IP) : To4 ip = [] -> length ip <> 4%nat.
Proof.
  unfold To4. intros H Hlen. rewrite Hlen in H. cbn in H. subst ip. discriminate.
Qed.

(** Which of the other addresses are private.  An address that is not
    an IPv4 address (in either of its forms) is private when it is an
    IPv6 address, 16 bytes, and is the loopback address ::1 or lies in
    fe80::/10 or in fc00::/7.  A slice of any other length, nil
    included, is never private. *)
Theorem IsPrivateIP_not_IPv4 (ip : IP) :
  Forall (fun x => 0 <= x < 256) ip -> To4 ip = [] ->
  IsPrivateIP ip = (length ip =? 16)%nat && privateV6 ip.
Proof.
  intros Hbytes H4. destruct (length ip =? 16)%nat eqn:Hlen.
  - apply Nat.eqb_eq in Hlen. apply IsPrivateIP_IPv6; assumption.
  - apply Nat.eqb_neq in Hlen. pose proof (To4_length ip H4) as Hlen4.
    unfold IsPrivateIP, privateIPBlocks, Contains. rewrite H4.
    cbn [existsb netIP length repeat app].
    replace (length ip =? 4)%nat with false by (symmetry; apply Nat.eqb_neq; exact Hlen4).
    replace (length ip =? 16)%nat with false by (symmetry; apply Nat.eqb_neq; exact Hlen).
    reflexivity.
Qed.

Import Examples MoreExamples.

Lemma IsPrivateIP_IPv4_witness :
  IsPrivateIP [172; 20; 1; 1] = privateV4 172 20
  /\ IsPrivateIP (IPv4 172 20 1 1) = privateV4 172 20.
Proof. apply (IsPrivateIP_IPv4 172 20 1 1); lia. Defined.

Lemma IsPrivateIP_not_IPv4_witness :
  IsPrivateIP linkLocal = (length linkLocal =? 16)%nat && privateV6 linkLocal.
Proof.
  apply (IsPrivateIP_not_IPv4 linkLocal); [| reflexivity].
  repeat constructor; lia.
Defined.

End GoNetFacts.

Module HeaderFacts.
Import GoStrings Ctx CtxMethods.

(** *** Canonical header keys *)

(** One step of [canonicalize], on the first byte: the byte it writes
    is one it leaves alone, and is a token byte if the byte read is. *)
Lemma canonicalize_cons (upper : bool) (c : ascii) :
  exists c',
    (forall s, canonicalize upper (String c s)
               = String c' (canonicalize (Ascii.eqb c' "-"%char) s))
    /\ (forall s, canonicalize upper (String c' s)
                  = String c' (canonicalize (Ascii.eqb c' "-"%char) s))
    /\ validHeaderFieldByte c' = validHeaderFieldByte c.
Proof.
  eexists. split; [intros s; reflexivity |].
  destruct upper, c as [[] [] [] [] [] [] [] []];
    (split; [intros s; reflexivity | vm_compute; reflexivity]).
Qed.

Lemma canonicalize_valid (s : string) :
  forall upper, allValid (canonicalize upper s) = allValid s.
Proof.
  induction s as [| c s IH]; intros upper; [reflexivity |].
  destruct (canonicalize_cons upper c) as (c' & -> & _ & Hv).
  cbn [allValid]. rewrite IH, Hv. reflexivity.
Qed.

Lemma canonicalize_idem (s : string) :
  forall upper, canonicalize upper (canonicalize upper s) = canonicalize upper s.
Proof.
  induction s as [| c s IH]; intros upper; [reflexivity |].
  destruct (canonicalize_cons upper c) as (c' & -> & -> & _).
  rewrite IH. reflexivity.
Qed.

Lemma Canonical_idem (key : string) :
  CanonicalMIMEHeaderKey (CanonicalMIMEHeaderKey key) = CanonicalMIMEHeaderKey key.
Proof.
  unfold CanonicalMIMEHeaderKey. destruct (allValid key) eqn:Hv.
  - rewrite canonicalize_valid, Hv. apply canonicalize_idem.
  - rewrite Hv. reflexivity.
Qed.

(** *** Reading a header map after writing it *)

Lemma Header_Get_Set (key value key' : string) (h : http_Header) :
  Header_Get (Header_Set key value h) key'
  = if decide (CanonicalMIMEHeaderKey key' = CanonicalMIMEHeaderKey key)
    then value else Header_Get h key'.
Proof.
  unfold Header_Get, Header_Set. destruct (decide _) as [-> | Hne].
  - rewrite lookup_insert_eq. reflexivity.
  - rewrite lookup_insert_ne by congruence. reflexivity.
Qed.

Lemma Header_Get_Del (key key' : string) (h : http_Header) :
  Header_Get (Header_Del key h) key'
  = if decide (CanonicalMIMEHeaderKey key' = CanonicalMIMEHeaderKey key)
    then EmptyString else Header_Get h key'.
Proof.
  unfold Header_Get, Header_Del. destruct (decide _) as [-> | Hne].
  - rewrite lookup_delete_eq. reflexivity.
  - rewrite lookup_delete_ne by congruence. reflexivity.
Qed.

Lemma Header_Get_Add (key value key' : string) (h : http_Header) :
  Header_Get (Header_Add key value h) key'
  = if decide (CanonicalMIMEHeaderKey key' = CanonicalMIMEHeaderKey key)
    then match h !! CanonicalMIMEHeaderKey key with
         | Some (v :: _) => v
         | _ => value
         end
    else Header_Get h key'.
Proof.
  unfold Header_Get, Header_Add. destruct (decide _) as [-> | Hne].
  - rewrite lookup_insert_eq. destruct (h !! CanonicalMIMEHeaderKey key) as [[| v l] |]; reflexivity.
  - rewrite lookup_insert_ne by congruence. reflexivity.
Qed.

(** [SetRequestHeader] then [GetRequestHeader], for a Context with a
    request: a key that names the same header (whatever its case)
    reads the value written, the empty string when the value written
    is empty (the header is deleted); any other key reads what it
    read before; and only the request's header map has changed. *)
Theorem SetRequestHeader_then_Get (key value : string) (c : Context) (req : http_Request) :
  Request c = Some req ->
  exists h',
    SetRequestHeader key value c = Some (set_Request (Some (set_Header h' req)) c)
    /\ (value = EmptyString -> h' = Header_Del key (Header req))
    /\ (forall key', CanonicalMIMEHeaderKey key' = CanonicalMIMEHeaderKey key ->
                     GetRequestHeader key' (set_Request (Some (set_Header h' req)) c) = Some value)
    /\ (forall key', CanonicalMIMEHeaderKey key' <> CanonicalMIMEHeaderKey key ->
                     GetRequestHeader key' (set_Request (Some (set_Header h' req)) c)
                     = GetRequestHeader key' c).
Proof.
  intros Hreq. unfold SetRequestHeader, GetRequestHeader. rewrite Hreq.
  destruct (String.eqb value EmptyString) eqn:Hv.
  - apply String.eqb_eq in Hv. subst value.
    exists (Header_Del key (Header req)). cbn. repeat split.
    + intros key' Hk. rewrite Header_Get_Del. rewrite decide_True by exact Hk. reflexivity.
    + intros key' Hk. rewrite Header_Get_Del. rewrite decide_False by exact Hk. reflexivity.
  - apply String.eqb_neq in Hv.
    exists (Header_Set key value (Header req)). cbn. repeat split.
    + intros ->. congruence.
    + intros key' Hk. rewrite Header_Get_Set. rewrite decide_True by exact Hk. reflexivity.
    + intros key' Hk. rewrite Header_Get_Set. rewrite decide_False by exact Hk. reflexivity.
Qed.

(** [SetHeader] then [GetHeader], on the response's header map.  With a
    map, the same round trip as for the request.  Without one (the
    Context has no response), writing a non-empty value panics, and
    writing the empty value changes nothing. *)
Theorem SetHeader_then_Get (key value : string) (c : Context) :
  match Headers c with
  | Some h =>
      exists h',
        SetHeader key value c = Some (set_Headers (Some h') c)
        /\ (forall key', CanonicalMIMEHeaderKey key' = CanonicalMIMEHeaderKey key ->
                         GetHeader key' (set_Headers (Some h') c) = value)
        /\ (forall key', CanonicalMIMEHeaderKey key' <> CanonicalMIMEHeaderKey key ->
                         GetHeader key' (set_Headers (Some h') c) = GetHeader key' c)
  | None =>
      SetHeader key value c = (if nonEmpty value then None else Some c)
      /\ GetHeader key c = EmptyString
  end.
Proof.
  destruct (Headers c) as [h |] eqn:Hh.
  - unfold SetHeader, GetHeader. rewrite Hh.
    destruct (nonEmpty value) eqn:Hv.
    + exists (Header_Set key value h). cbn. repeat split.
      * intros key' Hk. rewrite Header_Get_Set. rewrite decide_True by exact Hk. reflexivity.
      * intros key' Hk. rewrite Header_Get_Set. rewrite decide_False by exact Hk. reflexivity.
    + assert (value = EmptyString) as ->.
      { unfold nonEmpty in Hv. apply negb_false_iff in Hv. apply String.eqb_eq in Hv. exact Hv. }
      exists (Header_Del key h). cbn. repeat split.
      * intros key' Hk. rewrite Header_Get_Del. rewrite decide_True by exact Hk. reflexivity.
      * intros key' Hk. rewrite Header_Get_Del. rewrite decide_False by exact Hk. reflexivity.
  - unfold SetHeader, GetHeader. rewrite Hh. cbn.
    destruct (nonEmpty value); split; try reflexivity.
    destruct c; cbn in *; subst; reflexivity.
Qed.

(** [AddHeader] and [AddRequestHeader] append: the values under the
    key grow by the value added, at the end, and the other keys are
    left alone.  So reading the header afterwards, which gives the
    first value, gives the value added only when the header had no
    value before.  Without a header map [AddHeader] panics, and
    without a request [AddRequestHeader] does. *)
Theorem AddHeader_appends (key value : string) (c : Context) :
  match Headers c with
  | Some h =>
      exists h',
        AddHeader key value c = Some (set_Headers (Some h') c)
        /\ h' !! CanonicalMIMEHeaderKey key
           = Some (default [] (h !! CanonicalMIMEHeaderKey key) ++ [value])
        /\ (forall k, k <> CanonicalMIMEHeaderKey key -> h' !! k = h !! k)
        /\ (forall key', CanonicalMIMEHeaderKey key' = CanonicalMIMEHeaderKey key ->
                         GetHeader key' (set_Headers (Some h') c)
                         = hd value (default [] (h !! CanonicalMIMEHeaderKey key)))
        /\ (forall key', CanonicalMIMEHeaderKey key' <> CanonicalMIMEHeaderKey key ->
                         GetHeader key' (set_Headers (Some h') c) = GetHeader key' c)
  | None => AddHeader key value c = None
  end
  /\ match Request c with
     | Some req =>
         exists c',
           AddRequestHeader key value c = Some c'
           /\ c' = set_Request (Some (set_Header (Header_Add key value (Header req)) req)) c
           /\ GetRequestHeader key c'
              = Some (hd value (default [] (Header req !! CanonicalMIMEHeaderKey key)))
     | None => AddRequestHeader key value c = None
     end.
Proof.
  assert (Hfirst : forall h key',
            CanonicalMIMEHeaderKey key' = CanonicalMIMEHeaderKey key ->
            Header_Get (Header_Add key value h) key'
            = hd value (default [] (h !! CanonicalMIMEHeaderKey key))).
  { intros h key' Hk. rewrite Header_Get_Add, decide_True by exact Hk.
    destruct (h !! CanonicalMIMEHeaderKey key) as [[| v l] |]; reflexivity. }
  split.
  - unfold AddHeader, GetHeader. destruct (Headers c) as [h |] eqn:Hh; [| reflexivity].
    exists (Header_Add key value h). split; [reflexivity |].
    split; [unfold Header_Add; apply lookup_insert_eq |].
    split; [intros k Hk; unfold Header_Add; apply lookup_insert_ne; congruence |].
    cbn. split.
    + intros key' Hk. apply Hfirst. exact Hk.
    + intros key' Hk. rewrite Header_Get_Add, decide_False by exact Hk. reflexivity.
  - unfold AddRequestHeader, GetRequestHeader. destruct (Request c) as [req |]; [| reflexivity].
    eexists. split; [reflexivity |]. split; [reflexivity |]. cbn.
    rewrite Hfirst by reflexivity. reflexivity.
Qed.

(** *** [ResetHeader] *)

Lemma ResetHeader_loop_spec (order : list string) :
  forall h : http_Header,
    (forall k, ~ canonical k -> ResetHeader_loop order h !! k = h !! k)
    /\ (forall k, h !! k = None -> ResetHeader_loop order h !! k = None)
    /\ (forall k, k ∈ order -> canonical k -> ResetHeader_loop order h !! k = None).
Proof.
  induction order as [| k0 order IH]; intros h; cbn.
  - repeat split; auto. intros k Hk. inversion Hk.
  - set (h1 := if decide (is_Some (h !! k0)) then Header_Del k0 h else h).
    change (fold_left _ order h1) with (ResetHeader_loop order h1).
    destruct (IH h1) as (Hkeep & Hnone & Hgone).
    assert (H1keep : forall k, ~ canonical k -> h1 !! k = h !! k).
    { intros k Hk. unfold h1. destruct (decide _); [| reflexivity].
      unfold Header_Del. apply lookup_delete_ne. intros <-. apply Hk. apply Canonical_idem. }
    assert (H1none : forall k, h !! k = None -> h1 !! k = None).
    { intros k Hk. unfold h1. destruct (decide _); [| exact Hk].
      unfold Header_Del. rewrite lookup_delete_None. right. exact Hk. }
    repeat split.
    + intros k Hk. rewrite Hkeep by exact Hk. apply H1keep. exact Hk.
    + intros k Hk. apply Hnone. apply H1none. exact Hk.
    + intros k Hin Hk. apply elem_of_cons in Hin as [-> | Hin]; [| apply Hgone; assumption].
      apply Hnone. unfold h1. destruct (decide (is_Some (h !! k0))) as [_ | Hno].
      * unfold Header_Del. rewrite Hk. apply lookup_delete_eq.
      * destruct (h !! k0) eqn:E; [exfalso; apply Hno; eauto | reflexivity].
Qed.

(** [ResetHeader] deletes, for every key the loop reaches, the
    canonical form of the key.  So whatever the order in which the
    loop goes through the keys, the keys that are left are the ones
    that are not in canonical form (none, when the map was filled
    through [SetHeader] and [AddHeader]); and [GetHeader] finds
    nothing under any key. *)
Theorem ResetHeader_clears (c : Context) (h : http_Header) (order : list string) :
  Headers c = Some h ->
  order ≡ₚ map fst (map_to_list h) ->
  exists h',
    ResetHeader_in order c = set_Headers (Some h') c
    /\ ResetHeader c = set_Headers (Some h') c
    /\ (forall k, h' !! k = if decide (canonical k) then None else h !! k)
    /\ (forall key, GetHeader key (ResetHeader_in order c) = EmptyString)
    /\ ((forall k, is_Some (h !! k) -> canonical k) -> h' = ∅).
Proof.
  intros Hh Hperm.
  assert (Hkeys : forall k, is_Some (h !! k) -> k ∈ map fst (map_to_list h)).
  { intros k0 [v Hv]. apply list_elem_of_fmap. exists (k0, v). split; [reflexivity |].
    apply elem_of_map_to_list. exact Hv. }
  assert (Hall : forall k, is_Some (h !! k) -> k ∈ order).
  { intros k Hk. rewrite Hperm. apply Hkeys. exact Hk. }
  assert (Hpoint : forall order0, (forall k, is_Some (h !! k) -> k ∈ order0) ->
            forall k, ResetHeader_loop order0 h !! k = if decide (canonical k) then None else h !! k).
  { intros order0 Hall0 k. destruct (ResetHeader_loop_spec order0 h) as (Hkeep & Hnone & Hgone).
    destruct (decide (canonical k)) as [Hk | Hk]; [| apply Hkeep; exact Hk].
    destruct (h !! k) eqn:E; [| apply Hnone; exact E].
    apply Hgone; [apply Hall0; rewrite E; eauto | exact Hk]. }
  exists (ResetHeader_loop order h).
  unfold ResetHeader, ResetHeader_in, Header_, GetHeader. rewrite Hh. cbn [default].
  split; [reflexivity |]. split; [| split; [apply Hpoint; exact Hall | split]].
  - f_equal. f_equal. apply map_eq. intros k. rewrite !Hpoint; auto.
  - intros key. cbn. unfold Header_Get. rewrite Hpoint by exact Hall.
    rewrite decide_True by apply Canonical_idem. reflexivity.
  - intros Hcanon. apply map_eq. intros k. rewrite Hpoint by exact Hall. rewrite lookup_empty.
    destruct (decide (canonical k)) as [Hk | Hk]; [reflexivity |].
    destruct (h !! k) eqn:E; [| reflexivity]. exfalso. apply Hk. apply Hcanon. rewrite E; eauto.
Qed.

Import Examples MoreExamples.

Lemma SetRequestHeader_then_Get_witness :
  exists h',
    SetRequestHeader "x-token" "abc" (NewContext (Some recorder) (Some (forwarded "1.1.1.1")))
    = Some (set_Request (Some (set_Header h' (forwarded "1.1.1.1")))
              (NewContext (Some recorder) (Some (forwarded "1.1.1.1"))))
    /\ GetRequestHeader "X-Token"
         (set_Request (Some (set_Header h' (forwarded "1.1.1.1")))
            (NewContext (Some recorder) (Some (forwarded "1.1.1.1")))) = Some "abc".
Proof.
  destruct (SetRequestHeader_then_Get "x-token" "abc"
              (NewContext (Some recorder) (Some (forwarded "1.1.1.1")))
              (forwarded "1.1.1.1") eq_refl) as (h' & Hset & _ & Hsame & _).
  exists h'. split; [exact Hset |]. apply Hsame. reflexivity.
Defined.

Lemma ResetHeader_clears_witness :
  exists h',
    ResetHeader (set_Headers (Some rawHeaders) zeroContext)
    = set_Headers (Some h') (set_Headers (Some rawHeaders) zeroContext)
    /\ h' !! "Content-Type" = None
    /\ h' !! "x-raw" = Some ["1"].
Proof.
  destruct (ResetHeader_clears (set_Headers (Some rawHeaders) zeroContext) rawHeaders
              (map fst (map_to_list rawHeaders)) eq_refl ltac:(reflexivity))
    as (h' & _ & Hreset & Hpoint & _).
  exists h'. split; [exact Hreset |].
  split; [exact (Hpoint "Content-Type") | exact (Hpoint "x-raw")].
Defined.

End HeaderFacts.

Module CookieFacts.
Import GoStrings SignedKeys Ctx CtxMethods.

Section WithLib.
Context `{lib : Lib}.

Lemma getKeys_set_Headers (v : option http_Header) (c : Context) :
  getKeys (set_Headers v c) = getKeys c.
Proof. reflexivity. Qed.

(** With signing keys configured and a response header map,
    [AddSignedCookie] appends two values to the Set-Cookie header, in
    this order: the cookie, and a companion that has the cookie's name
    followed by .sig, keygrip's signature of the cookie's value as its
    value, and the cookie's other attributes.  It returns nil and
    changes nothing else. *)
Theorem AddSignedCookie_with_keys (cookie : Cookie) (c : Context) (h : http_Header)
    (keys : list string) :
  getKeys c = Some keys -> keys <> [] -> Headers c = Some h ->
  exists h',
    AddSignedCookie cookie c = Some (None, set_Headers (Some h') c)
    /\ h' !! HeaderSetCookie
       = Some (default [] (h !! HeaderSetCookie)
               ++ [Cookie_String cookie; Cookie_String (sigCookie keys cookie)])
    /\ (forall key, key <> HeaderSetCookie -> h' !! key = h !! key)
    /\ Name (sigCookie keys cookie) = Name cookie +:+ SignedCookieSuffix
    /\ Value (sigCookie keys cookie) = keygrip_Sign keys (Value cookie)
    /\ set_Name (Name cookie) (set_Value (Value cookie) (sigCookie keys cookie)) = cookie.
Proof.
  intros Hkeys Hne Hh.
  exists (Header_Add HeaderSetCookie (Cookie_String (sigCookie keys cookie))
            (Header_Add HeaderSetCookie (Cookie_String cookie) h)).
  split; [| split; [| split; [| split; [| split]]]].
  - unfold AddSignedCookie, AddCookie, AddHeader. rewrite Hh.
    unfold addSigCookie. rewrite getKeys_set_Headers, Hkeys.
    destruct keys as [| k keys]; [congruence |]. cbn [length Nat.eqb].
    unfold AddCookie, AddHeader. cbn [Headers set_Headers]. reflexivity.
  - unfold Header_Add. change (CanonicalMIMEHeaderKey HeaderSetCookie) with HeaderSetCookie.
    rewrite lookup_insert_eq. rewrite lookup_insert_eq.
    destruct (h !! HeaderSetCookie) as [l |]; cbn; [rewrite <- app_assoc |]; reflexivity.
  - intros key Hkey. unfold Header_Add.
    change (CanonicalMIMEHeaderKey HeaderSetCookie) with HeaderSetCookie.
    rewrite !lookup_insert_ne by congruence. reflexivity.
  - reflexivity.
  - reflexivity.
  - destruct cookie; reflexivity.
Qed.

(** A nil error from [SignedCookie] means that the request carries the
    cookie and its .sig companion, that signing keys are configured,
    and that keygrip found the key the companion's value was signed
    with: the cookie returned is the request's, and it verifies. *)
Theorem SignedCookie_verified (name : string) (c : Context) (cookie : option Cookie) :
  SignedCookie name c = Some (cookie, None) ->
  exists req ck sc keys,
    Request c = Some req
    /\ cookie = Some ck
    /\ Request_Cookie name req = (Some ck, None)
    /\ Request_Cookie (name +:+ SignedCookieSuffix) req = (Some sc, None)
    /\ getKeys c = Some keys /\ keys <> []
    /\ 0 <= keygrip_Index keys (Value ck) (Value sc).
Proof.
  unfold SignedCookie, GetSignedCookie, Cookie_.
  destruct (Request c) as [req |]; [| discriminate]. cbn [fmap option_fmap option_map].
  unfold Request_Cookie.
  destruct (find (fun ck => String.eqb (Name ck) name) (Cookies req)) as [ck |] eqn:Eck;
    [| discriminate].
  destruct (getKeys c) as [keys |]; [| discriminate].
  destruct keys as [| k keys]; [discriminate |]. cbn [length Nat.eqb].
  destruct (find (fun ck => String.eqb (Name ck) (name +:+ SignedCookieSuffix)) (Cookies req))
    as [sc |] eqn:Esc; [| discriminate].
  cbn [from_option].
  destruct (keygrip_Index (k :: keys) (Value ck) (Value sc) <? 0) eqn:Hi; [discriminate |].
  intros [= <-]. exists req, ck, sc, (k :: keys).
  apply Z.ltb_ge in Hi.
  unfold Request_Cookie. rewrite Eck, Esc.
  split; [reflexivity |]. split; [reflexivity |]. split; [reflexivity |].
  split; [reflexivity |]. split; [reflexivity |]. split; [discriminate | exact Hi].
Qed.

(** What [SignedCookie] returns, case by case: whenever it returns an
    error the cookie is nil, except when the cookie is there and no
    keys are configured (then the unverified cookie comes with the key
    error). *)
Lemma SignedCookie_cases (name : string) (c : Context) (req : http_Request) (keys : list string) :
  Request c = Some req -> getKeys c = Some keys ->
  SignedCookie name c
  = Some match Request_Cookie name req with
         | (Some ck, None) =>
             if (length keys =? 0)%nat then (Some ck, Some errSignKeyIsNil)
             else match Request_Cookie (name +:+ SignedCookieSuffix) req with
                  | (Some sc, None) =>
                      if keygrip_Index keys (Value ck) (Value sc) <? 0
                      then (None, Some http_ErrNoCookie) else (Some ck, None)
                  | _ => (None, Some http_ErrNoCookie)
                  end
         | _ => (None, Some http_ErrNoCookie)
         end.
Proof.
  intros Hreq Hkeys. unfold SignedCookie, GetSignedCookie, Cookie_. rewrite Hreq, Hkeys.
  cbn [fmap option_fmap option_map]. unfold Request_Cookie.
  destruct (find (fun ck => String.eqb (Name ck) name) (Cookies req)) as [ck |];
    [| reflexivity].
  destruct (length keys =? 0)%nat; [reflexivity |].
  destruct (find (fun ck => String.eqb (Name ck) (name +:+ SignedCookieSuffix)) (Cookies req))
    as [sc |]; [| reflexivity].
  cbn [from_option].
  destruct (keygrip_Index keys (Value ck) (Value sc) <? 0); reflexivity.
Qed.

Lemma append_ne (s t : string) : t <> EmptyString -> String.eqb s (s +:+ t) = false.
Proof.
  intros Ht. apply String.eqb_neq. intros H. apply Ht. clear Ht.
  induction s as [| ch s IH]; cbn in H; [symmetry; exact H |].
  injection H as H. apply IH. exact H.
Qed.

(** Round trip.  When the client sends back the two cookies that
    [AddSignedCookie] set (their names and values; a request carries
    nothing else of a cookie) and the keys are the same, or the key
    that signed is still among them, [SignedCookie] returns the
    cookie, with no error. *)
Theorem SignedCookie_round_trip (cookie : Cookie) (c : Context) (req : http_Request)
    (keys : list string) (ck sc : Cookie) (others : list Cookie) (signedWith : list string) :
  Request c = Some req -> getKeys c = Some keys -> keys <> [] ->
  Cookies req = ck :: sc :: others ->
  Name ck = Name cookie -> Value ck = Value cookie ->
  Name sc = Name (sigCookie signedWith cookie) ->
  Value sc = Value (sigCookie signedWith cookie) ->
  0 <= keygrip_Index keys (Value cookie) (keygrip_Sign signedWith (Value cookie)) ->
  SignedCookie (Name cookie) c = Some (Some ck, None).
Proof.
  intros Hreq Hkeys Hne Hcs Hn Hv Hsn Hsv Hidx.
  rewrite (SignedCookie_cases _ _ _ _ Hreq Hkeys). unfold Request_Cookie. rewrite Hcs.
  cbn [find]. rewrite Hn, String.eqb_refl.
  destruct keys as [| k keys]; [congruence |]. cbn [length Nat.eqb].
  rewrite (append_ne (Name cookie) SignedCookieSuffix) by discriminate.
  rewrite Hsn. cbn [sigCookie Name set_Value set_Name]. rewrite String.eqb_refl.
  rewrite Hv, Hsv. cbn [sigCookie Value set_Value set_Name cloneCookie].
  destruct (_ <? 0) eqn:E; [apply Z.ltb_lt in E; lia | reflexivity].
Qed.

End WithLib.

Import Examples MoreExamples.

Lemma AddSignedCookie_with_keys_witness :
  exists h',
    AddSignedCookie (lib := exampleLib) cookie_ab (keyedContext [])
    = Some (None, set_Headers (Some h') (keyedContext []))
    /\ h' !! HeaderSetCookie = Some ["a=b"; "a.sig=k1:b"].
Proof.
  destruct (AddSignedCookie_with_keys (lib := exampleLib) cookie_ab (keyedContext []) ∅
              ["k1"; "k0"] eq_refl ltac:(discriminate) eq_refl)
    as (h' & Hadd & Hset & _).
  exists h'. split; [exact Hadd | exact Hset].
Defined.

Lemma SignedCookie_verified_witness :
  exists req ck sc keys,
    Request (keyedContext [cookie_ab; sig_ab]) = Some req
    /\ Some cookie_ab = Some ck
    /\ Request_Cookie (lib := exampleLib) "a" req = (Some ck, None)
    /\ Request_Cookie (lib := exampleLib) ("a" +:+ SignedCookieSuffix) req = (Some sc, None)
    /\ getKeys (keyedContext [cookie_ab; sig_ab]) = Some keys /\ keys <> []
    /\ 0 <= keygrip_Index (Lib := exampleLib) keys (Value ck) (Value sc).
Proof.
  apply (SignedCookie_verified (lib := exampleLib) "a" (keyedContext [cookie_ab; sig_ab])
           (Some cookie_ab)).
  reflexivity.
Defined.

Lemma SignedCookie_round_trip_witness :
  SignedCookie (lib := exampleLib) "a" (keyedContext [cookie_ab; sig_ab])
  = Some (Some cookie_ab, None).
Proof.
  apply (SignedCookie_round_trip (lib := exampleLib) cookie_ab
           (keyedContext [cookie_ab; sig_ab]) (request_with [cookie_ab; sig_ab])
           ["k1"; "k0"] cookie_ab sig_ab [] ["k0"]);
    try reflexivity; [discriminate | vm_compute; discriminate].
Defined.

End CookieFacts.

Module StoreFacts.
Import Ctx CtxMethods.

(** [Set] then [Get]: the key reads the value stored, any other key
    reads what it read before, only the store has changed, and
    [Reset] empties the store. *)
Theorem Get_after_Set (key value : string) (c : Context) :
  Get key (Set_ key value c) = (Some value, true)
  /\ GetString key (Set_ key value c) = value
  /\ (forall key', key' <> key -> Get key' (Set_ key value c) = Get key' c)
  /\ set_m (m c) (Set_ key value c) = c
  /\ (forall key', Get key' (Reset (Set_ key value c)) = (None, false)).
Proof.
  assert (Hm : m (Set_ key value c) = Some (<[key := value]> (default ∅ (m c)))).
  { unfold Set_. destruct (m c) eqn:E; cbn; rewrite ?E; reflexivity. }
  unfold GetString, Get. rewrite Hm, lookup_insert_eq.
  rewrite bool_decide_eq_true_2 by eauto.
  split; [reflexivity |]. split; [reflexivity |]. split; [| split].
  - intros key' Hne. rewrite lookup_insert_ne by congruence.
    destruct (m c) as [store |]; cbn; [reflexivity |].
    rewrite lookup_empty. rewrite bool_decide_eq_false_2; [reflexivity |].
    intros [x Hx]. discriminate.
  - unfold Set_. destruct c as [? ? ? ? ? ? ? ? ? ? ? ? [store |] ? ? ? ? ?]; reflexivity.
  - reflexivity.
Qed.

Section Query.
Variable url_Query : http_Request -> gmap string (list string).

Local Abbreviation filled := (map_Forall (fun (_ : string) (values : list string) => values <> [])).

Lemma Query_loop (query : gmap string (list string)) :
  map_fold (fun key values m => m ← m; v ← values !! 0%nat; Some (<[key := v]> m))
           (Some ∅) query
  = if decide (filled query) then Some (hd EmptyString <$> query) else None.
Proof.
  pose (P := fun (r : option (gmap string string)) (q : gmap string (list string)) =>
               r = if decide (filled q) then Some (hd EmptyString <$> q) else None).
  apply (map_fold_weak_ind P); unfold P; clear P.
  - rewrite decide_True by apply map_Forall_empty. rewrite fmap_empty. reflexivity.
  - intros key values q r Hnone ->.
    destruct (decide (filled q)) as [Hq | Hq].
    + destruct values as [| v values]; cbn.
      * rewrite decide_False; [reflexivity |].
        intros H. apply (H key []); [apply lookup_insert_eq | reflexivity].
      * rewrite decide_True by (apply map_Forall_insert_2; [discriminate | exact Hq]).
        rewrite fmap_insert. reflexivity.
    + cbn. rewrite decide_False; [reflexivity |].
      intros H. apply Hq. apply map_Forall_insert in H; [apply H | exact Hnone].
Qed.

(** The query of a request is parsed once: [getCacheQuery] keeps it in
    the Context, and [QueryParam] and [Query] read what was kept, also
    after the request has been replaced.  [QueryParam] gives the first
    value of the name, the empty string when there is none; [Query]
    gives each name its first value, so the two agree on every name. *)
Theorem Query_cached (c : Context) (req : http_Request) :
  Request c = Some req ->
  exists query c',
    getCacheQuery url_Query c = Some (query, c')
    /\ query = default (url_Query req) (cacheQuery c)
    /\ c' = set_cacheQuery (Some query) c
    /\ (forall name,
          QueryParam url_Query name c = Some (hd EmptyString (default [] (query !! name)), c'))
    /\ Query url_Query c
       = (if decide (filled query) then Some (hd EmptyString <$> query, c') else None)
    /\ (forall name v, (hd EmptyString <$> query) !! name = Some v ->
                       QueryParam url_Query name c = Some (v, c'))
    /\ (forall other name,
          QueryParam url_Query name (set_Request other c')
          = Some (hd EmptyString (default [] (query !! name)), set_Request other c')).
Proof.
  intros Hreq.
  exists (default (url_Query req) (cacheQuery c)),
         (set_cacheQuery (Some (default (url_Query req) (cacheQuery c))) c).
  assert (Hget : getCacheQuery url_Query c
                 = Some (default (url_Query req) (cacheQuery c),
                         set_cacheQuery (Some (default (url_Query req) (cacheQuery c))) c)).
  { unfold getCacheQuery. rewrite Hreq.
    destruct c as [? ? ? ? ? ? ? ? ? ? ? ? ? ? ? ? ? [q |]]; reflexivity. }
  assert (Hparam : forall name,
             QueryParam url_Query name c
             = Some (hd EmptyString (default [] (default (url_Query req) (cacheQuery c) !! name)),
                     set_cacheQuery (Some (default (url_Query req) (cacheQuery c))) c)).
  { intros name. unfold QueryParam. rewrite Hget. cbn.
    destruct (default (url_Query req) (cacheQuery c) !! name) as [[| v l] |]; reflexivity. }
  split; [exact Hget |]. split; [reflexivity |]. split; [reflexivity |].
  split; [exact Hparam |]. split; [| split].
  - unfold Query. rewrite Hget. cbn. rewrite Query_loop.
    destruct (decide _); reflexivity.
  - intros name v Hv. rewrite Hparam. rewrite lookup_fmap in Hv.
    destruct (default (url_Query req) (cacheQuery c) !! name) as [l |]; [| discriminate].
    cbn in Hv. injection Hv as <-. reflexivity.
  - intros other name. unfold QueryParam, getCacheQuery. cbn.
    destruct (default (url_Query req) (cacheQuery c) !! name) as [[| v l] |]; reflexivity.
Qed.

End Query.

Import Examples MoreExamples.

Lemma Query_cached_witness :
  exists query c',
    getCacheQuery (fun _ => {[ "a" := ["1"; "2"] ]})
      (NewContext (Some recorder) (Some (request_with []))) = Some (query, c')
    /\ QueryParam (fun _ => {[ "a" := ["1"; "2"] ]}) "a"
         (NewContext (Some recorder) (Some (request_with []))) = Some ("1", c')
    /\ QueryParam (fun _ => {[ "a" := ["1"; "2"] ]}) "b"
         (NewContext (Some recorder) (Some (request_with []))) = Some (EmptyString, c')
    /\ QueryParam (fun _ => ∅) "a" (set_Request None c') = Some ("1", set_Request None c').
Proof.
  destruct (Query_cached (fun _ => {[ "a" := ["1"; "2"] ]})
              (NewContext (Some recorder) (Some (request_with []))) (request_with []) eq_refl)
    as (query & c' & Hget & -> & -> & Hparam & _ & _ & _).
  eexists _, _. split; [exact Hget |].
  split; [exact (Hparam "a") |]. split; [exact (Hparam "b") |]. reflexivity.
Defined.

End StoreFacts.

Module ObservedFacts.
Import GoStrings Ctx Dispatch DispatchFacts Observed.

Lemma handlerNames_app (l1 l2 : list Event) :
  handlerNames (l1 ++ l2) = handlerNames l1 ++ handlerNames l2.
Proof. apply omap_app. Qed.

Lemma traced_app (l1 l2 : list string) : traced (l1 ++ l2) = traced l1 ++ traced l2.
Proof. apply List.filter_app. Qed.

Lemma handlerNames_none (l : list Event) : handlerIndices l = [] -> handlerNames l = [].
Proof.
  induction l as [| e l IH]; [reflexivity |].
  destruct e; cbn; try exact IH. discriminate.
Qed.

Lemma records_refl (r : Run) : records r r.
Proof.
  exists []. rewrite app_nil_r. split; [reflexivity |].
  destruct (traceInfos r) as [infos |]; [| reflexivity].
  exists []. rewrite app_nil_r. split; reflexivity.
Qed.

Lemma records_trans (r1 r2 r3 : Run) : records r1 r2 -> records r2 r3 -> records r1 r3.
Proof.
  intros (l1 & Hl1 & H1) (l2 & Hl2 & H2). exists (l1 ++ l2).
  split; [rewrite Hl2, Hl1, app_assoc; reflexivity |].
  destruct (traceInfos r1) as [infos |].
  - destruct H1 as (new1 & Ht1 & Hn1). rewrite Ht1 in H2.
    destruct H2 as (new2 & Ht2 & Hn2). exists (new1 ++ new2).
    split; [rewrite Ht2, app_assoc; reflexivity |].
    rewrite map_app, handlerNames_app, traced_app, Hn1, Hn2. reflexivity.
  - rewrite H1 in H2. exact H2.
Qed.

(** A step that leaves the log and the records alone. *)
Lemma records_quiet (r r' : Run) :
  log r' = log r -> traceInfos r' = traceInfos r -> records r r'.
Proof.
  intros Hl Ht. exists []. rewrite app_nil_r. split; [exact Hl |]. rewrite Ht.
  destruct (traceInfos r) as [infos |]; [| reflexivity].
  exists []. rewrite app_nil_r. split; reflexivity.
Qed.

Lemma exec_records (next : Run -> Outcome (error * Run)) :
  (forall r e r', next r = Done (e, r') -> records r r') ->
  forall p r e r', exec next p r = Done (e, r') -> records r r'.
Proof.
  intros Hnext. induction p as [err | f k IH | k IH | ns k IH | k IH];
    intros r e r' Hex; cbn in Hex.
  - injection Hex as <- <-. apply records_refl.
  - eapply records_trans; [| eapply IH; exact Hex]. apply records_quiet; reflexivity.
  - eapply IH; exact Hex.
  - eapply records_trans; [| eapply IH; exact Hex]. apply records_quiet; reflexivity.
  - destruct (next r) as [[e1 r1] | |] eqn:En; try discriminate.
    eapply records_trans; [eapply Hnext; exact En | eapply IH; exact Hex].
Qed.

Lemma setDurationAt_names (pos : nat) (D : Z) (infos : list Trace.TraceInfo) :
  map Trace.Name (setDurationAt pos D infos) = map Trace.Name infos.
Proof.
  unfold setDurationAt. destruct (infos !! pos) as [t |] eqn:E; [| reflexivity].
  apply list_eq. intros i. rewrite !list_lookup_fmap.
  destruct (decide (i = pos)) as [-> | Hne].
  - rewrite list_lookup_insert_eq by (eapply lookup_lt_Some; exact E). rewrite E. reflexivity.
  - rewrite list_lookup_insert_ne by congruence. reflexivity.
Qed.

Lemma setDurationAt_prefix (infos new : list Trace.TraceInfo) (pos : nat) (D : Z) :
  (length infos <= pos)%nat ->
  setDurationAt pos D (infos ++ new) = infos ++ setDurationAt (pos - length infos) D new.
Proof.
  intros Hpos. unfold setDurationAt. rewrite lookup_app_r by exact Hpos.
  destruct (new !! (pos - length infos)%nat); [| reflexivity].
  rewrite insert_app_r_alt by exact Hpos. reflexivity.
Qed.

Section Chain.
Variables (d : Elton) (fs : Funcs) (handlerList : list Handler).

Lemma invoke_records (next : Run -> Outcome (error * Run)) (fn : Handler) :
  (forall r e r', next r = Done (e, r') -> records r r') ->
  forall r e r',
    invoke next fn (emit (EvHandler (index r) (fnName fn)) r) = Done (e, r') ->
    records r r'.
Proof.
  intros Hnext r e r' H. unfold invoke in H. cbn [traceInfos emit] in H.
  assert (Hcall : exists l0, log (emit (EvHandler (index r) (fnName fn)) r) = log r ++ l0
                             /\ handlerNames l0 = [fnName fn]).
  { exists [EvHandler (index r) (fnName fn)]. split; reflexivity. }
  destruct Hcall as (l0 & Hl0 & Hn0).
  destruct (traceInfos r) as [infos |] eqn:Hinfos.
  - destruct (String.eqb (fnName fn) "-") eqn:Hname.
    + apply (exec_records next Hnext) in H. destruct H as (l & Hl & Ht).
      cbn [traceInfos emit] in Ht. rewrite Hinfos in Ht. destruct Ht as (new & Ht & Hn).
      exists (l0 ++ l). split; [rewrite Hl, Hl0, app_assoc; reflexivity |].
      rewrite Hinfos. exists new. split; [exact Ht |].
      rewrite handlerNames_app, traced_app, Hn0, Hn. cbn. rewrite Hname. reflexivity.
    + match type of H with
      | match exec next _ ?r1 with _ => _ end = _ =>
          destruct (exec next (fnBody fn) r1) as [[e1 r2] | |] eqn:Ex; try discriminate;
          apply (exec_records next Hnext) in Ex
      end.
      injection H as <- <-. destruct Ex as (l & Hl & Ht).
      cbn [traceInfos set_traceInfos emit log] in Ht, Hl.
      destruct Ht as (new & Ht & Hn).
      exists (l0 ++ l). cbn [log set_traceInfos traceInfos].
      split; [rewrite Hl; cbn in Hl0; rewrite Hl0, app_assoc; reflexivity |].
      rewrite Hinfos, Ht. cbn [fmap option_fmap option_map].
      rewrite <- app_assoc. rewrite setDurationAt_prefix by lia. rewrite Nat.sub_diag.
      eexists. split; [reflexivity |].
      rewrite setDurationAt_names. cbn [app map Trace.Name].
      rewrite handlerNames_app, traced_app, Hn0, Hn. cbn. rewrite Hname. reflexivity.
  - apply (exec_records next Hnext) in H. destruct H as (l & Hl & Ht).
    cbn [traceInfos emit] in Ht. rewrite Hinfos in Ht.
    exists (l0 ++ l). split; [rewrite Hl, Hl0, app_assoc; reflexivity |].
    rewrite Hinfos. exact Ht.
Qed.

Lemma validateLast_records (r : Run) (verr : error) (r' : Run) :
  validateLast d fs handlerList r = (verr, r') ->
  records r r' /\ index r' = index r.
Proof.
  intros H.
  destruct (validateLast_log _ _ _ _ _ _ H) as (l & (_ & Hi & Ht & _ & _ & Hl) & _ & Hidx).
  split; [| exact Hi]. exists l. split; [exact Hl |]. rewrite Ht.
  rewrite (handlerNames_none l Hidx).
  destruct (traceInfos r) as [infos |]; [| reflexivity].
  exists []. rewrite app_nil_r. split; reflexivity.
Qed.

Lemma NextBody_records (next : Run -> Outcome (error * Run)) :
  (forall r e r', next r = Done (e, r') -> records r r') ->
  forall r e r', NextBody d fs handlerList next r = Done (e, r') -> records r r'.
Proof.
  intros Hnext r e r' H. unfold NextBody in H.
  destruct (Committed (ctx r)); [injection H as <- <-; apply records_refl |].
  destruct (maxNext fs handlerList <=? index (set_index (index r + 1) r)).
  { injection H as <- <-. apply records_quiet; reflexivity. }
  destruct (validateLast d fs handlerList (set_index (index r + 1) r)) as [verr r2] eqn:Ev.
  apply validateLast_records in Ev. destruct Ev as [Hv _].
  assert (Hr2 : records r r2).
  { eapply records_trans; [| exact Hv]. apply records_quiet; reflexivity. }
  destruct verr as [ev |]; [injection H as <- <-; exact Hr2 |].
  destruct (handlerAt fs handlerList (index r2)) as [fn |]; [| discriminate].
  eapply records_trans; [exact Hr2 |]. eapply invoke_records; eauto.
Qed.

Lemma Next_records (fuel : nat) :
  forall r e r', Next d fs handlerList fuel r = Done (e, r') -> records r r'.
Proof.
  induction fuel as [| fuel IH]; intros r e r' H; cbn in H; [discriminate |].
  eapply NextBody_records; eauto.
Qed.

Lemma subtractPass_names (infos : list Trace.TraceInfo) :
  map Trace.Name (Trace.subtractPass infos) = map Trace.Name infos.
Proof.
  induction infos as [| t rest IH]; [reflexivity |].
  destruct rest as [| next rest']; [reflexivity |].
  change (Trace.subtractPass (t :: next :: rest'))
    with (Trace.set_Duration (Trace.Duration t - Trace.Duration next) t
            :: Trace.subtractPass (next :: rest')).
  cbn [map]. rewrite IH. reflexivity.
Qed.

Lemma told_log {L A} (ev : Event) (arg : A) (call : L -> Context -> A -> Context)
    (lns : list L) :
  forall r,
    log (fold_left (fun r ln => set_ctx (call ln (ctx r) arg) (emit ev r)) lns r)
    = log r ++ told (length lns) ev
    /\ traceInfos (fold_left (fun r ln => set_ctx (call ln (ctx r) arg) (emit ev r)) lns r)
       = traceInfos r.
Proof.
  induction lns as [| ln lns IH]; intros r; cbn.
  - rewrite app_nil_r. auto.
  - destruct (IH (set_ctx (call ln (ctx r) arg) (emit ev r))) as [-> ->]. cbn.
    rewrite <- app_assoc. auto.
Qed.

Lemma EmitTrace_log (infos : list Trace.TraceInfo) (r : Run) :
  log (EmitTrace fs infos r) = log r ++ told (length (traceListeners fs)) (EvEmitTrace infos).
Proof. apply (told_log (EvEmitTrace infos) infos (fun ln c a => ln c a)). Qed.

Lemma EmitError_log (e : Error) (r : Run) :
  log (EmitError fs e r) = log r ++ told (length (errorListeners fs)) (EvEmitError e).
Proof. apply (told_log (EvEmitError e) e (fun ln c a => ln c a)). Qed.

(** The records of a request.  With tracing on, the chain leaves one
    record per handler it called, in the order of the calls, except
    for the handlers named by the skip sentinel; the subtraction pass
    keeps the names, and every trace listener is told the result, once.
    With tracing off there is no record and no listener is told. *)
Theorem trace_records (path : string) (resp : ResponseWriter) (req : http_Request)
    (params : list (string * string)) (pooled : Context) (now : Z) :
  exists err r1,
    Next d fs handlerList (S (Z.to_nat (maxNext fs handlerList)))
         (initial d fs path resp req params pooled now) = Done (err, r1)
    /\ match traceInfos r1 with
       | Some raw =>
           EnableTrace d = true
           /\ map Trace.Name raw = traced (handlerNames (log r1))
           /\ map Trace.Name (Trace.subtractPass raw) = map Trace.Name raw
           /\ log (emitTraces fs r1)
              = log r1 ++ told (length (traceListeners fs))
                               (EvEmitTrace (Trace.subtractPass raw))
       | None => EnableTrace d = false /\ emitTraces fs r1 = r1
       end.
Proof.
  destruct (Next_fuel d fs handlerList (Z.to_nat (maxNext fs handlerList))
              (initial d fs path resp req params pooled now)) as (err & r1 & Hchain & _).
  { cbn. lia. }
  { cbn. unfold maxNext, maxMid, len. lia. }
  exists err, r1. split; [exact Hchain |].
  destruct (Next_records _ _ _ _ Hchain) as (l & Hl & Ht).
  cbn [initial traceInfos log app] in Hl, Ht.
  destruct (EnableTrace d).
  - destruct Ht as (new & Ht & Hn). cbn [app] in Ht. rewrite Ht, Hl.
    split; [reflexivity |]. split; [exact Hn |]. split; [apply subtractPass_names |].
    unfold emitTraces. rewrite Ht, EmitTrace_log. cbn. rewrite Hl. reflexivity.
  - rewrite Ht. split; [reflexivity |]. unfold emitTraces. rewrite Ht. reflexivity.
Qed.

End Chain.

(** *** The end of the closure *)

Section Finalizer.
Variables (d : Elton) (fs : Funcs) (env : Env) (handlerList : list Handler).

Lemma told_response (n : nat) (e : Error) : Forall responseEvent (told n (EvEmitError e)).
Proof. apply Forall_replicate. exact I. Qed.

Lemma Error__log (e : Error) (r r' : Run) :
  Error_ fs env e r = Done r' ->
  exists l, log r' = log r ++ l /\ Forall responseEvent l.
Proof.
  unfold Error_. cbn [ctx set_ctx].
  destruct (ErrorHandler fs) as [handle |].
  - intros [= <-]. exists [EvErrorHandler e]. split; [reflexivity | repeat constructor].
  - cbn [Response clearHeader fold_left set_Headers].
    destruct (Response (ctx r)); [| discriminate].
    destruct e; intros [= <-]; eexists; (split; [cbn; rewrite <- app_assoc; reflexivity |]);
      repeat constructor.
Qed.

Lemma writeBody_log (r r' : Run) :
  writeBody fs env r = Done r' ->
  exists l, log r' = log r ++ l /\ Forall responseEvent l.
Proof.
  unfold writeBody.
  destruct (BodyBuffer (ctx r)) as [buf |].
  - destruct (respWrite env buf) as [responseErr |]; intros [= <-].
    + rewrite (EmitError_log fs). cbn. rewrite <- !app_assoc. eexists. split; [reflexivity |].
      cbn. repeat constructor. apply told_response.
    + cbn. rewrite <- !app_assoc. eexists. split; [reflexivity |]. repeat constructor.
  - destruct (Body (ctx r)) as [[content closer | v] |].
    + unfold Pipe. cbn [ctx set_ctx emit Response set_Committed].
      destruct (Response (ctx r)); [| discriminate].
      destruct (ioCopy env content) as [pipeErr |]; intros [= <-].
      * rewrite (EmitError_log fs). cbn. rewrite <- !app_assoc. eexists. split; [reflexivity |].
        cbn. repeat constructor. apply told_response.
      * cbn. rewrite <- !app_assoc. eexists. split; [reflexivity |]. repeat constructor.
    + intros [= <-]. eexists. split; [reflexivity |]. repeat constructor.
    + intros [= <-]. eexists. split; [reflexivity |]. repeat constructor.
Qed.

Lemma respond_log (err : error) (r r' : Run) :
  respond fs env err r = Done r' ->
  exists l, log r' = log r ++ l /\ Forall responseEvent l.
Proof.
  unfold respond. destruct (Committed (ctx r)); cbn [negb].
  { intros [= <-]. exists []. rewrite app_nil_r. split; [reflexivity | constructor]. }
  destruct err as [e |].
  { intros H. apply Error__log in H. destruct H as (l & Hl & Hall). cbn in Hl.
    exists (EvBranch ErrorBranch :: l). rewrite Hl, <- app_assoc. split; [reflexivity |].
    constructor; [exact I | exact Hall]. }
  destruct (setContentLength r) as [r1 | |] eqn:Hlen; try discriminate.
  apply FinalizerFacts.setContentLength_fields in Hlen. destruct Hlen as (_ & _ & _ & Hl1 & _).
  intros H. apply writeBody_log in H. destruct H as (l & Hl & Hall).
  unfold writeStatus in Hl.
  destruct (negb (StatusCode (ctx r1) =? 0)).
  - cbn in Hl. rewrite Hl1, <- app_assoc in Hl. eexists. split; [exact Hl |].
    constructor; [exact I | exact Hall].
  - rewrite Hl1 in Hl. eauto.
Qed.

(** The order of a request.  First the chain: handlers and validators
    are called.  Then every trace listener is told the records (with
    tracing on), and every error listener the chain's error (if any).
    Then the finalizer answers.  Last, the Context goes back to the
    pool, if and only if it may be reused.  No handler or validator is
    called after the chain has returned, and nothing happens after the
    Context is back in the pool. *)
Theorem dispatch_phases (path : string) (resp : ResponseWriter) (req : http_Request)
    (params : list (string * string)) (pooled : Context) (now : Z) (r' : Run) :
  dispatch d fs env handlerList path resp req params pooled now = Done r' ->
  exists err r1 answer,
    Next d fs handlerList (S (Z.to_nat (maxNext fs handlerList)))
         (initial d fs path resp req params pooled now) = Done (err, r1)
    /\ Forall chainEvent (log r1)
    /\ log r' = log r1
                ++ match traceInfos r1 with
                   | Some raw => told (length (traceListeners fs))
                                      (EvEmitTrace (Trace.subtractPass raw))
                   | None => []
                   end
                ++ match err with
                   | Some e => told (length (errorListeners fs)) (EvEmitError e)
                   | None => []
                   end
                ++ answer
                ++ (if isReuse (ctx r') then [EvPoolPut] else [])
    /\ Forall responseEvent answer.
Proof.
  unfold dispatch, afterChain, finalize. intros H.
  destruct (Next d fs handlerList _ _) as [[err r1] | |] eqn:Hchain; try discriminate.
  destruct (respond fs env err _) as [r2 | |] eqn:Hr; try discriminate.
  injection H as <-.
  apply respond_log in Hr. destruct Hr as (answer & Hl & Hall).
  exists err, r1, answer. split; [reflexivity |].
  split.
  { apply Next_advances in Hchain. destruct Hchain as (_ & _ & l & Hlog & Hch & _).
    cbn in Hlog. rewrite Hlog. exact Hch. }
  split; [| exact Hall].
  assert (Hpool : log (release r2) = log r2 ++ (if isReuse (ctx (release r2)) then [EvPoolPut] else [])).
  { unfold release. cbn [ctx set_ctx].
    destruct (isReuse (set_Committed true (ctx r2))) eqn:E; cbn; rewrite E;
      [reflexivity | rewrite app_nil_r; reflexivity]. }
  assert (Htr : log (emitTraces fs r1)
                = log r1 ++ match traceInfos r1 with
                            | Some raw => told (length (traceListeners fs))
                                               (EvEmitTrace (Trace.subtractPass raw))
                            | None => []
                            end).
  { unfold emitTraces. destruct (traceInfos r1) as [raw |]; [| rewrite app_nil_r; reflexivity].
    rewrite EmitTrace_log. reflexivity. }
  assert (Her : log (emitErrors fs err (emitTraces fs r1))
                = log (emitTraces fs r1)
                  ++ match err with
                     | Some e => told (length (errorListeners fs)) (EvEmitError e)
                     | None => []
                     end).
  { destruct err as [e |]; cbn [emitErrors]; [apply EmitError_log | rewrite app_nil_r; reflexivity]. }
  rewrite Hpool, Hl, Her, Htr. rewrite <- !app_assoc. reflexivity.
Qed.

End Finalizer.
Import Examples MoreExamples.

Lemma dispatch_phases_witness :
  exists r',
    dispatch validatingElton noGlobals quietEnv [showUser] "/" recorder
             (request_with []) [("id", "ab")] zeroContext 0 = Done r'
    /\ exists err r1 answer,
        Next validatingElton noGlobals [showUser]
             (S (Z.to_nat (maxNext noGlobals [showUser])))
             (initial validatingElton noGlobals "/" recorder (request_with [])
                      [("id", "ab")] zeroContext 0) = Done (err, r1)
        /\ Forall chainEvent (log r1)
        /\ log r' = log r1
                    ++ match traceInfos r1 with
                       | Some raw => told (length (traceListeners noGlobals))
                                          (EvEmitTrace (Trace.subtractPass raw))
                       | None => []
                       end
                    ++ match err with
                       | Some e => told (length (errorListeners noGlobals)) (EvEmitError e)
                       | None => []
                       end
                    ++ answer
                    ++ (if isReuse (ctx r') then [EvPoolPut] else [])
        /\ Forall responseEvent answer.
Proof.
  assert (E : exists r',
             dispatch validatingElton noGlobals quietEnv [showUser] "/" recorder
                      (request_with []) [("id", "ab")] zeroContext 0 = Done r')
    by (eexists; vm_compute; reflexivity).
  destruct E as [r' E]. exists r'. split; [exact E |].
  exact (dispatch_phases validatingElton noGlobals quietEnv [showUser] "/" recorder
           (request_with []) [("id", "ab")] zeroContext 0 r' E).
Defined.

(** The request /users/ab of the validator scenario, in phases: the
    validator is called; the error mapper answers 500 with the
    validator's message; the Context goes back to the pool. *)
Example phases_run :
  match serve validatingElton noGlobals [showUser] [("id", "ab")] with
  | Done r' => log r' = [EvValidate "id" "ab"; EvBranch ErrorBranch; EvWriteHeader 500;
                         EvWrite "id should be numbers"; EvPoolPut]
  | _ => False
  end.
Proof. vm_compute. reflexivity. Qed.

(** The traced chain A, -, C: the handler named by the sentinel gets
    no record. *)
Example trace_records_run :
  match serve tracedElton noGlobals [workThenNext "A" 1; workThenNext "-" 2; worker "C" 7] [] with
  | Done r' => map Trace.Name <$> traceInfos r' = Some ["A"; "C"]
               /\ handlerNames (log r') = ["A"; "-"; "C"]
  | _ => False
  end.
Proof. vm_compute. split; reflexivity. Qed.

End ObservedFacts.

Module AnswerFacts.
Import GoStrings Ctx Dispatch DispatchFacts CtxMethods Observed HeaderFacts ObservedFacts.

Lemma utoa_nonEmpty (fuel : nat) :
  forall n acc, nonEmpty acc = true -> nonEmpty (utoa fuel n acc) = true.
Proof.
  induction fuel as [| fuel IH]; intros n acc Hacc; cbn; [exact Hacc |].
  destruct (n <? 10); [reflexivity |]. apply IH. reflexivity.
Qed.

Lemma Itoa_nonEmpty (n : Z) : nonEmpty (Itoa n) = true.
Proof.
  unfold Itoa. destruct (n <? 0); [reflexivity |].
  cbn [utoa]. destruct (n <? 10); [reflexivity |]. apply utoa_nonEmpty. reflexivity.
Qed.

Section Answers.
Variables (d : Elton) (fs : Funcs) (env : Env) (handlerList : list Handler).

Lemma GetHeader_set_Headers (key : string) (oh : option http_Header) (c : Context) :
  GetHeader key (set_Headers oh c)
  = match oh with Some h => Header_Get h key | None => EmptyString end.
Proof. reflexivity. Qed.

Lemma clearHeader_fold (keys : list string) :
  forall c,
    exists oh,
      fold_left (fun c key => clearHeader key c) keys c = set_Headers oh c
      /\ forall key,
           GetHeader key (set_Headers oh c)
           = if decide (CanonicalMIMEHeaderKey key ∈ map CanonicalMIMEHeaderKey keys)
             then EmptyString else GetHeader key c.
Proof.
  induction keys as [| key0 keys IH]; intros c; cbn [fold_left map].
  - exists (Headers c). split; [destruct c; reflexivity |].
    intros key. rewrite decide_False by apply not_elem_of_nil.
    destruct c; reflexivity.
  - destruct (IH (clearHeader key0 c)) as (oh & Hfold & Hget).
    exists oh. split; [rewrite Hfold; reflexivity |].
    intros key. specialize (Hget key).
    change (GetHeader key (set_Headers oh (clearHeader key0 c)))
      with (GetHeader key (set_Headers oh c)) in Hget.
    rewrite Hget.
    assert (Hdel : GetHeader key (clearHeader key0 c)
                   = if decide (CanonicalMIMEHeaderKey key = CanonicalMIMEHeaderKey key0)
                     then EmptyString else GetHeader key c).
    { unfold clearHeader, GetHeader. cbn [Headers set_Headers].
      destruct (Headers c) as [h |]; cbn; [apply Header_Get_Del |].
      destruct (decide (CanonicalMIMEHeaderKey key = CanonicalMIMEHeaderKey key0));
        reflexivity. }
    rewrite Hdel. clear Hget Hdel.
    destruct (decide (CanonicalMIMEHeaderKey key ∈ map CanonicalMIMEHeaderKey keys)) as [Hin | Hnin];
      destruct (decide (CanonicalMIMEHeaderKey key = CanonicalMIMEHeaderKey key0)) as [Heq | Hne];
      destruct (decide (CanonicalMIMEHeaderKey key
                        ∈ CanonicalMIMEHeaderKey key0 :: map CanonicalMIMEHeaderKey keys))
        as [Hin' | Hnin']; try reflexivity; exfalso.
    + apply Hnin'. apply elem_of_cons. right. exact Hin.
    + apply Hnin'. apply elem_of_cons. right. exact Hin.
    + apply Hnin'. apply elem_of_cons. left. exact Heq.
    + apply elem_of_cons in Hin' as [Heq | Hin]; contradiction.
Qed.

(** The answer to an error.  When the chain returns an error, no error
    handler is installed and no listener has committed the response,
    the closure tells every error listener once, then answers with the
    status code the error carries (500 when it carries none) and the
    error's text, and drops the headers ETag, Last-Modified,
    Content-Encoding and Content-Length, keeping the others. *)
Theorem error_response (e : Error) (r : Run) (w : ResponseWriter) :
  ErrorHandler fs = None ->
  Committed (ctx (EmitError fs e r)) = false ->
  Response (ctx (EmitError fs e r)) = Some w ->
  exists r' oh,
    finalize fs env (Some e) r = Done r'
    /\ log r' = log r ++ told (length (errorListeners fs)) (EvEmitError e)
                ++ [EvBranch ErrorBranch; EvWriteHeader (statusOf e);
                    EvWrite (errorText env e)]
                ++ (if isReuse (ctx r') then [EvPoolPut] else [])
    /\ ctx r' = set_Committed true (set_Headers oh (ctx (EmitError fs e r)))
    /\ (forall key,
          GetHeader key (ctx r')
          = if decide (CanonicalMIMEHeaderKey key ∈ map CanonicalMIMEHeaderKey cleared)
            then EmptyString else GetHeader key (ctx (EmitError fs e r))).
Proof.
  intros Hno Hc Hw. unfold finalize, respond. cbn [emitErrors]. rewrite Hc. cbn [negb].
  unfold Error_. rewrite Hno. cbn [ctx set_ctx emit].
  destruct (clearHeader_fold cleared (ctx (EmitError fs e r))) as (oh & Hfold & Hget).
  unfold cleared in Hfold. rewrite Hfold. cbn [Response set_Headers]. rewrite Hw.
  assert (Hdone : forall code,
    exists r',
      Done (release (emit (EvWrite (errorText env e))
              (emit (EvWriteHeader code)
                 (set_ctx (set_Headers oh (ctx (EmitError fs e r)))
                    (emit (EvBranch ErrorBranch) (EmitError fs e r)))))) = Done r'
      /\ log r' = log r ++ told (length (errorListeners fs)) (EvEmitError e)
                  ++ [EvBranch ErrorBranch; EvWriteHeader code; EvWrite (errorText env e)]
                  ++ (if isReuse (ctx r') then [EvPoolPut] else [])
      /\ ctx r' = set_Committed true (set_Headers oh (ctx (EmitError fs e r)))).
  { intros code. eexists. split; [reflexivity |].
    unfold release. cbn [ctx set_ctx emit].
    destruct (isReuse _) eqn:E; cbn [ctx set_ctx emit log]; rewrite ?E;
      rewrite (EmitError_log fs), <- !app_assoc; cbn [app]; rewrite ?app_nil_r; auto. }
  destruct (Hdone (statusOf e)) as (r' & Hr' & Hlog & Hctx).
  exists r', oh. split; [destruct e; exact Hr' |]. split; [exact Hlog |]. split; [exact Hctx |].
  intros key. rewrite Hctx. exact (Hget key).
Qed.

Lemma buffer_answer (r : Run) (buf : string) (h : http_Header) :
  Committed (ctx r) = false -> BodyBuffer (ctx r) = Some buf -> Headers (ctx r) = Some h ->
  exists r0 h',
    finalize fs env None r = Done (release (emitErrors fs (respWrite env buf) r0))
    /\ log r0 = log r
                ++ (if StatusCode (ctx r) =? 0 then [] else [EvWriteHeader (StatusCode (ctx r))])
                ++ [EvBranch BufferBranch; EvWrite buf]
    /\ ctx r0 = set_Headers (Some h') (ctx r)
    /\ GetHeader HeaderContentLength (ctx r0) = Itoa (Z.of_nat (String.length buf))
    /\ (forall key, CanonicalMIMEHeaderKey key <> CanonicalMIMEHeaderKey HeaderContentLength ->
                    GetHeader key (ctx r0) = GetHeader key (ctx r)).
Proof.
  intros Hc Hbuf Hh. unfold finalize, respond. cbn [emitErrors]. rewrite Hc. cbn [negb].
  unfold setContentLength, SetHeader. rewrite Hbuf, Itoa_nonEmpty, Hh.
  set (h' := Header_Set HeaderContentLength (Itoa (Z.of_nat (String.length buf))) h).
  unfold writeBody, writeStatus. cbn [ctx set_ctx StatusCode set_Headers].
  assert (Hget : forall key,
             Header_Get h' key
             = if decide (CanonicalMIMEHeaderKey key = CanonicalMIMEHeaderKey HeaderContentLength)
               then Itoa (Z.of_nat (String.length buf)) else Header_Get h key)
    by (intros key; apply Header_Get_Set).
  destruct (StatusCode (ctx r) =? 0); cbn [negb ctx set_ctx emit BodyBuffer set_Headers];
    rewrite Hbuf.
  - eexists (emit (EvWrite buf) (emit (EvBranch BufferBranch) _)), h'.
    split; [destruct (respWrite env buf); reflexivity |].
    split; [cbn; rewrite <- app_assoc; reflexivity |].
    split; [reflexivity |]. unfold GetHeader. cbn. rewrite Hh. split.
    + rewrite Hget, decide_True by reflexivity. reflexivity.
    + intros key Hne. rewrite Hget, decide_False by exact Hne. reflexivity.
  - eexists (emit (EvWrite buf) (emit (EvBranch BufferBranch) _)), h'.
    split; [destruct (respWrite env buf); reflexivity |].
    split; [cbn; rewrite <- !app_assoc; reflexivity |].
    split; [reflexivity |]. unfold GetHeader. cbn. rewrite Hh. split.
    + rewrite Hget, decide_True by reflexivity. reflexivity.
    + intros key Hne. rewrite Hget, decide_False by exact Hne. reflexivity.
Qed.

(** The answer from the body buffer.  When the chain returns no error
    and leaves a body buffer on an uncommitted response with a header
    map, the closure sets Content-Length to the number of bytes in the
    buffer, writes the status code if one was set, and writes the
    buffer: in the state [r0] reached then, nothing but the headers
    has changed.  Listeners hear of a failed write; the Context is
    committed and goes back to the pool if it may be reused. *)
Theorem buffer_response (r : Run) (buf : string) (h : http_Header) :
  Committed (ctx r) = false -> BodyBuffer (ctx r) = Some buf -> Headers (ctx r) = Some h ->
  exists r0 h',
    finalize fs env None r = Done (release (emitErrors fs (respWrite env buf) r0))
    /\ log r0 = log r
                ++ (if StatusCode (ctx r) =? 0 then [] else [EvWriteHeader (StatusCode (ctx r))])
                ++ [EvBranch BufferBranch; EvWrite buf]
    /\ ctx r0 = set_Headers (Some h') (ctx r)
    /\ GetHeader HeaderContentLength (ctx r0) = Itoa (Z.of_nat (String.length buf))
    /\ (forall key, CanonicalMIMEHeaderKey key <> CanonicalMIMEHeaderKey HeaderContentLength ->
                    GetHeader key (ctx r0) = GetHeader key (ctx r)).
Proof. exact (buffer_answer r buf h). Qed.

(** *** The Context as a response writer *)

Lemma Write_fields (buf : string) (c : Context) :
  BodyBuffer (Write buf c).2 = Some (default EmptyString (BodyBuffer c) +:+ buf)
  /\ set_BodyBuffer (BodyBuffer c) (Write buf c).2 = c.
Proof.
  unfold Write. destruct (BodyBuffer c) as [old |] eqn:E; cbn; rewrite ?E;
    (split; [reflexivity |]); destruct c; cbn in *; subst; reflexivity.
Qed.

Lemma writes_fields (bufs : list string) :
  forall c,
    BodyBuffer (writes bufs c)
    = match bufs with
      | [] => BodyBuffer c
      | _ :: _ => Some (default EmptyString (BodyBuffer c) +:+ joined bufs)
      end
    /\ set_BodyBuffer (BodyBuffer c) (writes bufs c) = c.
Proof.
  induction bufs as [| buf bufs IH]; intros c.
  - cbn. split; [reflexivity | destruct c; reflexivity].
  - change (writes (buf :: bufs) c) with (writes bufs (Write buf c).2).
    destruct (IH (Write buf c).2) as [Hb Hrest].
    destruct (Write_fields buf c) as [Hb1 Hrest1].
    split.
    + rewrite Hb, Hb1. destruct bufs as [| buf' bufs']; unfold joined; cbn [from_option id fold_right].
      * rewrite TraceFacts.app_empty_r. reflexivity.
      * rewrite TraceFacts.app_assoc. reflexivity.
    + transitivity (set_BodyBuffer (BodyBuffer c)
                      (set_BodyBuffer (BodyBuffer (Write buf c).2)
                         (writes bufs (Write buf c).2)));
        [reflexivity | rewrite Hrest; exact Hrest1].
Qed.

(** Writing through the Context.  [Write] sends nothing: it returns
    the number of bytes it was given, no error, and appends them to
    the body buffer, leaving everything else as it is.  After
    [WriteHeader] and any writes on an uncommitted response, the
    closure sends the status code (unless it is 0) and then everything
    that was written, as one write, with Content-Length set to the
    total number of bytes. *)
Theorem Write_collects (r : Run) (code : Z) (bufs : list string) (h : http_Header) :
  bufs <> [] -> Committed (ctx r) = false -> Headers (ctx r) = Some h ->
  Forall (fun buf => forall c, (Write buf c).1 = (Z.of_nat (String.length buf), None)) bufs
  /\ BodyBuffer (writes bufs (WriteHeader code (ctx r)))
     = Some (default EmptyString (BodyBuffer (ctx r)) +:+ joined bufs)
  /\ set_BodyBuffer (BodyBuffer (ctx r)) (writes bufs (WriteHeader code (ctx r)))
     = set_StatusCode code (ctx r)
  /\ exists r0,
      finalize fs env None (set_ctx (writes bufs (WriteHeader code (ctx r))) r)
      = Done (release (emitErrors fs
                         (respWrite env (default EmptyString (BodyBuffer (ctx r)) +:+ joined bufs))
                         r0))
      /\ log r0 = log r
                  ++ (if code =? 0 then [] else [EvWriteHeader code])
                  ++ [EvBranch BufferBranch;
                      EvWrite (default EmptyString (BodyBuffer (ctx r)) +:+ joined bufs)]
      /\ GetHeader HeaderContentLength (ctx r0)
         = Itoa (Z.of_nat (String.length
                             (default EmptyString (BodyBuffer (ctx r)) +:+ joined bufs))).
Proof.
  intros Hne Hc Hh.
  destruct (writes_fields bufs (WriteHeader code (ctx r))) as [Hbuf Hrest].
  destruct bufs as [| buf bufs]; [congruence |].
  change (BodyBuffer (WriteHeader code (ctx r))) with (BodyBuffer (ctx r)) in Hbuf, Hrest.
  split; [apply Forall_forall; intros buf0 _ c; reflexivity |].
  split; [exact Hbuf |]. split; [exact Hrest |].
  set (c' := writes (buf :: bufs) (WriteHeader code (ctx r))) in *.
  assert (Hc' : Committed c' = false).
  { change (Committed c') with (Committed (set_BodyBuffer (BodyBuffer (ctx r)) c')).
    rewrite Hrest. exact Hc. }
  assert (Hh' : Headers c' = Some h).
  { change (Headers c') with (Headers (set_BodyBuffer (BodyBuffer (ctx r)) c')).
    rewrite Hrest. exact Hh. }
  assert (Hs' : StatusCode c' = code).
  { change (StatusCode c') with (StatusCode (set_BodyBuffer (BodyBuffer (ctx r)) c')).
    rewrite Hrest. reflexivity. }
  destruct (buffer_answer (set_ctx c' r) _ h Hc' Hbuf Hh') as (r0 & h' & Hfin & Hlog & _ & Hlen & _).
  exists r0. split; [exact Hfin |]. split; [| exact Hlen].
  rewrite Hlog. cbn [ctx set_ctx log]. rewrite Hs'. reflexivity.
Qed.

End Answers.
Import Examples MoreExamples.

Lemma error_response_witness :
  exists r' oh,
    finalize noGlobals quietEnv (Some errDigits) (freshRun plainElton noGlobals []) = Done r'
    /\ log r' = [EvBranch ErrorBranch; EvWriteHeader 500; EvWrite "id should be numbers";
                 EvPoolPut]
    /\ ctx r' = set_Committed true (set_Headers oh (ctx (freshRun plainElton noGlobals []))).
Proof.
  destruct (error_response noGlobals quietEnv errDigits (freshRun plainElton noGlobals [])
              recorder eq_refl eq_refl eq_refl) as (r' & oh & Hfin & Hlog & Hctx & _).
  exists r', oh. split; [exact Hfin |]. split; [| exact Hctx].
  rewrite Hlog, Hctx. reflexivity.
Defined.

Lemma buffer_response_witness :
  exists r0 h',
    finalize noGlobals quietEnv None buffered = Done (release r0)
    /\ log r0 = [EvBranch BufferBranch; EvWrite "hello"]
    /\ ctx r0 = set_Headers (Some h') (ctx buffered)
    /\ GetHeader HeaderContentLength (ctx r0) = "5".
Proof.
  destruct (buffer_response noGlobals quietEnv buffered "hello" ∅ eq_refl eq_refl eq_refl)
    as (r0 & h' & Hfin & Hlog & Hctx & Hlen & _).
  exists r0, h'. split; [exact Hfin |]. split; [exact Hlog |]. split; [exact Hctx | exact Hlen].
Defined.

Lemma Write_collects_witness :
  BodyBuffer (writes ["he"; "llo"] (WriteHeader 200 (ctx (freshRun plainElton noGlobals []))))
  = Some "hello"
  /\ exists r0,
      finalize noGlobals quietEnv None
        (set_ctx (writes ["he"; "llo"] (WriteHeader 200 (ctx (freshRun plainElton noGlobals []))))
                 (freshRun plainElton noGlobals []))
      = Done (release r0)
      /\ log r0 = [EvWriteHeader 200; EvBranch BufferBranch; EvWrite "hello"]
      /\ GetHeader HeaderContentLength (ctx r0) = "5".
Proof.
  destruct (Write_collects noGlobals quietEnv (freshRun plainElton noGlobals []) 200
              ["he"; "llo"] ∅ ltac:(discriminate) eq_refl eq_refl)
    as (_ & Hbuf & _ & r0 & Hfin & Hlog & Hlen).
  split; [exact Hbuf |]. exists r0. split; [exact Hfin |]. split; [exact Hlog | exact Hlen].
Defined.

End AnswerFacts.

Module BodyParserFacts.
Import GoStrings Ctx Dispatch CtxMethods Middleware BodyParser.

(** *** [strings.Split] and [strings.Join] *)

Lemma Split_free (sep : ascii) (s : string) : free sep s = true -> Split s sep = [s].
Proof.
  induction s as [| c s IH]; cbn; [reflexivity |].
  intros H. apply andb_true_iff in H as [Hc Hs]. apply negb_true_iff in Hc.
  rewrite Hc, (IH Hs). reflexivity.
Qed.

Lemma Split_app (sep : ascii) (s t : string) :
  free sep s = true -> Split (s +:+ String sep t) sep = s :: Split t sep.
Proof.
  induction s as [| c s IH]; cbn [free].
  - intros _. change (EmptyString +:+ String sep t) with (String sep t).
    cbn [Split]. rewrite Ascii.eqb_refl. reflexivity.
  - intros H. apply andb_true_iff in H as [Hc Hs]. apply negb_true_iff in Hc.
    change (String c s +:+ String sep t) with (String c (s +:+ String sep t)).
    cbn [Split]. rewrite Hc, (IH Hs). reflexivity.
Qed.

Lemma Split_Join (sep : ascii) (xs : list string) :
  xs <> [] -> Forall (fun x => free sep x = true) xs ->
  Split (Join xs (String sep EmptyString)) sep = xs.
Proof.
  induction xs as [| x xs IH]; [congruence |]. intros _ Hall.
  apply Forall_cons in Hall as [Hx Hxs].
  destruct xs as [| y ys].
  - cbn. apply Split_free. exact Hx.
  - change (Join (x :: y :: ys) (String sep EmptyString))
      with (x +:+ String sep EmptyString +:+ Join (y :: ys) (String sep EmptyString)).
    change (String sep EmptyString +:+ ?t) with (String sep t).
    rewrite Split_app by exact Hx. rewrite IH; [reflexivity | discriminate | exact Hxs].
Qed.

Lemma free_app (sep : ascii) (s t : string) :
  free sep (s +:+ t) = free sep s && free sep t.
Proof.
  induction s as [| c s IH]; [reflexivity |].
  change (String c s +:+ t) with (String c (s +:+ t)). cbn [free].
  rewrite IH. apply andb_assoc.
Qed.

Lemma prefix_app (p s : string) : String.prefix p s = true -> exists rest, s = p +:+ rest.
Proof.
  revert s. induction p as [| a p IH]; intros s H; [exists s; reflexivity |].
  destruct s as [| b s]; [discriminate |]. cbn in H.
  destruct (ascii_dec a b) as [<- |]; [| discriminate].
  destruct (IH s H) as [rest ->]. exists rest. reflexivity.
Qed.

(** A content type is not both JSON and form data. *)
Lemma types_exclusive (ct : string) :
  HasPrefix ct jsonContentType = true -> HasPrefix ct formURLEncodedContentType = false.
Proof.
  unfold HasPrefix. intros Hj.
  destruct (String.prefix formURLEncodedContentType ct) eqn:Hf; [| reflexivity].
  apply prefix_app in Hj as [rest1 ->]. apply prefix_app in Hf as [rest2 Hf].
  discriminate Hf.
Qed.

Section WithLibraries.
Context `{names : Names} `{data : RequestData}.
Variable url_QueryUnescape : string -> string.
Variable errorText : Error -> string.

Local Abbreviation parser := (NewBodyParser url_QueryUnescape errorText).

Lemma valid_methods (method : string) :
  existsb (fun item => String.eqb item method) validMethods
  = bool_decide (method ∈ validMethods).
Proof.
  unfold validMethods. cbn [existsb].
  destruct (bool_decide (method ∈ [MethodPost; MethodPatch; MethodPut])) eqn:E.
  - apply bool_decide_eq_true in E.
    repeat (apply elem_of_cons in E as [-> | E]; [rewrite String.eqb_refl, ?orb_true_r; reflexivity |]).
    inversion E.
  - apply bool_decide_eq_false in E.
    repeat match goal with
           | |- context [String.eqb ?a method] =>
               destruct (String.eqb_spec a method) as [<- |];
               [exfalso; apply E; repeat constructor |]
           end.
    reflexivity.
Qed.

(** The decisions of the parser, gathered into [reads]. *)
Lemma parser_reads (config : BodyParserConfig)
    (next : Run -> Outcome (error * Run)) (r : Run) (req : http_Request) :
  Request (ctx r) = Some req ->
  parser config next r
  = if reads config (ctx r) req then
      match ioutil_ReadAll req with
      | (_, Some e) => Done (Some (HesError StatusBadRequest (errorText e)), r)
      | (body, None) =>
          let size := Z.of_nat (String.length body) in
          if (0 <? limitOf config) && (limitOf config <? size)
          then Done (Some (HesError StatusBadRequest (tooLarge size (limitOf config))), r)
          else next (set_ctx
                       (set_RequestBody
                          (Some (if HasPrefix (Header_Get (Header req) HeaderContentType)
                                              formURLEncodedContentType
                                 then formToJSON url_QueryUnescape body else body))
                          (ctx r)) r)
      end
    else next r.
Proof.
  intros Hreq. unfold NewBodyParser, reads, limitOf. rewrite Hreq, valid_methods.
  set (skip := match Skipper config with None => DefaultSkipper | Some skipper => skipper end).
  replace (match Skipper config with
           | None => DefaultSkipper (ctx r) | Some skipper => skipper (ctx r) end)
    with (skip (ctx r)) by (unfold skip; destruct (Skipper config); reflexivity).
  destruct (skip (ctx r)); [reflexivity |]. cbn [orb negb andb].
  destruct (RequestBody (ctx r)); [reflexivity |].
  destruct (bool_decide _); [| reflexivity]. cbn [negb andb].
  destruct (HasPrefix _ jsonContentType) eqn:Hj.
  - rewrite (types_exclusive _ Hj). cbn [negb andb orb].
    destruct (IgnoreJSON config); [reflexivity |]. cbn [negb].
    destruct (Limit config =? 0); reflexivity.
  - cbn [negb andb orb].
    destruct (HasPrefix _ formURLEncodedContentType); [| reflexivity].
    cbn [negb andb orb].
    destruct (IgnoreFormURLEncoded config); [reflexivity |]. cbn [negb].
    destruct (Limit config =? 0); reflexivity.
Qed.

(** What the body parser does, for a Context with a request: when it
    does not read the body (skipped, a body parsed before, a method
    that submits no data, a content type it does not handle) it only
    calls the next handler; when reading fails, or the body is longer
    than a positive limit, it returns an error of status 400 and
    neither calls the next handler nor changes anything; otherwise it
    stores the body (a form body converted to JSON text) and calls the
    next handler. *)
Theorem NewBodyParser_cases (config : BodyParserConfig)
    (next : Run -> Outcome (error * Run)) (r : Run) (req : http_Request) :
  Request (ctx r) = Some req ->
  parser config next r
  = if reads config (ctx r) req then
      match ioutil_ReadAll req with
      | (_, Some e) => Done (Some (HesError StatusBadRequest (errorText e)), r)
      | (body, None) =>
          let size := Z.of_nat (String.length body) in
          if (0 <? limitOf config) && (limitOf config <? size)
          then Done (Some (HesError StatusBadRequest (tooLarge size (limitOf config))), r)
          else next (set_ctx
                       (set_RequestBody
                          (Some (if HasPrefix (Header_Get (Header req) HeaderContentType)
                                              formURLEncodedContentType
                                 then formToJSON url_QueryUnescape body else body))
                          (ctx r)) r)
      end
    else next r.
Proof. exact (parser_reads config next r req). Qed.

(** The body parser relates to the next handler in one of three ways
    that the next handler has no part in choosing: it passes the run
    on as it is, it ends the run itself, or it passes the run on with
    a request body stored. *)
Lemma parser_ways (config : BodyParserConfig) (r : Run) :
  (forall next, parser config next r = next r)
  \/ (exists o, forall next, parser config next r = o)
  \/ (exists body, RequestBody (ctx r) = None
        /\ forall next,
             parser config next r
             = next (set_ctx (set_RequestBody (Some body) (ctx r)) r)).
Proof.
  destruct (Request (ctx r)) as [req |] eqn:Hreq.
  - destruct (reads config (ctx r) req) eqn:Hreads.
    + destruct (ioutil_ReadAll req) as [body [e |]] eqn:Hread.
      * right. left. eexists. intros next.
        rewrite (parser_reads _ _ _ _ Hreq), Hreads, Hread. reflexivity.
      * destruct ((0 <? limitOf config) && (limitOf config <? Z.of_nat (String.length body)))
          eqn:Hlim.
        -- right. left. eexists. intros next.
           rewrite (parser_reads _ _ _ _ Hreq), Hreads, Hread. cbv zeta.
           rewrite Hlim. reflexivity.
        -- right. right. eexists. split.
           { unfold reads in Hreads. destruct (RequestBody (ctx r)); [| reflexivity].
             rewrite andb_false_r in Hreads. discriminate. }
           intros next.
           rewrite (parser_reads _ _ _ _ Hreq), Hreads, Hread. cbv zeta.
           rewrite Hlim. reflexivity.
    + left. intros next. rewrite (parser_reads _ _ _ _ Hreq), Hreads. reflexivity.
  - unfold NewBodyParser. rewrite Hreq.
    destruct (_ || _); [left | right; left; exists Panic]; reflexivity.
Qed.

(** Installing the body parser twice is the same as installing it
    once: the second one finds the body parsed, or skips for the same
    reason as the first, or is never reached. *)
Theorem NewBodyParser_twice (config : BodyParserConfig)
    (next : Run -> Outcome (error * Run)) (r : Run) :
  parser config (parser config next) r = parser config next r.
Proof.
  destruct (parser_ways config r) as [Hskip | [[o Hend] | (body & Hnone & Hstore)]].
  - rewrite (Hskip (parser config next)). reflexivity.
  - rewrite (Hend (parser config next)), (Hend next). reflexivity.
  - rewrite (Hstore (parser config next)), (Hstore next).
    unfold NewBodyParser. cbn [ctx set_ctx RequestBody set_RequestBody].
    rewrite orb_true_r. reflexivity.
Qed.

Lemma formPair_piece (kv : string * string) :
  free "="%char (fst kv) = true -> free "="%char (snd kv) = true ->
  formPair url_QueryUnescape (piece kv) = member url_QueryUnescape kv.
Proof.
  intros Hk Hv. unfold formPair, piece, member, decoded.
  change ("=" +:+ snd kv) with (String "="%char (snd kv)).
  rewrite Split_app by exact Hk. rewrite Split_free by exact Hv.
  cbn [length Nat.ltb Nat.leb nth]. unfold quoted.
  rewrite ?TraceFacts.app_assoc. reflexivity.
Qed.

(** The conversion of a form body.  For names and values without the
    bytes & and =, the body name=value&...&name=value becomes the JSON
    text of an object with the same names in the same order, each with
    its value in double quotes: the value as [url.QueryUnescape]
    decodes it, or as it stands when the decoding fails or is empty.
    The empty body becomes the empty object. *)
Theorem formToJSON_pairs (kvs : list (string * string)) :
  Forall (fun kv => free "&"%char (fst kv) = true /\ free "="%char (fst kv) = true
                    /\ free "&"%char (snd kv) = true /\ free "="%char (snd kv) = true) kvs ->
  formToJSON url_QueryUnescape (Join (map piece kvs) "&")
  = "{" +:+ Join (map (member url_QueryUnescape) kvs) "," +:+ "}".
Proof.
  intros Hall. unfold formToJSON.
  destruct kvs as [| kv kvs]; [reflexivity |].
  rewrite Split_Join.
  - rewrite map_map. f_equal. f_equal. f_equal. apply map_ext_Forall.
    eapply Forall_impl; [exact Hall |]. cbn. intros kv0 (_ & Hk & _ & Hv).
    apply formPair_piece; assumption.
  - discriminate.
  - apply Forall_map. eapply Forall_impl; [exact Hall |]. cbn.
    intros kv0 (Hk & _ & Hv & _). unfold piece. rewrite !free_app, Hk, Hv. reflexivity.
Qed.

End WithLibraries.

Import Examples MoreExamples.

Lemma NewBodyParser_cases_witness :
  NewBodyParser (names := exampleNames) (data := posted "a=1&b=2") id errorTextOf
    {| Limit := 0; IgnoreJSON := false; IgnoreFormURLEncoded := false; BodyParser.Skipper := None |}
    done (typedRun "application/x-www-form-urlencoded; charset=utf-8")
  = Done (None,
          set_ctx (set_RequestBody
                     (Some ("{" +:+ Trace.dquote +:+ "a" +:+ Trace.dquote +:+ ":"
                                +:+ Trace.dquote +:+ "1" +:+ Trace.dquote +:+ ","
                                +:+ Trace.dquote +:+ "b" +:+ Trace.dquote +:+ ":"
                                +:+ Trace.dquote +:+ "2" +:+ Trace.dquote +:+ "}"))
                     (ctx (typedRun "application/x-www-form-urlencoded; charset=utf-8")))
                  (typedRun "application/x-www-form-urlencoded; charset=utf-8"))
  /\ NewBodyParser (names := exampleNames) (data := posted "a=1&b=2") id errorTextOf
       {| Limit := 5; IgnoreJSON := false; IgnoreFormURLEncoded := false; BodyParser.Skipper := None |}
       done (typedRun "application/json")
     = Done (Some (HesError 400 "request body is 7 bytes, it should be <= 5"),
             typedRun "application/json").
Proof.
  split.
  - rewrite (NewBodyParser_cases (names := exampleNames) (data := posted "a=1&b=2")
               id errorTextOf _ done
               (typedRun "application/x-www-form-urlencoded; charset=utf-8")
               (typed "application/x-www-form-urlencoded; charset=utf-8") eq_refl).
    reflexivity.
  - rewrite (NewBodyParser_cases (names := exampleNames) (data := posted "a=1&b=2")
               id errorTextOf _ done (typedRun "application/json")
               (typed "application/json") eq_refl).
    reflexivity.
Defined.

Lemma formToJSON_pairs_witness :
  formToJSON id (Join (map piece [("a", "1"); ("b", "2")]) "&")
  = "{" +:+ Join (map (member id) [("a", "1"); ("b", "2")]) "," +:+ "}".
Proof.
  apply (formToJSON_pairs id [("a", "1"); ("b", "2")]).
  repeat constructor.
Defined.

End BodyParserFacts.

Module FreshFacts.
Import GoStrings Ctx Dispatch CtxMethods Middleware Fresh.

Section WithLibraries.
Context `{names : Names} `{data : RequestData}.
Variable fresh_Fresh : http_Header -> option http_Header -> bool.

Lemma SetHeader_empty (key : string) (c : Context) :
  SetHeader key EmptyString c = Some (Dispatch.clearHeader key c).
Proof. reflexivity. Qed.

(** [NotModified] never panics; it sets the status 304, drops the
    body, and leaves the flag and the request alone. *)
Lemma NotModified_fields (c : Context) :
  exists c', NotModified c = Some c'
    /\ StatusCode c' = StatusNotModified /\ Body c' = None /\ BodyBuffer c' = None
    /\ Committed c' = Committed c /\ Request c' = Request c /\ Response c' = Response c.
Proof.
  unfold NotModified. rewrite !SetHeader_empty. cbn. eexists. split; [reflexivity |].
  repeat split.
Qed.

(** The fresh checker, when it is not skipped and the Context has a
    request once the rest of the chain has returned: an error of the
    chain passes through with the run as the chain left it; without
    error the run is as the chain left it, except that a response
    which [turns] (GET or HEAD, status 0 or 2xx, a body in the buffer,
    validators that match) becomes 304 Not Modified without body. *)
Theorem NewFresh_cases (config : FreshConfig) (next : Run -> Outcome (error * Run))
    (r r1 : Run) (err : error) (req : http_Request) :
  match Skipper config with None => DefaultSkipper (ctx r) | Some skipper => skipper (ctx r) end
  = false ->
  next r = Done (err, r1) ->
  Request (ctx r1) = Some req ->
  exists r2,
    NewFresh fresh_Fresh config next r = Done (err, r2)
    /\ log r2 = log r1 /\ index r2 = index r1 /\ traceInfos r2 = traceInfos r1
    /\ (match err with Some _ => false | None => turns fresh_Fresh (ctx r1) req end = false ->
        r2 = r1)
    /\ (match err with Some _ => false | None => turns fresh_Fresh (ctx r1) req end = true ->
        NotModified (ctx r1) = Some (ctx r2)
        /\ StatusCode (ctx r2) = StatusNotModified
        /\ Body (ctx r2) = None /\ BodyBuffer (ctx r2) = None).
Proof.
  intros Hskip Hnext Hreq. unfold NewFresh.
  replace (match Skipper config with None => DefaultSkipper | Some skipper => skipper end (ctx r))
    with false by (rewrite <- Hskip; destruct (Skipper config); reflexivity).
  rewrite Hnext. destruct err as [e |].
  { exists r1. repeat split; discriminate. }
  unfold turns. rewrite Hreq.
  destruct (BodyBuffer (ctx r1)) as [buf |]; cbn [orb andb];
    [| exists r1; repeat split; discriminate].
  destruct (String.length buf =? 0)%nat; cbn [orb andb negb];
    [exists r1; repeat split; discriminate |].
  destruct (StatusCode (ctx r1) =? StatusNotModified) eqn:E304.
  { exists r1. apply Z.eqb_eq in E304. rewrite E304. cbn.
    rewrite !andb_false_r. repeat split; discriminate. }
  destruct (String.eqb (Request_Method req) MethodGet),
           (String.eqb (Request_Method req) MethodHead); cbn [orb andb negb];
    try (exists r1; repeat split; discriminate).
  all: destruct (StatusCode (ctx r1) =? 0) eqn:E0; cbn [orb andb negb].
  all: try (apply Z.eqb_eq in E0; rewrite E0; cbn [orb andb negb Z.ltb Z.leb Z.compare]).
  all: destruct (StatusCode (ctx r1) <? StatusOK) eqn:E200; cbn [orb andb negb].
  all: try (apply Z.ltb_lt in E200;
            replace (StatusOK <=? StatusCode (ctx r1)) with false
              by (symmetry; apply Z.leb_gt; exact E200)).
  all: try (apply Z.ltb_ge in E200;
            replace (StatusOK <=? StatusCode (ctx r1)) with true
              by (symmetry; apply Z.leb_le; exact E200)).
  all: cbn [andb orb].
  all: try (exists r1; repeat split; discriminate).
  all: try (rewrite Z.leb_antisym; destruct (StatusCode (ctx r1) <? StatusMultipleChoices));
    cbn [negb andb orb]; try (exists r1; repeat split; discriminate).
  all: destruct (fresh_Fresh _ _); try (exists r1; repeat split; discriminate).
  all: destruct (NotModified_fields (ctx r1)) as (c' & -> & Hs & Hb & Hbb & _);
    exists (set_ctx c' r1); repeat split; auto; discriminate.
Qed.

End WithLibraries.

Import Examples MoreExamples.

Lemma NewFresh_cases_witness :
  exists r2,
    NewFresh (names := exampleNames) (data := got) (fun _ _ => true)
             {| Fresh.Skipper := None |} answering (typedRun "text/plain") = Done (None, r2)
    /\ StatusCode (ctx r2) = 304 /\ Body (ctx r2) = None /\ BodyBuffer (ctx r2) = None.
Proof.
  destruct (NewFresh_cases (names := exampleNames) (data := got) (fun _ _ => true)
              {| Fresh.Skipper := None |} answering (typedRun "text/plain")
              (set_ctx (set_StatusCode 200
                          (set_BodyBuffer (Some "hello") (ctx (typedRun "text/plain"))))
                       (typedRun "text/plain"))
              None (typed "text/plain") eq_refl eq_refl eq_refl)
    as (r2 & Hrun & _ & _ & _ & _ & Hturn).
  exists r2. split; [exact Hrun |].
  destruct (Hturn eq_refl) as (_ & Hs & Hb & Hbb). auto.
Defined.

End FreshFacts.

Module ComposingFacts.
Import GoStrings Ctx Dispatch Composing.

Lemma set_Next_same (c : Context) : set_Next (Ctx.Next c) c = c.
Proof. destruct c; reflexivity. Qed.

Lemma blind_Next (f : Context -> Context) :
  (forall v c, f (set_Next v c) = set_Next v (f c)) ->
  forall c, Ctx.Next (f c) = Ctx.Next c /\ Committed (f (set_Next None c)) = Committed (f c).
Proof.
  intros Hf c. split.
  - rewrite <- (set_Next_same c) at 1. rewrite Hf. reflexivity.
  - rewrite Hf. reflexivity.
Qed.

Section Closure.
Variable call : NextFunc -> Run -> Outcome (error * Run).
Variable self : nat.
Variable handlerList : list Prog.
Variable originalNext : option NextFunc.

Local Abbreviation within := (within self originalNext).
Local Abbreviation agree := (agree self originalNext).

(** A body without [c.Next()], run on the same state. *)
Lemma execC_same (nx : Composed -> Outcome (error * Composed))
    (nx' : Run -> Outcome (error * Run)) (p : Prog) :
  noNext p ->
  forall s, exists e r',
    exec nx' p (run s) = Done (e, r')
    /\ execC nx p s = Done (e, set_run r' s).
Proof.
  induction 1 as [err | f k _ IH | k _ IH | ns k _ IH]; intros s; cbn.
  - exists err, (run s). destruct s; auto.
  - destruct (IH (set_run (set_ctx (f (ctx (run s))) (run s)) s)) as (e & r' & H1 & H2).
    exists e, r'. auto.
  - apply IH.
  - destruct (IH (set_run (tick ns (run s)) s)) as (e & r' & H1 & H2).
    exists e, r'. auto.
Qed.

(** A body without [c.Next()] that is blind to [c.Next], run while the
    closure is in [c.Next]. *)
Lemma execC_within (nx : Composed -> Outcome (error * Composed))
    (nx' : Run -> Outcome (error * Run)) (p : Prog) :
  noNext p -> nextBlind p ->
  forall s r, within s r ->
    exists e s' r',
      exec nx' p r = Done (e, r') /\ execC nx p s = Done (e, s')
      /\ cursor s' = cursor s /\ within s' r'.
Proof.
  induction 1 as [err | f k _ IH | k _ IH | ns k _ IH]; intros Hb s r Hw; cbn;
    inversion Hb as [| ? ? Hf Hk | ? Hread Hk | ? ? Hk |]; subst.
  - exists err, s, r. auto.
  - destruct Hw as [Hn <-].
    destruct (IH Hk (set_run (set_ctx (f (ctx (run s))) (run s)) s)
                 (assignNext originalNext (set_ctx (f (ctx (run s))) (run s))))
      as (e & s' & r' & H1 & H2 & Hc & Hw').
    { split; [| reflexivity]. cbn.
      destruct (blind_Next f Hf (ctx (run s))) as [-> _]. exact Hn. }
    exists e, s', r'. split; [| auto].
    rewrite <- H1. f_equal. unfold assignNext, set_ctx. cbn. rewrite Hf. reflexivity.
  - destruct Hw as [Hn <-]. cbn. rewrite Hread.
    apply (IH _ (Hk _)). split; [exact Hn | reflexivity].
  - destruct Hw as [Hn <-].
    destruct (IH Hk (set_run (tick ns (run s)) s) (assignNext originalNext (tick ns (run s))))
      as (e & s' & r' & H1 & H2 & Hc & Hw').
    { split; [exact Hn | reflexivity]. }
    exists e, s', r'. auto.
Qed.

(** A body that calls [c.Next()] at most once, run while the closure
    is in [c.Next]. *)
Lemma execC_once (k : Z) (nx : Composed -> Outcome (error * Composed))
    (nx' : Run -> Outcome (error * Run)) (p : Prog) :
  nextOnce p -> nextBlind p ->
  (forall s r, cursor s = k -> within s r -> agree (nx s) (nx' r)) ->
  forall s r, cursor s = k -> within s r -> agree (execC nx p s) (exec nx' p r).
Proof.
  intros Hp Hb Hnx.
  induction Hp as [err | f p _ IH | p _ IH | ns p _ IH | p Hp];
    inversion Hb as [| ? ? Hf Hk | ? Hread Hk | ? ? Hk | ? Hk]; subst;
    intros s r Hc Hw; cbn.
  - split; [reflexivity | right; exact Hw].
  - destruct Hw as [Hn <-].
    replace (set_ctx (f (ctx (assignNext originalNext (run s)))) (assignNext originalNext (run s)))
      with (assignNext originalNext (set_ctx (f (ctx (run s))) (run s)))
      by (unfold assignNext, set_ctx; cbn; rewrite Hf; reflexivity).
    apply (IH Hk); [exact Hc |]. split; [| reflexivity]. cbn.
    destruct (blind_Next f Hf (ctx (run s))) as [-> _]. exact Hn.
  - destruct Hw as [Hn <-]. cbn. rewrite Hread.
    apply (IH _ (Hk _)); [exact Hc |]. split; [exact Hn | reflexivity].
  - destruct Hw as [Hn <-].
    apply (IH Hk (set_run (tick ns (run s)) s) (assignNext originalNext (tick ns (run s))));
      [exact Hc |]. split; [exact Hn | reflexivity].
  - pose proof (Hnx s r Hc Hw) as Hcall.
    destruct (nx s) as [[e1 s1] | |], (nx' r) as [[e2 r1] | |]; cbn in Hcall;
      try contradiction; try exact I.
    destruct Hcall as [<- [<- | Hw1]].
    + destruct (execC_same nx nx' (p e1) (Hp e1) s1) as (e & r' & -> & ->).
      split; [reflexivity | left; reflexivity].
    + destruct (execC_within nx nx' (p e1) (Hp e1) (Hk e1) s1 r1 Hw1)
        as (e & s' & r' & -> & -> & _ & Hw').
      split; [reflexivity | right; exact Hw'].
Qed.

Hypothesis others : match originalNext with
                    | Some fn => isSelf self fn = false
                    | None => True
                    end.
Hypothesis once : Forall nextOnce handlerList.
Hypothesis blind : Forall nextBlind handlerList.

Local Abbreviation orig := (callOriginal call originalNext).
Local Abbreviation n := (length handlerList).

(** The closure with its cursor before the handler at [k] does what
    the handlers from [k] on, nested, do. *)
Lemma callNext_nested (todo : nat) :
  forall (k : nat) (fuel : nat) (s : Composed) (r : Run),
    (k + todo = n)%nat -> (todo + 2 <= fuel)%nat ->
    cursor s = Z.of_nat k - 1 -> within s r ->
    agree (callNext call self handlerList originalNext fuel s)
          (nested (drop k handlerList) orig r).
Proof.
  induction todo as [| todo IH]; intros k fuel s r Hk Hfuel Hc Hw.
  - destruct fuel as [| [| fuel]]; try lia.
    destruct Hw as [Hn <-].
    rewrite drop_ge by lia. cbn [nested callNext].
    rewrite Hn. cbn [isSelf]. rewrite Nat.eqb_refl. cbn [cursor set_cursor].
    replace (max handlerList <=? cursor s + 1) with true
      by (symmetry; apply Z.leb_le; unfold max, len; lia).
    cbn [run set_run set_cursor assignNext ctx Ctx.Next set_Next].
    unfold callOriginal. destruct originalNext as [fn |]; [| exact I].
    rewrite others. unfold outside. cbn [run set_run set_cursor].
    destruct (call fn _) as [[e r'] | |]; cbn; auto.
  - destruct fuel as [| fuel]; [lia |].
    destruct (lookup_lt_is_Some_2 handlerList k) as [h Hh]; [lia |].
    rewrite (drop_S _ _ _ Hh). cbn [nested callNext].
    destruct Hw as [Hn <-]. rewrite Hn. cbn [isSelf]. rewrite Nat.eqb_refl.
    cbn [cursor set_cursor].
    replace (max handlerList <=? cursor s + 1) with false
      by (symmetry; apply Z.leb_gt; unfold max, len; lia).
    unfold at_index. replace (cursor s + 1 <? 0) with false by (symmetry; apply Z.ltb_ge; lia).
    replace (Z.to_nat (cursor s + 1)) with k by lia. rewrite Hh.
    rewrite Forall_forall in once, blind.
    apply (execC_once (Z.of_nat k)).
    + apply once. eapply list_elem_of_lookup_2. exact Hh.
    + apply blind. eapply list_elem_of_lookup_2. exact Hh.
    + intros s1 r1 Hc1 Hw1. apply (IH (S k)); [lia | lia | lia | exact Hw1].
    + cbn. lia.
    + split; [exact Hn | reflexivity].
Qed.

End Closure.

Lemma assignNext_back (v : option NextFunc) (r : Run) :
  assignNext (Ctx.Next (ctx r)) (assignNext v r) = r.
Proof. destruct r as [c ? ? ? ? ?]. destruct c. reflexivity. Qed.

Lemma assignNext_same (r : Run) : assignNext (Ctx.Next (ctx r)) r = r.
Proof. destruct r as [c ? ? ? ? ?]. destruct c. reflexivity. Qed.

Lemma assignNext_twice (v w : option NextFunc) (r : Run) :
  assignNext v (assignNext w r) = assignNext v r.
Proof. reflexivity. Qed.

(** [Compose] of no handler panics.  [Compose] of handlers that call
    [c.Next()] at most once and neither read nor assign [c.Next] gives
    a handler that does what the handlers nested in order do (a call
    of [c.Next()] in one runs the next; in the last it runs the
    function [c.Next] held before): it ends as they do, with the same
    error and the same run, except that [c.Next] may be left holding
    the closure of [Compose] (it is put back only when the last
    handler calls it). *)
Theorem Compose_nested (call : NextFunc -> Run -> Outcome (error * Run)) (self : nat)
    (handlerList : list Prog) (fuel : nat) (r : Run) :
  handlerList <> [] ->
  Forall nextOnce handlerList -> Forall nextBlind handlerList ->
  match Ctx.Next (ctx r) with Some fn => isSelf self fn = false | None => True end ->
  (length handlerList + 2 <= fuel)%nat ->
  Compose call self [] fuel = None
  /\ exists handler,
      Compose call self handlerList fuel = Some handler
      /\ match nested handlerList (callOriginal call (Ctx.Next (ctx r))) r with
         | Done (err, r') =>
             handler r = Done (err, r')
             \/ handler r = Done (err, assignNext (Some (OtherNext self)) r')
         | Panic => handler r = Panic
         | OutOfFuel => handler r = OutOfFuel
         end.
Proof.
  intros Hne Honce Hblind Hother Hfuel. split; [reflexivity |].
  unfold Compose.
  replace (len handlerList =? 0) with false
    by (symmetry; apply Z.eqb_neq; unfold len; destruct handlerList; [congruence | cbn; lia]).
  eexists. split; [reflexivity |]. cbv beta zeta.
  pose proof (callNext_nested call self handlerList (Ctx.Next (ctx r)) Hother Honce Hblind
                (length handlerList) 0 fuel
                {| run := assignNext (Some (OtherNext self)) r; cursor := -1 |} r) as H.
  rewrite drop_0 in H.
  assert (Hagree := H ltac:(lia) Hfuel ltac:(reflexivity)
                      (conj eq_refl (assignNext_back (Some (OtherNext self)) r))).
  clear H.
  destruct (callNext call self handlerList _ fuel _) as [[e1 s] | |],
           (nested handlerList _ r) as [[e2 r'] | |]; cbn in Hagree; try contradiction; auto.
  destruct Hagree as [<- [<- | [Hn <-]]]; [left; reflexivity | right].
  rewrite assignNext_twice. rewrite <- Hn. rewrite assignNext_same. reflexivity.
Qed.

Import Examples MoreExamples.

Lemma Compose_nested_witness :
  Compose recordCall 0 [] 4 = None
  /\ exists handler,
      Compose recordCall 0 passing 4 = Some handler
      /\ (handler (freshRun plainElton noGlobals [])
          = Done (None, emit (EvHandler 7 "route") (tick 1 (freshRun plainElton noGlobals [])))
          \/ handler (freshRun plainElton noGlobals [])
             = Done (None, assignNext (Some (OtherNext 0%nat))
                             (emit (EvHandler 7 "route")
                                (tick 1 (freshRun plainElton noGlobals []))))).
Proof.
  apply (Compose_nested recordCall 0 passing 4 (freshRun plainElton noGlobals [])).
  - discriminate.
  - repeat constructor.
  - repeat constructor.
  - reflexivity.
  - cbn. lia.
Defined.

(** The two handlers of the example pass on to the end: the function
    that [c.Next] held before is called and is back in [c.Next].  A
    single handler that does not call [c.Next()] leaves the closure of
    [Compose] in [c.Next]. *)
Example Compose_runs :
  match Compose recordCall 0 passing 4 with
  | Some handler =>
      handler (freshRun plainElton noGlobals [])
      = Done (None, emit (EvHandler 7 "route") (tick 1 (freshRun plainElton noGlobals [])))
  | None => False
  end
  /\ match Compose recordCall 0 [Return None] 3 with
     | Some handler =>
         handler (freshRun plainElton noGlobals [])
         = Done (None, assignNext (Some (OtherNext 0%nat)) (freshRun plainElton noGlobals []))
     | None => False
     end.
Proof. vm_compute. split; reflexivity. Qed.

End ComposingFacts.

Module StatusFacts.
Import GoStrings Ctx Dispatch DispatchFacts CtxMethods Observed HeaderFacts ObservedFacts AnswerFacts.

Section WithNames.
Context `{names : Names}.
Variables (fs : Funcs) (env : Env).

(** The answer when there is neither a body buffer nor a reader: the
    status code, if one was set, and nothing else. *)
Lemma status_response (r : Run) :
  Committed (ctx r) = false -> BodyBuffer (ctx r) = None -> Body (ctx r) = None ->
  exists r',
    finalize fs env None r = Done r'
    /\ log r' = log r
                ++ (if StatusCode (ctx r) =? 0 then [] else [EvWriteHeader (StatusCode (ctx r))])
                ++ [EvBranch StatusBranch]
                ++ (if isReuse (ctx r') then [EvPoolPut] else [])
    /\ ctx r' = set_Committed true (ctx r).
Proof.
  intros Hc Hbuf Hbody. unfold finalize, respond. cbn [emitErrors]. rewrite Hc. cbn [negb].
  unfold setContentLength. rewrite Hbuf. unfold writeBody, writeStatus.
  destruct (StatusCode (ctx r) =? 0); cbn [negb ctx emit]; rewrite Hbuf, Hbody;
    eexists; (split; [reflexivity |]); unfold release; cbn [ctx set_ctx emit];
    destruct (isReuse (set_Committed true (ctx r))) eqn:E; cbn [log emit set_ctx ctx];
    rewrite ?E, <- ?app_assoc, ?app_nil_r; auto.
Qed.

(** [NoContent] and [NotModified] never panic, not even on a Context
    without header map.  They set the status (204, 304), drop the body
    and the body buffer, and delete three headers each, keeping the
    others.  A response left in this state is answered with the status
    code alone: nothing is written after it. *)
Theorem NoContent_NotModified (c : Context) :
  (exists c',
      NoContent c = Some c'
      /\ StatusCode c' = StatusNoContent /\ Body c' = None /\ BodyBuffer c' = None
      /\ Committed c' = Committed c
      /\ (forall key,
            GetHeader key c'
            = if decide (CanonicalMIMEHeaderKey key
                         ∈ map CanonicalMIMEHeaderKey
                             [HeaderContentType; HeaderContentLength; HeaderTransferEncoding])
              then EmptyString else GetHeader key c)
      /\ (forall r, ctx r = c' -> Committed c = false ->
            exists r', finalize fs env None r = Done r'
              /\ log r' = log r ++ [EvWriteHeader StatusNoContent; EvBranch StatusBranch]
                          ++ (if isReuse (ctx r') then [EvPoolPut] else [])))
  /\ (exists c',
      NotModified c = Some c'
      /\ StatusCode c' = StatusNotModified /\ Body c' = None /\ BodyBuffer c' = None
      /\ Committed c' = Committed c
      /\ (forall key,
            GetHeader key c'
            = if decide (CanonicalMIMEHeaderKey key
                         ∈ map CanonicalMIMEHeaderKey
                             [HeaderContentType; HeaderContentLength; HeaderContentEncoding])
              then EmptyString else GetHeader key c)
      /\ (forall r, ctx r = c' -> Committed c = false ->
            exists r', finalize fs env None r = Done r'
              /\ log r' = log r ++ [EvWriteHeader StatusNotModified; EvBranch StatusBranch]
                          ++ (if isReuse (ctx r') then [EvPoolPut] else []))).
Proof.
  split.
  - destruct (clearHeader_fold
                [HeaderContentType; HeaderContentLength; HeaderTransferEncoding]
                (set_BodyBuffer None (set_Body None (set_StatusCode StatusNoContent c))))
      as (oh & Hfold & Hget).
    exists (set_Headers oh (set_BodyBuffer None (set_Body None (set_StatusCode StatusNoContent c)))).
    split; [unfold NoContent; rewrite <- Hfold; reflexivity |].
    split; [reflexivity |]. split; [reflexivity |]. split; [reflexivity |].
    split; [reflexivity |]. split; [exact Hget |].
    intros r Hr Hc.
    destruct (status_response r) as (r' & Hfin & Hlog & _); try (rewrite Hr; reflexivity).
    { rewrite Hr. exact Hc. }
    exists r'. split; [exact Hfin |]. rewrite Hlog, Hr. reflexivity.
  - destruct (clearHeader_fold
                [HeaderContentType; HeaderContentLength; HeaderContentEncoding]
                (set_StatusCode StatusNotModified c))
      as (oh & Hfold & Hget).
    exists (set_BodyBuffer None (set_Body None
              (set_Headers oh (set_StatusCode StatusNotModified c)))).
    split; [unfold NotModified; rewrite <- Hfold; reflexivity |].
    split; [reflexivity |]. split; [reflexivity |]. split; [reflexivity |].
    split; [reflexivity |]. split; [exact Hget |].
    intros r Hr Hc.
    destruct (status_response r) as (r' & Hfin & Hlog & _); try (rewrite Hr; reflexivity).
    { rewrite Hr. exact Hc. }
    exists r'. split; [exact Hfin |]. rewrite Hlog, Hr. reflexivity.
Qed.

Lemma nonEmpty_app_l (s t : string) : nonEmpty s = true -> nonEmpty (s +:+ t) = true.
Proof. destruct s; [discriminate | reflexivity]. Qed.

Lemma nonEmpty_app_r (s t : string) : nonEmpty t = true -> nonEmpty (s +:+ t) = true.
Proof. destruct s; [intros H; exact H | reflexivity]. Qed.

Lemma ServerTiming_loop_nonEmpty (prefix : string) (size : Z) (infos : list Trace.TraceInfo) :
  forall i s, nonEmpty s = true -> nonEmpty (Trace.ServerTiming_loop prefix size i infos s) = true.
Proof.
  induction infos as [| t rest IH]; intros i s Hs; [exact Hs |].
  cbn [Trace.ServerTiming_loop]. apply IH. unfold WriteString.
  destruct (negb _); repeat (first [exact Hs | apply nonEmpty_app_l]).
Qed.

(** The rendering of one record or more is not the empty string. *)
Lemma ServerTiming_nonEmpty (t : Trace.TraceInfo) (rest : list Trace.TraceInfo)
    (prefix : string) :
  nonEmpty (Trace.ServerTiming (t :: rest) prefix) = true.
Proof.
  unfold Trace.ServerTiming.
  replace (Z.of_nat (length (t :: rest)) =? 0) with false
    by (symmetry; apply Z.eqb_neq; cbn [length]; lia).
  cbn [Trace.ServerTiming_loop]. apply ServerTiming_loop_nonEmpty. unfold WriteString.
  assert (H : nonEmpty ((EmptyString +:+ prefix) +:+ Itoa 0) = true)
    by (apply nonEmpty_app_r; apply Itoa_nonEmpty).
  destruct (negb _); repeat (first [exact H | apply nonEmpty_app_l]).
Qed.

(** [c.ServerTiming] sets the Server-Timing header to the rendering of
    the records, replacing an earlier value, and leaves the other
    headers alone.  With no record it does nothing at all: a value
    set earlier stays.  With records and no header map it panics. *)
Theorem ServerTiming_header (traceInfos : list Trace.TraceInfo) (prefix : string)
    (c : Context) :
  match traceInfos, Headers c with
  | [], _ => CtxMethods.ServerTiming traceInfos prefix c = Some c
  | _ :: _, None => CtxMethods.ServerTiming traceInfos prefix c = None
  | _ :: _, Some h =>
      exists h',
        CtxMethods.ServerTiming traceInfos prefix c = Some (set_Headers (Some h') c)
        /\ (forall key, CanonicalMIMEHeaderKey key = CanonicalMIMEHeaderKey HeaderServerTiming ->
                        GetHeader key (set_Headers (Some h') c)
                        = Trace.ServerTiming traceInfos prefix)
        /\ (forall key, CanonicalMIMEHeaderKey key <> CanonicalMIMEHeaderKey HeaderServerTiming ->
                        GetHeader key (set_Headers (Some h') c) = GetHeader key c)
  end.
Proof.
  destruct traceInfos as [| t rest]; [reflexivity |].
  unfold CtxMethods.ServerTiming, SetHeader. rewrite ServerTiming_nonEmpty.
  destruct (Headers c) as [h |] eqn:Hh; [| reflexivity].
  exists (Header_Set HeaderServerTiming (Trace.ServerTiming (t :: rest) prefix) h).
  split; [reflexivity |]. unfold GetHeader. cbn [Headers set_Headers]. rewrite Hh. split.
  - intros key Hk. rewrite Header_Get_Set, decide_True by exact Hk. reflexivity.
  - intros key Hk. rewrite Header_Get_Set, decide_False by exact Hk. reflexivity.
Qed.

End WithNames.

End StatusFacts.

Module AddressFacts.
Import GoStrings GoNet Ctx CtxMethods.

Section WithLib.
Context `{lib : Lib}.

(** [RealIP] and [ClientIP] keep their first non-empty answer in the
    Context: a later call returns it without looking at the request,
    whatever the request has become (replaced, or gone).  An empty
    answer is not kept. *)
Theorem RealIP_ClientIP_cached (c : Context) (req : http_Request) :
  Request c = Some req -> realIP c = EmptyString -> clientIP c = EmptyString ->
  RealIP c = Some (GetRealIP req, set_realIP (GetRealIP req) c)
  /\ ClientIP c = Some (GetClientIP req, set_clientIP (GetClientIP req) c)
  /\ (GetRealIP req <> EmptyString ->
      forall other,
        RealIP (set_Request other (set_realIP (GetRealIP req) c))
        = Some (GetRealIP req, set_Request other (set_realIP (GetRealIP req) c)))
  /\ (GetClientIP req <> EmptyString ->
      forall other,
        ClientIP (set_Request other (set_clientIP (GetClientIP req) c))
        = Some (GetClientIP req, set_Request other (set_clientIP (GetClientIP req) c))).
Proof.
  intros Hreq Hreal Hclient. unfold RealIP, ClientIP. rewrite Hreq, Hreal, Hclient. cbn.
  split; [reflexivity |]. split; [reflexivity |].
  split; intros Hne other; cbn; unfold nonEmpty;
    rewrite (proj2 (String.eqb_neq _ _) Hne); reflexivity.
Qed.

End WithLib.

Import Examples MoreExamples.

Lemma RealIP_ClientIP_cached_witness :
  RealIP (lib := exampleLib) (NewContext (Some recorder) (Some (forwarded "10.0.0.5, 8.8.8.8")))
  = Some ("10.0.0.5",
          set_realIP "10.0.0.5" (NewContext (Some recorder) (Some (forwarded "10.0.0.5, 8.8.8.8"))))
  /\ RealIP (lib := exampleLib)
       (set_Request None
          (set_realIP "10.0.0.5"
             (NewContext (Some recorder) (Some (forwarded "10.0.0.5, 8.8.8.8")))))
     = Some ("10.0.0.5",
             set_Request None
               (set_realIP "10.0.0.5"
                  (NewContext (Some recorder) (Some (forwarded "10.0.0.5, 8.8.8.8"))))).
Proof.
  destruct (RealIP_ClientIP_cached (lib := exampleLib)
              (NewContext (Some recorder) (Some (forwarded "10.0.0.5, 8.8.8.8")))
              (forwarded "10.0.0.5, 8.8.8.8") eq_refl eq_refl eq_refl)
    as (Hreal & _ & Hcached & _).
  split; [exact Hreal |]. apply Hcached. vm_compute. discriminate.
Defined.

End AddressFacts.

Module LockFacts.
Import SignedKeys.

(** A call of [GetKeys] or [SetKeys] of [RWMutexSignedKeys] that
    returns leaves the mutex as it found it: the deferred unlock
    always releases what the call locked.  [GetKeys] returns (does not
    block) exactly when no writer holds the mutex, [SetKeys] exactly
    when nobody holds it. *)
Theorem RWMutex_released (rwSk : RWMutexSignedKeys) (keys : list string) :
  (forall result rwSk', GetKeys rwSk = Some (result, rwSk') ->
                        rwSk' = rwSk /\ result = rw_keys rwSk)
  /\ (forall rwSk', SetKeys keys rwSk = Some rwSk' ->
                    rw_mutex rwSk' = rw_mutex rwSk /\ rw_keys rwSk' = keys)
  /\ (is_Some (GetKeys rwSk) <-> writer (rw_mutex rwSk) = false)
  /\ (is_Some (SetKeys keys rwSk) <-> rw_mutex rwSk = free).
Proof.
  destruct rwSk as [[w n] ks]. cbn. unfold RLock, RUnlock, Lock, Unlock. cbn.
  split; [| split; [| split]].
  - destruct w; cbn; [discriminate |]. intros result rwSk' [= <- <-]. auto.
  - destruct w; cbn; [discriminate |]. destruct n; cbn; [| discriminate].
    intros rwSk' [= <-]. auto.
  - destruct w; cbn; split; intros H; try discriminate; eauto. destruct H; discriminate.
  - destruct w; cbn; [split; intros H; [destruct H; discriminate | discriminate] |].
    destruct n; cbn; split; intros H; eauto; try discriminate. destruct H; discriminate.
Qed.

End LockFacts.

Module RoutesFacts.
Import GoStrings Ctx Dispatch Middleware Routes.

Lemma copy_all (dst src : list (option Handler)) :
  length dst = length src -> copy dst src = src.
Proof.
  revert src. induction dst as [| d dst IH]; intros [| x src] H; try discriminate;
    [reflexivity |]. cbn. rewrite IH; [reflexivity | cbn in H; lia].
Qed.

Lemma copy_front (src dst rest : list (option Handler)) :
  length dst = length src -> copy (dst ++ rest) src = src ++ rest.
Proof.
  revert src. induction dst as [| d dst IH]; intros [| x src] H; try discriminate.
  - destruct rest; reflexivity.
  - cbn. rewrite IH; [reflexivity | cbn in H; lia].
Qed.

(** [merge] returns the handlers of the group followed by those of
    the route, in a slice of its own. *)
Lemma merge_app (g : Group) (s2 : list (option Handler)) :
  merge g s2 = HandlerList g ++ s2.
Proof.
  unfold merge, make. rewrite replicate_add.
  rewrite copy_front by apply length_replicate.
  rewrite take_app_length, drop_app_length.
  rewrite copy_all by apply length_replicate. reflexivity.
Qed.

Section Server.
Variable methods : list string.
Variable D : Type.
Variable Handle : string -> string -> list (option Handler) -> D -> option D.

Local Abbreviation methodsOf :=
  (fun op : Call => match op with One method _ _ => [method] | All _ _ => methods end).
Local Abbreviation pathOf :=
  (fun op : Call => match op with One _ path _ | All path _ => path end).
Local Abbreviation handlersOf :=
  (fun op : Call => match op with One _ _ hs | All _ hs => hs end).

Lemma forEach_app {A : Type} (body : A -> D -> option D) (l1 l2 : list A) (d : D) :
  forEach D body (l1 ++ l2) d = forEach D body l1 d ≫= forEach D body l2.
Proof.
  revert d. induction l1 as [| x l1 IH]; intros d; cbn; [reflexivity |].
  destruct (body x d) as [d1 |]; cbn; [apply IH | reflexivity].
Qed.

Lemma forEach_map {A B : Type} (f : A -> B) (body : B -> D -> option D) (l : list A) (d : D) :
  forEach D body (map f l) d = forEach D (fun x => body (f x)) l d.
Proof.
  revert d. induction l as [| x l IH]; intros d; cbn; [reflexivity |].
  destruct (body (f x) d) as [d1 |]; cbn; [apply IH | reflexivity].
Qed.

Lemma add_all (p : string) (fns : list (option Handler)) (ms : list string) :
  forall g,
    fold_left (fun g method => add method p fns g) ms g
    = {| GroupPath := GroupPath g; HandlerList := HandlerList g;
         routers := routers g
                    ++ map (fun method => {| Method := method; Path := p; HandleList := fns |})
                           ms |}.
Proof.
  induction ms as [| method ms IH]; intros g; cbn.
  - rewrite app_nil_r. destruct g; reflexivity.
  - rewrite IH. cbn. rewrite <- app_assoc. reflexivity.
Qed.

(** What a call on a group leaves: one route per method, under the
    group's path followed by the call's, with the group's handlers
    followed by the call's. *)
Lemma onGroup_fields (op : Call) (g : Group) :
  onGroup methods op g
  = {| GroupPath := GroupPath g; HandlerList := HandlerList g;
       routers := routers g
                  ++ map (fun method => {| Method := method;
                                           Path := GroupPath g +:+ pathOf op;
                                           HandleList := HandlerList g ++ handlersOf op |})
                         (methodsOf op) |}.
Proof.
  destruct op as [method path hs | path hs]; cbn.
  - unfold route, add. rewrite merge_app. reflexivity.
  - unfold ALL. rewrite merge_app. apply add_all.
Qed.

Lemma AddGroup_onGroup (op : Call) (g : Group) (d : D) :
  AddGroup D Handle (onGroup methods op g) d
  = AddGroup D Handle g d ≫= onServer methods D Handle (GroupPath g) (HandlerList g) op.
Proof.
  unfold AddGroup. rewrite onGroup_fields. cbn [routers].
  rewrite forEach_app. destruct (forEach D _ (routers g) d) as [d1 |]; cbn; [| reflexivity].
  rewrite forEach_map. cbn [Method Path HandleList].
  destruct op as [method path hs | path hs]; cbn.
  - destruct (Handle method _ _ d1); reflexivity.
  - reflexivity.
Qed.

Lemma calls_fields (ops : list Call) :
  forall g, GroupPath (calls methods ops g) = GroupPath g
            /\ HandlerList (calls methods ops g) = HandlerList g.
Proof.
  induction ops as [| op ops IH]; intros g; [auto |].
  change (calls methods (op :: ops) g) with (calls methods ops (onGroup methods op g)).
  destruct (IH (onGroup methods op g)) as [-> ->]. rewrite onGroup_fields. auto.
Qed.

(** Routes added through a group.  [AddGroup] after any calls of the
    route methods of a group does what the same calls on the server
    itself do, in the same order, each with the group's path before
    its own and the group's handlers before its own; when the router
    rejects a route, it panics at the same route.  Routes that the
    group had before come first. *)
Theorem AddGroup_calls (ops : list Call) (g : Group) (d : D) :
  AddGroup D Handle (calls methods ops g) d
  = AddGroup D Handle g d
      ≫= forEach D (onServer methods D Handle (GroupPath g) (HandlerList g)) ops
  /\ forall path handlerList,
       AddGroup D Handle (calls methods ops (NewGroup path handlerList)) d
       = forEach D (onServer methods D Handle path handlerList) ops d.
Proof.
  assert (Hgen : forall ops g d,
    AddGroup D Handle (calls methods ops g) d
    = AddGroup D Handle g d
        ≫= forEach D (onServer methods D Handle (GroupPath g) (HandlerList g)) ops).
  { clear ops g d. intros ops. induction ops as [| op ops IH] using rev_ind; intros g d.
    - cbn. destruct (AddGroup D Handle g d); reflexivity.
    - unfold calls. rewrite fold_left_app. cbn [fold_left].
      change (fold_left (fun g op => onGroup methods op g) ops g) with (calls methods ops g).
      rewrite AddGroup_onGroup, IH.
      destruct (calls_fields ops g) as [-> ->].
      destruct (AddGroup D Handle g d) as [d0 |]; cbn; [| reflexivity].
      rewrite forEach_app. destruct (forEach D _ ops d0) as [d1 |]; cbn; [| reflexivity].
      destruct (onServer methods D Handle _ _ op d1); reflexivity. }
  split; [apply Hgen |].
  intros path handlerList. rewrite Hgen. reflexivity.
Qed.

End Server.

Import Examples MoreExamples.

(** A group /api with one handler of its own: a GET route, then a
    route for all (here two) methods.  The server records each route
    with the number of its handlers. *)
Example AddGroup_run :
  AddGroup _ noted
    (calls ["GET"; "POST"] [One "GET" "/a" [None]; All "/b" []] (NewGroup "/api" [None])) []
  = Some [("GET", "/api/a", 2%nat); ("GET", "/api/b", 1%nat); ("POST", "/api/b", 1%nat)].
Proof. reflexivity. Qed.

End RoutesFacts.
